(** * FitScreenJS: the scaling and layout engine, embedded and verified

    The development follows the layout of the repository:

    - [Js]        the fragment of JavaScript the code relies on: numbers with
                  NaN and the infinities, truthiness, [===], [parseFloat],
                  [split], [toLowerCase], [Math.max], [Math.min], [Math.round];
    - [Dom]       what the code reads of the page: offsets, computed and
                  inline sizes, bounding rectangles, the window's size;
    - [Helpers]   src/utils/helpers.js;
    - [Binary64]  the scale calculator of src/utils/helpers.js on binary64;
    - [Modes]     src/core/modes.js;
    - [Detector]  src/core/detector.js;
    - [Scaler]    src/core/scaler.js, the revision with independent X/Y factors;
    - [ScalerUniform]  src/core/scaler.js, the revision with one scalar factor;
    - [FitScreenJS]    src/index.js, the orchestrator;
    - [FitScreenJSDetect]  src/index.js, the revision of the orchestrator that
                  records the size detected on the container's first child;
    - [Styles], [StylesStretch]  the style functions of src/core/modes.js, in
                  the centring and the stretching revision of the fullscreen one;
    - [Debounce]  [debounce] of src/utils/helpers.js.

    Numbers.  A JavaScript number is an IEEE-754 binary64 value.  The model
    keeps what the code observes of that format (NaN, the two infinities, the
    outcome of a division by zero, the falsiness of [0] and [NaN]) and takes
    the finite values to be exact rationals: binary64 rounding, overflow and
    the sign of zero are not modelled.  [Binary64] holds the scale calculator
    once more, on binary64 numbers proper, to evaluate it on the reference
    inputs.

    Effects.  A method takes the instance and returns the new instance.  DOM
    style mutation, the user callbacks, the console and the window's listener
    table are outside the engine; every call to one of them is recorded, in
    order, in a trace of [event]s returned next to the new instance. *)

From Stdlib Require Import ZArith QArith Qround Qminmax Qabs Lia Lqa Bool List
  Ascii String PrimFloat.
Import ListNotations.

Set Implicit Arguments.

(* ================================================================== *)
(** ** The JavaScript fragment *)
(* ================================================================== *)

Module Js.

Local Open Scope Q_scope.

(** *** Numbers *)

Inductive number : Type :=
| NaN : number
| Infinity (negative : bool) : number
| Fin (q : Q) : number.

Definition Qlt_bool (p q : Q) : bool := negb (Qle_bool q p).

Definition Qneg (q : Q) : bool := Qlt_bool q 0.

Definition of_Z (z : Z) : number := Fin (inject_Z z).

(** [a / b] *)
Definition div (a b : number) : number :=
  match a, b with
  | NaN, _ => NaN
  | _, NaN => NaN
  | Infinity _, Infinity _ => NaN
  | Infinity s, Fin q => Infinity (xorb s (Qneg q))
  | Fin _, Infinity _ => Fin 0
  | Fin p, Fin q =>
      if Qeq_bool q 0
      then (if Qeq_bool p 0 then NaN else Infinity (Qneg p))
      else Fin (p / q)
  end.

(** [a * b] *)
Definition mul (a b : number) : number :=
  match a, b with
  | NaN, _ => NaN
  | _, NaN => NaN
  | Infinity s, Infinity t => Infinity (xorb s t)
  | Infinity s, Fin q => if Qeq_bool q 0 then NaN else Infinity (xorb s (Qneg q))
  | Fin p, Infinity t => if Qeq_bool p 0 then NaN else Infinity (xorb (Qneg p) t)
  | Fin p, Fin q => Fin (p * q)
  end.

(** [a - b] *)
Definition sub (a b : number) : number :=
  match a, b with
  | NaN, _ => NaN
  | _, NaN => NaN
  | Infinity s, Infinity t => if Bool.eqb s t then NaN else Infinity s
  | Infinity s, Fin _ => Infinity s
  | Fin _, Infinity t => Infinity (negb t)
  | Fin p, Fin q => Fin (p - q)
  end.

(** [a > b]: false as soon as one side is NaN *)
Definition gt (a b : number) : bool :=
  match a, b with
  | NaN, _ => false
  | _, NaN => false
  | Infinity true, _ => false
  | Infinity false, Infinity false => false
  | Infinity false, _ => true
  | Fin _, Infinity t => t
  | Fin p, Fin q => Qlt_bool q p
  end.

(** [a === b] on numbers: NaN differs from itself *)
Definition strict_eq (a b : number) : bool :=
  match a, b with
  | Infinity s, Infinity t => Bool.eqb s t
  | Fin p, Fin q => Qeq_bool p q
  | _, _ => false
  end.

(** [isNaN(a)] on a number *)
Definition isNaN (a : number) : bool :=
  match a with NaN => true | _ => false end.

(** ToBoolean on a number: [0] and [NaN] are falsy *)
Definition truthy (a : number) : bool :=
  match a with
  | NaN => false
  | Infinity _ => true
  | Fin q => negb (Qeq_bool q 0)
  end.

(** [Math.max(a, b)] and [Math.min(a, b)]: NaN if either argument is *)
Definition Math_max (a b : number) : number :=
  match a, b with
  | NaN, _ => NaN
  | _, NaN => NaN
  | _, _ => if gt b a then b else a
  end.

Definition Math_min (a b : number) : number :=
  match a, b with
  | NaN, _ => NaN
  | _, NaN => NaN
  | _, _ => if gt a b then b else a
  end.

(** [Math.round(a)]: the nearest integer, a tie going up, i.e. floor(a + 1/2) *)
Definition Math_round (a : number) : number :=
  match a with
  | Fin q => Fin (inject_Z (Qfloor (q + (1 # 2))))
  | _ => a
  end.

(** [a || b] on numbers *)
Definition or_else (a b : number) : number := if truthy a then a else b.

(** [-a] *)
Definition neg (a : number) : number :=
  match a with
  | NaN => NaN
  | Infinity s => Infinity (negb s)
  | Fin q => Fin (- q)
  end.

(** *** Strings

    A string is its sequence of code units; the functions below treat the
    ASCII range the way ECMAScript does and leave every other unit alone. *)

Local Open Scope string_scope.

(** [s.split(':')]: always at least one part *)
Fixpoint split_colon (s : string) : list string :=
  match s with
  | EmptyString => [EmptyString]
  | String c r =>
      if Ascii.eqb c ":"%char then EmptyString :: split_colon r
      else match split_colon r with
           | h :: t => String c h :: t
           | [] => [String c EmptyString]
           end
  end.

Definition lower_char (c : ascii) : ascii :=
  let n := N_of_ascii c in
  if (65 <=? n)%N && (n <=? 90)%N then ascii_of_N (n + 32) else c.

(** [s.toLowerCase()] *)
Fixpoint toLowerCase (s : string) : string :=
  match s with
  | EmptyString => EmptyString
  | String c r => String (lower_char c) (toLowerCase r)
  end.

(** StrWhiteSpaceChar, ASCII range: TAB, LF, VT, FF, CR, SP *)
Definition isWhiteSpace (c : ascii) : bool :=
  let n := N_of_ascii c in
  ((9 <=? n)%N && (n <=? 13)%N) || (n =? 32)%N.

Fixpoint trimStart (s : string) : string :=
  match s with
  | String c r => if isWhiteSpace c then trimStart r else s
  | EmptyString => s
  end.

Definition digit_of (c : ascii) : option Z :=
  let n := Z.of_N (N_of_ascii c) in
  if (48 <=? n)%Z && (n <=? 57)%Z then Some (n - 48)%Z else None.

(** The longest run of DecimalDigits at the head of [s]: the value read
    (continuing from [acc]), how many digits were read, and what follows. *)
Fixpoint scanDigits (s : string) (acc : Z) (count : nat) : Z * nat * string :=
  match s with
  | String c r =>
      match digit_of c with
      | Some d => scanDigits r (10 * acc + d)%Z (S count)
      | None => (acc, count, s)
      end
  | EmptyString => (acc, count, s)
  end.

(** ExponentPart, when a complete one is there: [e] or [E], an optional
    sign, at least one digit.  Otherwise exponent 0 and nothing consumed. *)
Definition scanExponent (s : string) : Z * string :=
  match s with
  | String c r =>
      if Ascii.eqb c "e"%char || Ascii.eqb c "E"%char then
        let '(negative, r1) :=
          match r with
          | String "+"%char r' => (false, r')
          | String "-"%char r' => (true, r')
          | _ => (false, r)
          end in
        let '(e, n, r2) := scanDigits r1 0%Z O in
        match n with
        | O => (0%Z, s)
        | S _ => ((if negative then - e else e)%Z, r2)
        end
      else (0%Z, s)
  | EmptyString => (0%Z, s)
  end.

Fixpoint strip_prefix (p s : string) : option string :=
  match p, s with
  | EmptyString, _ => Some s
  | String a p', String b s' => if Ascii.eqb a b then strip_prefix p' s' else None
  | String _ _, EmptyString => None
  end.

(** The longest prefix of [s] that is a StrUnsignedDecimalLiteral:
    [Infinity], [digits . digits? exponent?], [. digits exponent?] or
    [digits exponent?]; its value. *)
Definition scanUnsigned (s : string) : option number :=
  match strip_prefix "Infinity" s with
  | Some _ => Some (Infinity false)
  | None =>
      let '(i, ni, r) := scanDigits s 0%Z O in
      match r with
      | String "."%char r1 =>
          let '(m, nf, r2) := scanDigits r1 i O in
          match ni, nf with
          | O, O => None
          | _, _ =>
              let '(e, _) := scanExponent r2 in
              Some (Fin (inject_Z m * 10 ^ (e - Z.of_nat nf)))
          end
      | _ =>
          match ni with
          | O => None
          | S _ =>
              let '(e, _) := scanExponent r in
              Some (Fin (inject_Z i * 10 ^ e))
          end
      end
  end.

(** [parseFloat(s)] on a string: leading white space is skipped, the longest
    prefix that is a StrDecimalLiteral is read, NaN if there is none. *)
Definition parseFloat (s : string) : number :=
  let t := trimStart s in
  let signed :=
    match t with
    | String "+"%char r => scanUnsigned r
    | String "-"%char r => option_map neg (scanUnsigned r)
    | _ => scanUnsigned t
    end in
  match signed with
  | Some x => x
  | None => NaN
  end.

(** *** Values *)

Inductive value : Type :=
| VUndefined : value
| VNull : value
| VBoolean (b : bool) : value
| VNumber (n : number) : value
| VString (s : string) : value
| VObject (identity : nat) : value.

(** ToBoolean *)
Definition to_boolean (v : value) : bool :=
  match v with
  | VUndefined | VNull => false
  | VBoolean b => b
  | VNumber n => truthy n
  | VString s => negb (String.eqb s "")
  | VObject _ => true
  end.

(** [a === b] on values *)
Definition value_strict_eq (a b : value) : bool :=
  match a, b with
  | VUndefined, VUndefined => true
  | VNull, VNull => true
  | VBoolean x, VBoolean y => Bool.eqb x y
  | VNumber x, VNumber y => strict_eq x y
  | VString x, VString y => String.eqb x y
  | VObject x, VObject y => Nat.eqb x y
  | _, _ => false
  end.

End Js.

Import Js.

Declare Scope js_scope.
Delimit Scope js_scope with js.
Bind Scope js_scope with number.
Notation "a / b" := (div a b) : js_scope.
Notation "a * b" := (mul a b) : js_scope.
Notation "a - b" := (sub a b) : js_scope.
Notation "a >? b" := (gt a b) (at level 70) : js_scope.
Notation "a === b" := (strict_eq a b = true) (at level 70) : js_scope.
Notation "a =/= b" := (strict_eq a b = false) (at level 70) : js_scope.

(* ================================================================== *)
(** ** The page: what the engine reads of the DOM *)
(* ================================================================== *)

Module Dom.

(** Offsets are the DOM's integer [offsetWidth]/[offsetHeight];
    [computedWidth] is [getComputedStyle(e).width], [styleWidth] is
    [e.style.width], [children] holds [child.getBoundingClientRect()] of each
    child, in order. *)
Module DOMRect.
Record t := { left : number; top : number; right : number; bottom : number }.
End DOMRect.

Record Element := {
  offsetWidth : Z;
  offsetHeight : Z;
  computedWidth : string;
  computedHeight : string;
  styleWidth : string;
  styleHeight : string;
  boundingClientRect : DOMRect.t;
  children : list DOMRect.t
}.

Record Window := { innerWidth : Z; innerHeight : Z }.

(** An object holds a reference to a DOM node, not its geometry: the
    geometry is read from the page as it is when a method runs.  The page is
    taken not to reflow while one method runs. *)
Definition node := nat.

Record Page := { window : Window; element : node -> Element }.

End Dom.

Import Dom.

Record Size := { width : number; height : number }.

(* ================================================================== *)
(** ** src/utils/helpers.js *)
(* ================================================================== *)

Module Helpers.

Local Open Scope js_scope.

Definition parseAspectRatio (ratio : value) : value :=
  if negb (to_boolean ratio) then VNull
  else match ratio with
  | VString s =>
      match split_colon s with
      | [part0; part1] =>
          let width := parseFloat part0 in
          let height := parseFloat part1 in
          if isNaN width || isNaN height || strict_eq height (Fin 0) then VNull
          else VNumber (width / height)
      | _ => VNull
      end
  | _ => VNull
  end.

(** [getElement(selector)] is the page's lookup: callers receive its result,
    [None] when nothing is found, as an [option node]. *)

Definition calculateScale
  (containerWidth containerHeight contentWidth contentHeight : number)
  (cover : bool) : number :=
  let widthRatio := containerWidth / contentWidth in
  let heightRatio := containerHeight / contentHeight in
  if cover then Math_max widthRatio heightRatio
  else Math_min widthRatio heightRatio.

(** examples/dist/fitscreen.esm.js, the build of the helpers the
    independent-factor [Scaler] imports *)
Record NonProportionalScale := { scaleX : number; scaleY : number }.

Definition calculateNonProportionalScale
  (containerWidth containerHeight contentWidth contentHeight : number)
  : NonProportionalScale :=
  {| scaleX := containerWidth / contentWidth;
     scaleY := containerHeight / contentHeight |}.

Record Bounds := { bounds_right : number; bounds_bottom : number }.

Definition detectElementSize (element : option Element) : Size :=
  match element with
  | None => {| width := Fin 0; height := Fin 0 |}
  | Some element =>
      let width_ := parseFloat (computedWidth element) in
      let height_ := parseFloat (computedHeight element) in
      if negb (isNaN width_) && negb (isNaN height_)
         && (width_ >? Fin 0) && (height_ >? Fin 0)
      then {| width := width_; height := height_ |}
      else
        let inlineWidth := styleWidth element in
        let inlineHeight := styleHeight element in
        let inline :=
          if to_boolean (VString inlineWidth) && to_boolean (VString inlineHeight)
          then
            let w := parseFloat inlineWidth in
            let h := parseFloat inlineHeight in
            if negb (isNaN w) && negb (isNaN h) && (w >? Fin 0) && (h >? Fin 0)
            then Some {| width := w; height := h |}
            else None
          else None in
        match inline with
        | Some size => size
        | None =>
            let childrenBounds :=
              fold_left
                (fun bounds rect =>
                   {| bounds_right := Math_max (bounds_right bounds) (DOMRect.right rect);
                      bounds_bottom := Math_max (bounds_bottom bounds) (DOMRect.bottom rect) |})
                (children element)
                {| bounds_right := Fin 0; bounds_bottom := Fin 0 |} in
            let parentRect := boundingClientRect element in
            {| width := Math_max width_ (bounds_right childrenBounds - DOMRect.left parentRect);
               height := Math_max height_ (bounds_bottom childrenBounds - DOMRect.top parentRect) |}
        end
  end.

End Helpers.


(* ================================================================== *)
(** ** src/utils/helpers.js, the scale calculator on binary64 *)
(* ================================================================== *)

Module Binary64.

Local Open Scope float_scope.

(** [Math.max(a, b)] and [Math.min(a, b)]: NaN if either argument is, and
    [-0] below [+0] *)
Definition Math_max (a b : float) : float :=
  if PrimFloat.is_nan a || PrimFloat.is_nan b then nan
  else if PrimFloat.ltb a b then b
  else if PrimFloat.ltb b a then a
  else if PrimFloat.get_sign a then b else a.

Definition Math_min (a b : float) : float :=
  if PrimFloat.is_nan a || PrimFloat.is_nan b then nan
  else if PrimFloat.ltb a b then a
  else if PrimFloat.ltb b a then b
  else if PrimFloat.get_sign a then a else b.

Definition calculateScale
  (containerWidth containerHeight contentWidth contentHeight : float)
  (cover : bool) : float :=
  let widthRatio := containerWidth / contentWidth in
  let heightRatio := containerHeight / contentHeight in
  if cover then Math_max widthRatio heightRatio
  else Math_min widthRatio heightRatio.

End Binary64.

(* ================================================================== *)
(** ** Configuration, effects *)
(* ================================================================== *)

(** The recognised options.  A numeric option is [None] when it is not
    given.  [aspectRatio] and [mode] are plain values: the code inspects
    their type.  A callback option is [true] when
    [typeof options.onX === 'function']; the callbacks are user code and are
    taken not to call back into the instance. *)
Record Options := {
  designWidth : option number;
  designHeight : option number;
  aspectRatio : value;
  mode : value;
  autoDetect : bool;
  detectedWidth : option number;
  detectedHeight : option number;
  onResize : bool;
  onModeChange : bool
}.

Definition emptyOptions : Options :=
  {| designWidth := None; designHeight := None; aspectRatio := VUndefined;
     mode := VUndefined; autoDetect := false;
     detectedWidth := None; detectedHeight := None;
     onResize := false; onModeChange := false |}.

Inductive event : Type :=
| ApplyProportionalMode (container content : node) (scale : number)
| ApplyFullscreenMode (container content : node) (scale : number)
    (scaleXY : option (number * number))
| OnResize (containerWidth containerHeight : number) (scale : number)
    (independent : option (number * number))
| OnModeChange (mode : value)
| ConsoleError
| AddResizeListener
| RemoveResizeListener.

(** A computation that returns a value and the calls it made, in order. *)
Definition Traced (A : Type) : Type := (A * list event)%type.

Definition ret {A : Type} (a : A) : Traced A := (a, []).

Definition bind {A B : Type} (m : Traced A) (k : A -> Traced B) : Traced B :=
  let '(a, t1) := m in
  let '(b, t2) := k a in
  (b, t1 ++ t2).

Definition emit (e : event) : Traced unit := (tt, [e]).

Definition when (b : bool) (m : Traced unit) : Traced unit :=
  if b then m else ret tt.

Notation "x <- m ;; k" := (bind m (fun x => k))
  (at level 61, m at next level, right associativity).
Notation "m ;;; k" := (bind m (fun _ => k))
  (at level 61, right associativity).

(* ================================================================== *)
(** ** src/core/modes.js *)
(* ================================================================== *)

Module Modes.

Local Open Scope string_scope.

Definition PROPORTIONAL : string := "proportional".
Definition FULLSCREEN : string := "fullscreen".

(** [Object.values(MODES)] *)
Definition MODES_values : list string := [PROPORTIONAL; FULLSCREEN].

(** [array.includes(x)] on strings *)
Definition includes (l : list string) (x : string) : bool :=
  existsb (String.eqb x) l.

Definition validateMode (mode : value) : string :=
  if negb (to_boolean mode) then PROPORTIONAL
  else match mode with
  | VString mode =>
      let normalizedMode := toLowerCase mode in
      if includes MODES_values normalizedMode then normalizedMode else PROPORTIONAL
  | _ => PROPORTIONAL
  end.

(** [applyProportionalMode] and [applyFullscreenMode] only write styles: a
    call is the event of the same name. *)

End Modes.

(* ================================================================== *)
(** ** src/core/detector.js *)
(* ================================================================== *)

Module Detector.

Local Open Scope js_scope.

Definition DEFAULT_DESIGN_WIDTH : number := of_Z 1920.
Definition DEFAULT_DESIGN_HEIGHT : number := of_Z 1080.

Definition detectScreenSize (window : Window) : Size :=
  {| width := of_Z (innerWidth window); height := of_Z (innerHeight window) |}.

(** [x && ...] on an optional number: present and truthy *)
Definition given (x : option number) : bool :=
  match x with Some n => truthy n | None => false end.

(** the number an optional number is read as by [isNaN] and [>] *)
Definition to_number (x : option number) : number :=
  match x with Some n => n | None => NaN end.

(** The function is a chain of guarded early returns; each guarded block is
    one definition below, [None] when control falls through it. *)

(** [if (designWidth && designHeight && !isNaN(..) && !isNaN(..) && .. > 0 && .. > 0)] *)
Definition fromDesignSize (options : Options) : option Size :=
  if given (designWidth options) && given (designHeight options)
     && negb (isNaN (to_number (designWidth options)))
     && negb (isNaN (to_number (designHeight options)))
     && (to_number (designWidth options) >? Fin 0)
     && (to_number (designHeight options) >? Fin 0)
  then Some {| width := to_number (designWidth options);
               height := to_number (designHeight options) |}
  else None.

(** [typeof aspectRatio === 'number'] *)
Definition as_number (v : value) : option number :=
  match v with VNumber n => Some n | _ => None end.

(** [if (aspectRatio && typeof aspectRatio === 'number' && aspectRatio > 0)] *)
Definition fromAspectRatio (window : Window) (options : Options)
  (container : option Element) : option Size :=
  match as_number (aspectRatio options) with
  | Some ratio =>
      if to_boolean (aspectRatio options) && (ratio >? Fin 0) then
        let containerSize :=
          match container with
          | Some c => {| width := of_Z (offsetWidth c); height := of_Z (offsetHeight c) |}
          | None => detectScreenSize window
          end in
        if width containerSize / height containerSize >? ratio
        then Some {| width := Math_round (height containerSize * ratio);
                     height := height containerSize |}
        else Some {| width := width containerSize;
                     height := Math_round (width containerSize / ratio) |}
      else None
  | None => None
  end.

(** [if (detectedWidth && detectedHeight && detectedWidth > 0 && detectedHeight > 0)] *)
Definition fromDetected (options : Options) : option Size :=
  if given (detectedWidth options) && given (detectedHeight options)
     && (to_number (detectedWidth options) >? Fin 0)
     && (to_number (detectedHeight options) >? Fin 0)
  then Some {| width := to_number (detectedWidth options);
               height := to_number (detectedHeight options) |}
  else None.

(** [if (autoDetect && content)] *)
Definition fromAutoDetect (options : Options) (content : option Element)
  : option Size :=
  if autoDetect options then
    match content with
    | Some _ =>
        let contentSize := Helpers.detectElementSize content in
        if (width contentSize >? Fin 0) && (height contentSize >? Fin 0)
        then Some contentSize else None
    | None => None
    end
  else None.

(** [if (container)] *)
Definition fromContainer (container : option Element) : option Size :=
  match container with
  | Some c =>
      let containerSize :=
        {| width := of_Z (offsetWidth c); height := of_Z (offsetHeight c) |} in
      if (width containerSize >? Fin 0) && (height containerSize >? Fin 0)
      then Some containerSize else None
  | None => None
  end.

Definition DEFAULT_DESIGN : Size :=
  {| width := DEFAULT_DESIGN_WIDTH; height := DEFAULT_DESIGN_HEIGHT |}.

(** [a] if it returned, else go on with [b] *)
Definition or_next {A : Type} (a : option A) (b : option A) : option A :=
  match a with Some _ => a | None => b end.

Definition determineDesignSize (window : Window) (options : Options)
  (container content : option Element) : Size :=
  match
    or_next (fromDesignSize options)
   (or_next (fromAspectRatio window options container)
   (or_next (fromDetected options)
   (or_next (fromAutoDetect options content)
            (fromContainer container))))
  with
  | Some size => size
  | None => DEFAULT_DESIGN
  end.

End Detector.

(* ================================================================== *)
(** ** src/core/scaler.js, independent X/Y factors *)
(* ================================================================== *)

Module Scaler.

Import Modes.
Local Open Scope js_scope.

Record t := {
  options : Options;
  container : option node;
  content : option node;
  designSize : Size;
  currentScale : number;
  currentScaleX : number;
  currentScaleY : number;
  currentMode : value;
  isInitialized : bool
}.

(** [options.mode || MODES.PROPORTIONAL] *)
Definition constructor (options : Options) : t :=
  {| options := options;
     container := None;
     content := None;
     designSize := {| width := Fin 0; height := Fin 0 |};
     currentScale := Fin 1;
     currentScaleX := Fin 1;
     currentScaleY := Fin 1;
     currentMode := if to_boolean (mode options) then mode options
                    else VString PROPORTIONAL;
     isInitialized := false |}.

(** Field assignments [this.f = v] *)
Definition set_elements (this : t) (c e : option node) : t :=
  {| options := options this; container := c; content := e;
     designSize := designSize this; currentScale := currentScale this;
     currentScaleX := currentScaleX this; currentScaleY := currentScaleY this;
     currentMode := currentMode this; isInitialized := isInitialized this |}.

Definition set_designSize (this : t) (d : Size) : t :=
  {| options := options this; container := container this; content := content this;
     designSize := d; currentScale := currentScale this;
     currentScaleX := currentScaleX this; currentScaleY := currentScaleY this;
     currentMode := currentMode this; isInitialized := isInitialized this |}.

Definition set_currentScale (this : t) (x : number) : t :=
  {| options := options this; container := container this; content := content this;
     designSize := designSize this; currentScale := x;
     currentScaleX := currentScaleX this; currentScaleY := currentScaleY this;
     currentMode := currentMode this; isInitialized := isInitialized this |}.

Definition set_currentScaleXY (this : t) (x y : number) : t :=
  {| options := options this; container := container this; content := content this;
     designSize := designSize this; currentScale := currentScale this;
     currentScaleX := x; currentScaleY := y;
     currentMode := currentMode this; isInitialized := isInitialized this |}.

Definition set_currentMode (this : t) (m : value) : t :=
  {| options := options this; container := container this; content := content this;
     designSize := designSize this; currentScale := currentScale this;
     currentScaleX := currentScaleX this; currentScaleY := currentScaleY this;
     currentMode := m; isInitialized := isInitialized this |}.

Definition set_isInitialized (this : t) (b : bool) : t :=
  {| options := options this; container := container this; content := content this;
     designSize := designSize this; currentScale := currentScale this;
     currentScaleX := currentScaleX this; currentScaleY := currentScaleY this;
     currentMode := currentMode this; isInitialized := b |}.

Definition setElements (this : t) (container content : node) : t :=
  set_elements this (Some container) (Some content).

Definition getMode (this : t) : value := currentMode this.

Definition getScale (this : t) : number := currentScale this.

(** [this.currentMode === MODES.FULLSCREEN] *)
Definition isFullscreen (this : t) : bool :=
  value_strict_eq (currentMode this) (VString FULLSCREEN).

(** Returns the scale; in fullscreen mode it also stores the two independent
    factors. *)
Definition calculateCurrentScale (page : Page) (this : t) : t * number :=
  match container this with
  | None => (this, Fin 1)
  | Some c =>
      if negb (truthy (width (designSize this)))
         || negb (truthy (height (designSize this)))
      then (this, Fin 1)
      else
        let containerWidth := of_Z (offsetWidth (element page c)) in
        let containerHeight := of_Z (offsetHeight (element page c)) in
        let this1 :=
          if isFullscreen this then
            let nonProportionalScale :=
              Helpers.calculateNonProportionalScale containerWidth containerHeight
                (width (designSize this)) (height (designSize this)) in
            set_currentScaleXY this
              (Helpers.scaleX nonProportionalScale)
              (Helpers.scaleY nonProportionalScale)
          else this in
        (this1,
         Helpers.calculateScale containerWidth containerHeight
           (width (designSize this1)) (height (designSize this1))
           (isFullscreen this1))
  end.

Definition applyScaling (page : Page) (this : t) : Traced t :=
  match container this, content this with
  | Some c, Some e =>
      let '(this1, scale) := calculateCurrentScale page this in
      let this2 := set_currentScale this1 scale in
      (if isFullscreen this2
       then emit (ApplyFullscreenMode c e (currentScale this2)
                    (Some (currentScaleX this2, currentScaleY this2)))
       else emit (ApplyProportionalMode c e (currentScale this2))) ;;;
      when (onResize (options this2))
        (emit (OnResize (of_Z (offsetWidth (element page c)))
                 (of_Z (offsetHeight (element page c)))
                 (currentScale this2)
                 (if isFullscreen this2
                  then Some (currentScaleX this2, currentScaleY this2)
                  else None))) ;;;
      ret this2
  | _, _ => ret this
  end.

Definition refresh (page : Page) (this : t) : Traced t :=
  match container this, content this with
  | Some _, Some _ =>
      this1 <- applyScaling page this ;;
      ret (set_isInitialized this1 true)
  | _, _ => ret this
  end.

Definition setDesignSize (page : Page) (this : t) (width height : number)
  : Traced t :=
  if (width >? Fin 0) && (height >? Fin 0)
  then refresh page (set_designSize this {| width := width; height := height |})
  else ret this.

(** The method returns [this.currentMode], a field of the state returned. *)
Definition setMode (page : Page) (this : t) (mode : value) : Traced t :=
  let previousMode := currentMode this in
  let this1 := set_currentMode this mode in
  if negb (value_strict_eq previousMode (currentMode this1)) && isInitialized this1
  then
    this2 <- refresh page this1 ;;
    when (onModeChange (options this2)) (emit (OnModeChange (currentMode this2))) ;;;
    ret this2
  else ret this1.

End Scaler.

(* ================================================================== *)
(** ** src/core/scaler.js, one scalar factor *)
(* ================================================================== *)

Module ScalerUniform.

Import Modes.
Local Open Scope js_scope.

Record t := {
  options : Options;
  container : option node;
  content : option node;
  designSize : Size;
  currentScale : number;
  currentMode : value;
  isInitialized : bool
}.

Definition constructor (options : Options) : t :=
  {| options := options;
     container := None;
     content := None;
     designSize := {| width := Fin 0; height := Fin 0 |};
     currentScale := Fin 1;
     currentMode := if to_boolean (mode options) then mode options
                    else VString PROPORTIONAL;
     isInitialized := false |}.

Definition set_elements (this : t) (c e : option node) : t :=
  {| options := options this; container := c; content := e;
     designSize := designSize this; currentScale := currentScale this;
     currentMode := currentMode this; isInitialized := isInitialized this |}.

Definition set_designSize (this : t) (d : Size) : t :=
  {| options := options this; container := container this; content := content this;
     designSize := d; currentScale := currentScale this;
     currentMode := currentMode this; isInitialized := isInitialized this |}.

Definition set_currentScale (this : t) (x : number) : t :=
  {| options := options this; container := container this; content := content this;
     designSize := designSize this; currentScale := x;
     currentMode := currentMode this; isInitialized := isInitialized this |}.

Definition set_currentMode (this : t) (m : value) : t :=
  {| options := options this; container := container this; content := content this;
     designSize := designSize this; currentScale := currentScale this;
     currentMode := m; isInitialized := isInitialized this |}.

Definition set_isInitialized (this : t) (b : bool) : t :=
  {| options := options this; container := container this; content := content this;
     designSize := designSize this; currentScale := currentScale this;
     currentMode := currentMode this; isInitialized := b |}.

Definition setElements (this : t) (container content : node) : t :=
  set_elements this (Some container) (Some content).

Definition isFullscreen (this : t) : bool :=
  value_strict_eq (currentMode this) (VString FULLSCREEN).

Definition calculateCurrentScale (page : Page) (this : t) : number :=
  match container this with
  | None => Fin 1
  | Some c =>
      if negb (truthy (width (designSize this)))
         || negb (truthy (height (designSize this)))
      then Fin 1
      else
        let containerWidth := of_Z (offsetWidth (element page c)) in
        let containerHeight := of_Z (offsetHeight (element page c)) in
        Helpers.calculateScale containerWidth containerHeight
          (width (designSize this)) (height (designSize this))
          (isFullscreen this)
  end.

Definition applyScaling (page : Page) (this : t) : Traced t :=
  match container this, content this with
  | Some c, Some e =>
      let this1 := set_currentScale this (calculateCurrentScale page this) in
      (if isFullscreen this1
       then emit (ApplyFullscreenMode c e (currentScale this1) None)
       else emit (ApplyProportionalMode c e (currentScale this1))) ;;;
      when (onResize (options this1))
        (emit (OnResize (of_Z (offsetWidth (element page c)))
                 (of_Z (offsetHeight (element page c)))
                 (currentScale this1) None)) ;;;
      ret this1
  | _, _ => ret this
  end.

Definition refresh (page : Page) (this : t) : Traced t :=
  match container this, content this with
  | Some _, Some _ =>
      this1 <- applyScaling page this ;;
      ret (set_isInitialized this1 true)
  | _, _ => ret this
  end.

Definition setDesignSize (page : Page) (this : t) (width height : number)
  : Traced t :=
  if (width >? Fin 0) && (height >? Fin 0)
  then refresh page (set_designSize this {| width := width; height := height |})
  else ret this.

Definition setMode (page : Page) (this : t) (mode : value) : Traced t :=
  let previousMode := currentMode this in
  let this1 := set_currentMode this mode in
  if negb (value_strict_eq previousMode (currentMode this1)) && isInitialized this1
  then
    this2 <- refresh page this1 ;;
    when (onModeChange (options this2)) (emit (OnModeChange (currentMode this2))) ;;;
    ret this2
  else ret this1.

End ScalerUniform.

(* ================================================================== *)
(** ** src/index.js, the orchestrator *)
(* ================================================================== *)

Definition set_aspectRatio (o : Options) (v : value) : Options :=
  {| designWidth := designWidth o; designHeight := designHeight o;
     aspectRatio := v; mode := mode o; autoDetect := autoDetect o;
     detectedWidth := detectedWidth o; detectedHeight := detectedHeight o;
     onResize := onResize o; onModeChange := onModeChange o |}.

Definition set_mode (o : Options) (v : value) : Options :=
  {| designWidth := designWidth o; designHeight := designHeight o;
     aspectRatio := aspectRatio o; mode := v; autoDetect := autoDetect o;
     detectedWidth := detectedWidth o; detectedHeight := detectedHeight o;
     onResize := onResize o; onModeChange := onModeChange o |}.

Definition set_detected (o : Options) (w h : number) : Options :=
  {| designWidth := designWidth o; designHeight := designHeight o;
     aspectRatio := aspectRatio o; mode := mode o; autoDetect := autoDetect o;
     detectedWidth := Some w; detectedHeight := Some h;
     onResize := onResize o; onModeChange := onModeChange o |}.

(** The calls a client, or the window, makes on an instance.  [ApplyTo]
    carries what the page lookups of [applyTo] return: the container
    [getElement] resolved ([None] when there is none), the container's first
    child when it has one, and the [.fitscreen-content] wrapper found or
    created in the container.  [ResizeHandler] is the debounced resize
    handler firing. *)
Inductive call : Type :=
| ApplyTo (container originalContent : option node) (content : node)
| SetMode (mode : value)
| SetDesignSize (width height : number)
| Refresh
| Destroy
| ResizeHandler.

Module FitScreenJS.

Import Modes.
Local Open Scope js_scope.

Record t := {
  options : Options;
  scaler : Scaler.t;
  isInitialized : bool;
  isDestroyed : bool
}.

Definition set_scaler (this : t) (s : Scaler.t) : t :=
  {| options := options this; scaler := s;
     isInitialized := isInitialized this; isDestroyed := isDestroyed this |}.

Definition set_isInitialized (this : t) (b : bool) : t :=
  {| options := options this; scaler := scaler this;
     isInitialized := b; isDestroyed := isDestroyed this |}.

Definition set_isDestroyed (this : t) (b : bool) : t :=
  {| options := options this; scaler := scaler this;
     isInitialized := isInitialized this; isDestroyed := b |}.

Definition _normalizeOptions (options : Options) : Options :=
  match aspectRatio options with
  | VString _ =>
      if to_boolean (aspectRatio options)
      then set_aspectRatio options (Helpers.parseAspectRatio (aspectRatio options))
      else options
  | _ => options
  end.

(** With [options.container] the constructor goes on with [applyTo]: that
    call is then the first of the calls made on the instance. *)
Definition constructor (options : Options) : t :=
  let options := _normalizeOptions options in
  {| options := options;
     scaler := Scaler.constructor (set_mode options (VString (validateMode (mode options))));
     isInitialized := false;
     isDestroyed := false |}.

Definition refresh (page : Page) (this : t) : Traced t :=
  s <- Scaler.refresh page (scaler this) ;;
  ret (set_scaler this s).

Definition applyTo (page : Page) (this : t) (container : option node)
  (content : node) : Traced t :=
  match container with
  | None => emit ConsoleError ;;; ret this
  | Some container =>
      let s1 := Scaler.setElements (scaler this) container content in
      let designSize :=
        Detector.determineDesignSize (window page) (options this)
          (Some (element page container)) (Some (element page content)) in
      s2 <- Scaler.setDesignSize page s1 (width designSize) (height designSize) ;;
      let this1 := set_scaler this s2 in
      this2 <- (if negb (isInitialized this1)
                then emit AddResizeListener ;;; ret (set_isInitialized this1 true)
                else ret this1) ;;
      refresh page this2
  end.

Definition setMode (page : Page) (this : t) (mode : value) : Traced t :=
  let validMode := validateMode mode in
  s <- Scaler.setMode page (scaler this) (VString validMode) ;;
  ret (set_scaler this s).

Definition getMode (this : t) : value := Scaler.getMode (scaler this).

Definition getScale (this : t) : number := Scaler.getScale (scaler this).

Definition setDesignSize (page : Page) (this : t) (width height : number)
  : Traced t :=
  s <- Scaler.setDesignSize page (scaler this) width height ;;
  ret (set_scaler this s).

Definition destroy (this : t) : Traced t :=
  if isInitialized this && negb (isDestroyed this)
  then emit RemoveResizeListener ;;; ret (set_isDestroyed this true)
  else ret this.

(** The body [debounce] runs once the resize events have settled. *)
Definition _resizeHandler (page : Page) (this : t) : Traced t :=
  if negb (isDestroyed this) then refresh page this else ret this.

(** One call, on the page as it is at that time.  The handler exists only
    once [applyTo] has created it. *)
Definition step (page : Page) (this : t) (c : call) : Traced t :=
  match c with
  | ApplyTo container _ content => applyTo page this container content
  | SetMode mode => setMode page this mode
  | SetDesignSize width height => setDesignSize page this width height
  | Refresh => refresh page this
  | Destroy => destroy this
  | ResizeHandler =>
      if isInitialized this then _resizeHandler page this else ret this
  end.

Fixpoint run (calls : list (Page * call)) (this : t) : Traced t :=
  match calls with
  | [] => ret this
  | (page, c) :: rest =>
      this1 <- step page this c ;;
      run rest this1
  end.

End FitScreenJS.

(* ================================================================== *)
(** ** src/index.js, the revision that records the detected size *)
(* ================================================================== *)

(** This revision also writes inline styles and [dataset] entries of the
    container and the wrapper in [applyTo] and [setMode]; those writes change
    no field of the instance and are left to the page. *)
Module FitScreenJSDetect.

Import Modes.
Local Open Scope js_scope.

Record t := {
  options : Options;
  scaler : Scaler.t;
  isInitialized : bool;
  isDestroyed : bool
}.

Definition set_options (this : t) (o : Options) : t :=
  {| options := o; scaler := scaler this;
     isInitialized := isInitialized this; isDestroyed := isDestroyed this |}.

Definition set_scaler (this : t) (s : Scaler.t) : t :=
  {| options := options this; scaler := s;
     isInitialized := isInitialized this; isDestroyed := isDestroyed this |}.

Definition set_isInitialized (this : t) (b : bool) : t :=
  {| options := options this; scaler := scaler this;
     isInitialized := b; isDestroyed := isDestroyed this |}.

Definition set_isDestroyed (this : t) (b : bool) : t :=
  {| options := options this; scaler := scaler this;
     isInitialized := isInitialized this; isDestroyed := b |}.

Definition _normalizeOptions (options : Options) : Options :=
  match aspectRatio options with
  | VString _ =>
      if to_boolean (aspectRatio options)
      then set_aspectRatio options (Helpers.parseAspectRatio (aspectRatio options))
      else options
  | _ => options
  end.

Definition constructor (options : Options) : t :=
  let options := _normalizeOptions options in
  {| options := options;
     scaler := Scaler.constructor (set_mode options (VString (validateMode (mode options))));
     isInitialized := false;
     isDestroyed := false |}.

Definition refresh (page : Page) (this : t) : Traced t :=
  s <- Scaler.refresh page (scaler this) ;;
  ret (set_scaler this s).

(** [originalSize], from the container's first child *)
Definition originalSize (originalContent : option Element) : Size :=
  match originalContent with
  | None => {| width := Fin 0; height := Fin 0 |}
  | Some oc =>
      let w := or_else (parseFloat (computedWidth oc)) (of_Z (offsetWidth oc)) in
      let h := or_else (parseFloat (computedHeight oc)) (of_Z (offsetHeight oc)) in
      if to_boolean (VString (styleWidth oc)) && to_boolean (VString (styleHeight oc))
      then {| width := or_else (parseFloat (styleWidth oc)) w;
              height := or_else (parseFloat (styleHeight oc)) h |}
      else {| width := w; height := h |}
  end.

Definition applyTo (page : Page) (this : t) (container originalContent : option node)
  (content : node) : Traced t :=
  match container with
  | None => emit ConsoleError ;;; ret this
  | Some container =>
      let original := originalSize (option_map (element page) originalContent) in
      let this0 :=
        set_options this (set_detected (options this) (width original) (height original)) in
      let s1 := Scaler.setElements (scaler this0) container content in
      let designSize :=
        Detector.determineDesignSize (window page) (options this0)
          (Some (element page container)) (Some (element page content)) in
      s2 <- Scaler.setDesignSize page s1 (width designSize) (height designSize) ;;
      let this1 := set_scaler this0 s2 in
      this2 <- (if negb (isInitialized this1)
                then emit AddResizeListener ;;; ret (set_isInitialized this1 true)
                else ret this1) ;;
      refresh page this2
  end.

Definition getMode (this : t) : value := Scaler.getMode (scaler this).

Definition setMode (page : Page) (this : t) (mode : value) : Traced t :=
  let validMode := validateMode mode in
  s <- Scaler.setMode page (scaler this) (VString validMode) ;;
  ret (set_scaler this s).

Definition setDesignSize (page : Page) (this : t) (width height : number)
  : Traced t :=
  s <- Scaler.setDesignSize page (scaler this) width height ;;
  ret (set_scaler this s).

Definition destroy (this : t) : Traced t :=
  if isInitialized this && negb (isDestroyed this)
  then emit RemoveResizeListener ;;; ret (set_isDestroyed this true)
  else ret this.

Definition _resizeHandler (page : Page) (this : t) : Traced t :=
  if negb (isDestroyed this) then refresh page this else ret this.

Definition step (page : Page) (this : t) (c : call) : Traced t :=
  match c with
  | ApplyTo container originalContent content =>
      applyTo page this container originalContent content
  | SetMode mode => setMode page this mode
  | SetDesignSize width height => setDesignSize page this width height
  | Refresh => refresh page this
  | Destroy => destroy this
  | ResizeHandler =>
      if isInitialized this then _resizeHandler page this else ret this
  end.

Fixpoint run (calls : list (Page * call)) (this : t) : Traced t :=
  match calls with
  | [] => ret this
  | (page, c) :: rest =>
      this1 <- step page this c ;;
      run rest this1
  end.

End FitScreenJSDetect.

(* ================================================================== *)
(** ** Vocabulary of the statements *)
(* ================================================================== *)

(** How many [:] a string holds. *)
Fixpoint count_colons (s : string) : nat :=
  match s with
  | EmptyString => O
  | String c r => (if Ascii.eqb c ":"%char then 1 else 0) + count_colons r
  end.

Definition is_lower_letter (c : ascii) : bool :=
  let n := N_of_ascii c in (97 <=? n)%N && (n <=? 122)%N.

Definition upper_char (c : ascii) : ascii :=
  if is_lower_letter c then ascii_of_N (N_of_ascii c - 32) else c.

(** [case_variant s t]: [s] is [t] with some of its lower-case letters
    written in upper case. *)
Inductive case_variant : string -> string -> Prop :=
| cv_empty : case_variant EmptyString EmptyString
| cv_same (c : ascii) (s t : string) :
    case_variant s t -> case_variant (String c s) (String c t)
| cv_upper (c : ascii) (s t : string) :
    is_lower_letter c = true ->
    case_variant s t -> case_variant (String (upper_char c) s) (String c t).

(** A size the resolver counts as usable: both dimensions [> 0]. *)
Definition positive_size (s : Size) : bool :=
  gt (width s) (Fin 0) && gt (height s) (Fin 0).

(** An optional dimension that is present and [> 0] (hence not NaN). *)
Definition valid_dimension (x : option number) : bool :=
  match x with Some n => gt n (Fin 0) | None => false end.

(** The viewport the aspect-ratio source measures against: the container's
    box, the window's when no container is bound. *)
Definition viewport_size (window : Window) (container : option Element) : Size :=
  match container with
  | Some c => {| width := of_Z (offsetWidth c); height := of_Z (offsetHeight c) |}
  | None => {| width := of_Z (innerWidth window); height := of_Z (innerHeight window) |}
  end.

(** The size the aspect-ratio source derives, in the words of the
    specification: when the viewport is wider than the ratio the height is
    the limiting dimension, otherwise the width is. *)
Definition limited_size (viewport : Size) (ratio : number) : Size :=
  if gt (div (width viewport) (height viewport)) ratio
  then {| width := Math_round (mul (height viewport) ratio);
          height := height viewport |}
  else {| width := width viewport;
          height := Math_round (div (width viewport) ratio) |}.

(** Each source of the resolver being absent or unusable. *)
Definition no_explicit (o : Options) : Prop :=
  valid_dimension (designWidth o) && valid_dimension (designHeight o) = false.

Definition no_ratio (o : Options) : Prop :=
  forall q : number, aspectRatio o = VNumber q -> gt q (Fin 0) = false.

Definition no_detected (o : Options) : Prop :=
  valid_dimension (detectedWidth o) && valid_dimension (detectedHeight o) = false.

Definition no_measure (o : Options) (content : option Element) : Prop :=
  autoDetect o = false \/ content = None
  \/ positive_size (Helpers.detectElementSize content) = false.

Definition no_container (container : option Element) : Prop :=
  match container with
  | None => True
  | Some c => (offsetWidth c <= 0)%Z \/ (offsetHeight c <= 0)%Z
  end.

(** How many times a trace deregisters, or registers, the resize listener. *)
Definition is_removal (e : event) : bool :=
  match e with RemoveResizeListener => true | _ => false end.

Definition is_registration (e : event) : bool :=
  match e with AddResizeListener => true | _ => false end.

Definition removals (tr : list event) : nat := List.length (filter is_removal tr).

Definition registrations (tr : list event) : nat :=
  List.length (filter is_registration tr).

(** A page whose window and every element are [w] wide and [h] high, with
    no style set and no child. *)
Definition uniform_page (w h : Z) : Page :=
  {| window := {| innerWidth := w; innerHeight := h |};
     element := fun _ =>
       {| offsetWidth := w; offsetHeight := h;
          computedWidth := ""; computedHeight := "";
          styleWidth := ""; styleHeight := "";
          boundingClientRect :=
            {| DOMRect.left := Fin 0; DOMRect.top := Fin 0;
               DOMRect.right := Fin 0; DOMRect.bottom := Fin 0 |};
          children := [] |} |}.


(** Options with both callbacks set. *)
Definition callbackOptions : Options :=
  {| designWidth := None; designHeight := None; aspectRatio := VUndefined;
     mode := VUndefined; autoDetect := false;
     detectedWidth := None; detectedHeight := None;
     onResize := true; onModeChange := true |}.

(* ================================================================== *)
(** ** Vocabulary of the further properties *)
(* ================================================================== *)

(** A number that is neither NaN nor an infinity. *)
Definition is_finite (n : number) : bool :=
  match n with Fin _ => true | _ => false end.

(** The design size of a scaler nobody has set yet. *)
Definition unset_size : Size := {| width := Fin 0; height := Fin 0 |}.

(** What the revision of the scaler with one scalar factor keeps of an
    instance of the revision with independent factors, and of a call it
    makes: everything but the independent factors. *)
Definition forget (s : Scaler.t) : ScalerUniform.t :=
  {| ScalerUniform.options := Scaler.options s;
     ScalerUniform.container := Scaler.container s;
     ScalerUniform.content := Scaler.content s;
     ScalerUniform.designSize := Scaler.designSize s;
     ScalerUniform.currentScale := Scaler.currentScale s;
     ScalerUniform.currentMode := Scaler.currentMode s;
     ScalerUniform.isInitialized := Scaler.isInitialized s |}.

Definition erase (e : event) : event :=
  match e with
  | ApplyFullscreenMode c n s _ => ApplyFullscreenMode c n s None
  | OnResize w h s _ => OnResize w h s None
  | _ => e
  end.

(** What every scaler an orchestrator holds satisfies: a scale that is not
    NaN, a design size that is either still unset or positive in both
    dimensions, and one of the two modes. *)
Definition scaler_ok (s : Scaler.t) : Prop :=
  isNaN (Scaler.currentScale s) = false
  /\ (Scaler.designSize s = unset_size \/ positive_size (Scaler.designSize s) = true)
  /\ (Scaler.currentMode s = VString Modes.PROPORTIONAL
      \/ Scaler.currentMode s = VString Modes.FULLSCREEN).

(** A call that binds no container: anything but an [applyTo] whose
    container is found. *)
Definition binds_nothing (c : call) : bool :=
  match c with
  | ApplyTo (Some _) _ _ => false
  | _ => true
  end.

Definition is_console_error (e : event) : bool :=
  match e with ConsoleError => true | _ => false end.

Definition is_destroy (c : call) : bool :=
  match c with Destroy => true | _ => false end.

(** The debounced resize handler firing once on each of the pages given. *)
Definition resizes (pages : list Page) : list (Page * call) :=
  map (fun page => (page, ResizeHandler)) pages.

(* ================================================================== *)
(** ** src/core/modes.js, the style functions *)
(* ================================================================== *)

(** A style function assigns properties of [container.style],
    [content.style] and, in one revision, of the style of the content's first
    child.  Its result is the list of the assignments it makes, in order, and
    how it completes: a function that reads [container.offsetWidth] when
    [container] is [null] throws a TypeError at that point, the assignments
    made before it standing.  The value assigned is kept in structured form
    where the source builds a string around a number. *)
Module Styles.

Local Open Scope js_scope.
Local Open Scope string_scope.
Local Open Scope list_scope.

(** The options a style function destructures, [VUndefined] when absent. *)
Record StyleOptions := {
  centerContent : value;
  scaleContent : value;
  backgroundColor : value;
  scaleX : value;
  scaleY : value;
  useTransform : value;
  preserveChildStyles : value
}.

(** [{ field = d } = options]: the default applies to [undefined] only *)
Definition or_default (v d : value) : value :=
  match v with VUndefined => d | _ => v end.

Inductive target : Type := Container | Content | FirstChild.

Inductive css : Type :=
| Literal (s : string)               (* a string literal, as written *)
| Given (v : value)                  (* the value of an option, as given *)
| Px (n : number)                    (* [`${n}px`] *)
| ScaleBy (n : number)               (* [`scale(${n})`] *)
| CenteredScaleBy (n : number)       (* [`translate(-50%, -50%) scale(${n})`] *)
| ScaleXY (x y : value).             (* [`scaleX(${x}) scaleY(${y})`] *)

Record write := { on : target; property : string; to : css }.

Inductive completion : Type := Normal | TypeError.

Definition assign (t : target) (p : string) (v : css) : write :=
  {| on := t; property := p; to := v |}.

(** The container block the functions of src/core/modes.js share *)
Definition containerStyles (container : option Element) (backgroundColor : value)
  : list write :=
  match container with
  | Some _ =>
      [assign Container "position" (Literal "relative");
       assign Container "overflow" (Literal "hidden")]
      ++ (if to_boolean backgroundColor
          then [assign Container "backgroundColor" (Given backgroundColor)]
          else [])
  | None => []
  end.

Definition applyProportionalMode (container content : option Element)
  (scale : number) (options : StyleOptions) : list write * completion :=
  let centerContent := or_default (centerContent options) (VBoolean true) in
  let scaleContent := or_default (scaleContent options) (VBoolean true) in
  let backgroundColor := or_default (backgroundColor options) VNull in
  let onContainer := containerStyles container backgroundColor in
  match content with
  | Some content_ =>
      if to_boolean scaleContent then
        let onContent :=
          [assign Content "position" (Literal "absolute");
           assign Content "transformOrigin" (Literal "top left");
           assign Content "transform" (ScaleBy scale)] in
        if to_boolean centerContent then
          let scaledWidth := of_Z (offsetWidth content_) * scale in
          let scaledHeight := of_Z (offsetHeight content_) * scale in
          match container with
          | None => (onContainer ++ onContent, TypeError)
          | Some container_ =>
              let containerWidth := of_Z (offsetWidth container_) in
              let containerHeight := of_Z (offsetHeight container_) in
              let left := Math_max (Fin 0) ((containerWidth - scaledWidth) / Fin 2) in
              let top := Math_max (Fin 0) ((containerHeight - scaledHeight) / Fin 2) in
              (onContainer ++ onContent
               ++ [assign Content "left" (Px left);
                   assign Content "top" (Px top)],
               Normal)
          end
        else (onContainer ++ onContent, Normal)
      else (onContainer, Normal)
  | None => (onContainer, Normal)
  end.

Definition applyFullscreenMode (container content : option Element)
  (scale : number) (options : StyleOptions) : list write * completion :=
  let scaleContent := or_default (scaleContent options) (VBoolean true) in
  let backgroundColor := or_default (backgroundColor options) VNull in
  let onContainer := containerStyles container backgroundColor in
  match content with
  | Some _ =>
      if to_boolean scaleContent then
        (onContainer
         ++ [assign Content "position" (Literal "absolute");
             assign Content "transformOrigin" (Literal "top left");
             assign Content "transform" (ScaleBy scale);
             assign Content "left" (Literal "50%");
             assign Content "top" (Literal "50%");
             assign Content "transform" (CenteredScaleBy scale);
             assign Content "transformOrigin" (Literal "center center")],
         Normal)
      else (onContainer, Normal)
  | None => (onContainer, Normal)
  end.

End Styles.

(** The revision of [applyFullscreenMode] that stretches the content,
    through a transform with the independent factors or through percentage
    sizes.  [backgroundImage] is [firstChild.style.backgroundImage] of the
    content's first child, read only when there is one. *)
Module StylesStretch.

Import Styles.
Local Open Scope js_scope.
Local Open Scope string_scope.
Local Open Scope list_scope.

Definition applyFullscreenMode (container content : option Element)
  (backgroundImage : string) (scale : number) (options : StyleOptions)
  : list write * completion :=
  let scaleContent := or_default (scaleContent options) (VBoolean true) in
  let backgroundColor := or_default (backgroundColor options) VNull in
  let scaleX := or_default (scaleX options) VNull in
  let scaleY := or_default (scaleY options) VNull in
  let useTransform := or_default (useTransform options) (VBoolean true) in
  let preserveChildStyles := or_default (preserveChildStyles options) (VBoolean true) in
  let onContainer :=
    match container with
    | Some _ =>
        [assign Container "position" (Literal "relative");
         assign Container "overflow" (Literal "hidden");
         assign Container "width" (Literal "100%");
         assign Container "height" (Literal "100%")]
        ++ (if to_boolean backgroundColor
            then [assign Container "backgroundColor" (Given backgroundColor)]
            else [])
    | None => []
    end in
  match content with
  | Some content_ =>
      if to_boolean scaleContent then
        let originalWidth := of_Z (offsetWidth content_) in
        let originalHeight := of_Z (offsetHeight content_) in
        match container with
        | None => (onContainer, TypeError)
        | Some _ =>
            let base :=
              [assign Content "position" (Literal "absolute");
               assign Content "top" (Literal "0");
               assign Content "left" (Literal "0");
               assign Content "margin" (Literal "0");
               assign Content "padding" (Literal "0")] in
            let sizing :=
              if to_boolean useTransform
                 && negb (value_strict_eq scaleX VNull)
                 && negb (value_strict_eq scaleY VNull)
              then
                [assign Content "width" (Px originalWidth);
                 assign Content "height" (Px originalHeight);
                 assign Content "transformOrigin" (Literal "top left");
                 assign Content "transform" (ScaleXY scaleX scaleY)]
              else
                [assign Content "width" (Literal "100%");
                 assign Content "height" (Literal "100%");
                 assign Content "transform" (Literal "none")] in
            let onChild :=
              if negb (to_boolean preserveChildStyles)
                 && negb (Nat.eqb (List.length (children content_)) 0)
              then
                [assign FirstChild "width" (Literal "100%");
                 assign FirstChild "height" (Literal "100%")]
                ++ (if to_boolean (VString backgroundImage)
                    then [assign FirstChild "backgroundSize" (Literal "cover")]
                    else [])
              else [] in
            (onContainer ++ base ++ sizing ++ onChild, Normal)
        end
      else (onContainer, Normal)
  | None => (onContainer, Normal)
  end.

End StylesStretch.

(* ================================================================== *)
(** ** src/utils/helpers.js, [debounce] *)
(* ================================================================== *)

(** [debounce(func, wait)] returns a closure over one variable, [timeout].
    The state is that variable together with what the host keeps for the
    closure: the timers it has set and not yet run or cleared, and the host's
    counter of timer ids (the host gives every timer a fresh id).  Time is in
    milliseconds.  A call of the closure clears the timer [timeout] names and
    sets a new one, due [wait] ms later ([setTimeout] takes a negative delay
    as 0), whose callback applies [func] to the arguments of that call.  The
    host runs timers when it gets to them: [runTimers now] runs those due at
    [now], and gives the arguments [func] is applied to, in order.  No other
    code is taken to clear the closure's timers. *)
Module Debounce.

Section Closure.

Variable A : Type.

Record timer := { id : nat; due : Z; args : A }.

Record t := {
  timeout : option nat;
  next_id : nat;
  timers : list timer
}.

Definition debounce (host_next_id : nat) : t :=
  {| timeout := None; next_id := host_next_id; timers := [] |}.

(** [clearTimeout(timeout)]: nothing to clear for [undefined] or for a
    timer that has run *)
Definition clearTimeout (handle : option nat) (l : list timer) : list timer :=
  match handle with
  | None => l
  | Some i => filter (fun tm => negb (Nat.eqb (id tm) i)) l
  end.

(** the closure applied to [a] at time [now] *)
Definition call (wait : Z) (now : Z) (a : A) (this : t) : t :=
  let cleared := clearTimeout (timeout this) (timers this) in
  let handle := next_id this in
  {| timeout := Some handle;
     next_id := S handle;
     timers := cleared ++ [{| id := handle; due := now + Z.max 0 wait; args := a |}] |}.

Definition runTimers (now : Z) (this : t) : t * list A :=
  ({| timeout := timeout this;
      next_id := next_id this;
      timers := filter (fun tm => negb (due tm <=? now)%Z) (timers this) |},
   map args (filter (fun tm => (due tm <=? now)%Z) (timers this))).

Inductive action : Type :=
| Call (now : Z) (a : A)
| RunTimers (now : Z).

(** A history of the closure: the final state and the applications of
    [func], in order. *)
Fixpoint run (wait : Z) (this : t) (history : list action) : t * list A :=
  match history with
  | [] => (this, [])
  | Call now a :: rest => run wait (call wait now a this) rest
  | RunTimers now :: rest =>
      let '(this1, applied) := runTimers now this in
      let '(this2, later) := run wait this1 rest in
      (this2, applied ++ later)
  end.

(** The latest call of a history, [earlier] if it has none. *)
Fixpoint latest_call (earlier : option (Z * A)) (history : list action)
  : option (Z * A) :=
  match history with
  | [] => earlier
  | Call now a :: rest => latest_call (Some (now, a)) rest
  | RunTimers _ :: rest => latest_call earlier rest
  end.

Fixpoint calls (history : list action) : list A :=
  match history with
  | [] => []
  | Call _ a :: rest => a :: calls rest
  | RunTimers _ :: rest => calls rest
  end.

End Closure.

End Debounce.

(** What is pending after a history whose latest call is [latest]: nothing,
    or the one timer of that call, which [timeout] names. *)
Definition pending {A : Type} (wait : Z) (latest : option (Z * A))
  (this : Debounce.t A) : Prop :=
  Debounce.timers this = []
  \/ exists (i : nat) (now : Z) (a : A),
       latest = Some (now, a)
       /\ Debounce.timers this
          = [{| Debounce.id := i; Debounce.due := now + Z.max 0 wait;
                Debounce.args := a |}]
       /\ Debounce.timeout this = Some i.

(** Calls that each come less than [wait] ms after the one before. *)
Fixpoint close_calls {A : Type} (wait : Z) (previous : Z) (l : list (Z * A))
  : Prop :=
  match l with
  | [] => True
  | c :: rest => (fst c < previous + Z.max 0 wait)%Z /\ close_calls wait (fst c) rest
  end.

(** The history of such calls when the host runs the timers before each. *)
Definition burst {A : Type} (l : list (Z * A)) : list (Debounce.action A) :=
  flat_map (fun c => [Debounce.RunTimers A (fst c); Debounce.Call (fst c) (snd c)]) l.

(** The value a property of a target ends with: its last assignment. *)
Fixpoint last_written (ws : list Styles.write) (t : Styles.target) (p : string)
  : option Styles.css :=
  match ws with
  | [] => None
  | w :: rest =>
      match last_written rest t p with
      | Some v => Some v
      | None =>
          if (match Styles.on w, t with
              | Styles.Container, Styles.Container => true
              | Styles.Content, Styles.Content => true
              | Styles.FirstChild, Styles.FirstChild => true
              | _, _ => false
              end) && String.eqb (Styles.property w) p
          then Some (Styles.to w) else None
      end
  end.

Definition on_container (w : Styles.write) : bool :=
  match Styles.on w with Styles.Container => true | _ => false end.

(** An element [w] wide and [h] high, with no style set and no child. *)
Definition box (w h : Z) : Element :=
  {| offsetWidth := w; offsetHeight := h;
     computedWidth := ""; computedHeight := "";
     styleWidth := ""; styleHeight := "";
     boundingClientRect :=
       {| DOMRect.left := Fin 0; DOMRect.top := Fin 0;
          DOMRect.right := Fin 0; DOMRect.bottom := Fin 0 |};
     children := [] |}.

(** Options with nothing given. *)
Definition noStyleOptions : Styles.StyleOptions :=
  {| Styles.centerContent := VUndefined; Styles.scaleContent := VUndefined;
     Styles.backgroundColor := VUndefined; Styles.scaleX := VUndefined;
     Styles.scaleY := VUndefined; Styles.useTransform := VUndefined;
     Styles.preserveChildStyles := VUndefined |}.


Definition contentPrelude (scale : number) : list Styles.write :=
  [Styles.assign Styles.Content "position" (Styles.Literal "absolute");
   Styles.assign Styles.Content "transformOrigin" (Styles.Literal "top left");
   Styles.assign Styles.Content "transform" (Styles.ScaleBy scale)].

(* ================================================================== *)
(** * Properties *)
(* ================================================================== *)

(** ** Numbers *)

Ltac break_match :=
  repeat match goal with
  | |- context [match ?x with _ => _ end] => destruct x eqn:?
  end.

Section NumberFacts.

Local Open Scope Q_scope.

Lemma Qlt_bool_iff (p q : Q) : Qlt_bool p q = true <-> p < q.
Proof.
  unfold Qlt_bool. rewrite negb_true_iff.
  split; intro H.
  - apply Qnot_le_lt. intro L. apply Qle_bool_iff in L. congruence.
  - destruct (Qle_bool q p) eqn:E; [|reflexivity].
    apply Qle_bool_iff in E. exfalso. apply (Qlt_not_le _ _ H E).
Qed.

Lemma Qlt_bool_false_iff (p q : Q) : Qlt_bool p q = false <-> q <= p.
Proof.
  unfold Qlt_bool. rewrite negb_false_iff. apply Qle_bool_iff.
Qed.

Lemma Qeq_bool_nonzero (q : Q) : ~ q == 0 -> Qeq_bool q 0 = false.
Proof.
  intro H. destruct (Qeq_bool q 0) eqn:E; [|reflexivity].
  apply Qeq_bool_iff in E. contradiction.
Qed.

Lemma Qeq_bool_pos (q : Q) : 0 < q -> Qeq_bool q 0 = false.
Proof. intro H. apply Qeq_bool_nonzero. intro E. rewrite E in H. discriminate H. Qed.

Lemma div_Fin (p q : Q) : ~ q == 0 -> div (Fin p) (Fin q) = Fin (p / q).
Proof. intro H. unfold div. now rewrite Qeq_bool_nonzero. Qed.

Lemma gt_Fin (p q : Q) : gt (Fin p) (Fin q) = true <-> q < p.
Proof. apply Qlt_bool_iff. Qed.

Lemma Math_max_Fin (p q : Q) :
  exists r, Math_max (Fin p) (Fin q) = Fin r /\ r == Qmax p q.
Proof.
  unfold Math_max, gt. destruct (Qlt_bool p q) eqn:E.
  - exists q. split; [reflexivity|]. apply Qlt_bool_iff in E.
    symmetry. apply Q.max_r. now apply Qlt_le_weak.
  - exists p. split; [reflexivity|]. apply Qlt_bool_false_iff in E.
    symmetry. now apply Q.max_l.
Qed.

Lemma Math_min_Fin (p q : Q) :
  exists r, Math_min (Fin p) (Fin q) = Fin r /\ r == Qmin p q.
Proof.
  unfold Math_min, gt. destruct (Qlt_bool q p) eqn:E.
  - exists q. split; [reflexivity|]. apply Qlt_bool_iff in E.
    symmetry. apply Q.min_r. now apply Qlt_le_weak.
  - exists p. split; [reflexivity|]. apply Qlt_bool_false_iff in E.
    symmetry. now apply Q.min_l.
Qed.

End NumberFacts.

(** ** The scale calculator *)

Section ScaleCalculator.

Import Helpers.
Local Open Scope Q_scope.

(** C1.  For a content size with positive width and height, [calculateScale]
    is the larger of the two ratios viewport/content when [cover] is true and
    the smaller when it is false.  On the four reference inputs it gives
    1/2, 4/5, 600/900 (within 0.001 of 0.667) and 6/5; evaluated on binary64
    numbers it gives the doubles 0.5, 0.8, the double nearest 600/900 (within
    0.001 of 0.667) and 1.2. *)
Theorem calculateScale_max_min :
  (forall vw vh cw ch : Q, 0 < cw -> 0 < ch ->
     (exists r, calculateScale (Fin vw) (Fin vh) (Fin cw) (Fin ch) true = Fin r
                /\ r == Qmax (vw / cw) (vh / ch))
     /\
     (exists r, calculateScale (Fin vw) (Fin vh) (Fin cw) (Fin ch) false = Fin r
                /\ r == Qmin (vw / cw) (vh / ch)))
  /\ (calculateScale (of_Z 800) (of_Z 600) (of_Z 1600) (of_Z 900) false === Fin (1 # 2))%js
  /\ (calculateScale (of_Z 800) (of_Z 600) (of_Z 1000) (of_Z 500) false === Fin (8 # 10))%js
  /\ (calculateScale (of_Z 800) (of_Z 600) (of_Z 1600) (of_Z 900) true === Fin (600 # 900))%js
  /\ Qabs ((600 # 900) - (667 # 1000)) < 1 # 1000
  /\ (calculateScale (of_Z 800) (of_Z 600) (of_Z 1000) (of_Z 500) true === Fin (12 # 10))%js
  /\ PrimFloat.eqb (Binary64.calculateScale 800 600 1600 900 false) 0.5 = true
  /\ PrimFloat.eqb (Binary64.calculateScale 800 600 1000 500 false)
       0x1.999999999999ap-1 = true
  /\ PrimFloat.eqb (Binary64.calculateScale 800 600 1600 900 true)
       (600 / 900)%float = true
  /\ PrimFloat.ltb
       (PrimFloat.abs (Binary64.calculateScale 800 600 1600 900 true
                       - 0x1.55810624dd2f2p-1)%float)
       0x1.0624dd2f1a9fcp-10 = true
  /\ PrimFloat.eqb (Binary64.calculateScale 800 600 1000 500 true)
       0x1.3333333333333p+0 = true.
Proof.
  split.
  - intros vw vh cw ch Hcw Hch. unfold calculateScale.
    rewrite !div_Fin.
    + split; [apply Math_max_Fin | apply Math_min_Fin].
    + intro E. rewrite E in Hch. discriminate Hch.
    + intro E. rewrite E in Hcw. discriminate Hcw.
  - repeat split; vm_compute; reflexivity.
Qed.

Lemma calculateScale_max_min_witness :
  (exists r, calculateScale (Fin 1024) (Fin 768) (Fin 1920) (Fin 1080) true = Fin r
             /\ r == Qmax (1024 / 1920) (768 / 1080))
  /\
  (exists r, calculateScale (Fin 1024) (Fin 768) (Fin 1920) (Fin 1080) false = Fin r
             /\ r == Qmin (1024 / 1920) (768 / 1080)).
Proof.
  apply (proj1 calculateScale_max_min 1024 768 1920 1080); reflexivity.
Defined.

End ScaleCalculator.

(** ** Parsing the aspect ratio *)

Section AspectRatio.

Import Helpers.
Local Open Scope string_scope.


Lemma split_colon_length (s : string) :
  List.length (split_colon s) = S (count_colons s).
Proof.
  induction s as [|c r IH]; simpl; [reflexivity|].
  destruct (Ascii.eqb c ":"); simpl.
  - now rewrite IH.
  - destruct (split_colon r) eqn:E; simpl in *; [discriminate IH | exact IH].
Qed.

Lemma split_colon_no_colon (s : string) :
  count_colons s = O -> split_colon s = [s].
Proof.
  induction s as [|c r IH]; simpl; [reflexivity|].
  destruct (Ascii.eqb c ":"); simpl; [discriminate|].
  intro H. now rewrite (IH H).
Qed.

Lemma split_colon_pair (a b : string) :
  count_colons a = O -> count_colons b = O ->
  split_colon (a ++ ":" ++ b) = [a; b].
Proof.
  intros Ha Hb. change (":" ++ b) with (String ":" b).
  induction a as [|c r IH]; simpl.
  - now rewrite (split_colon_no_colon b Hb).
  - simpl in Ha. destruct (Ascii.eqb c ":"); [discriminate|].
    now rewrite (IH Ha).
Qed.

Lemma to_boolean_pair (a b : string) : to_boolean (VString (a ++ ":" ++ b)) = true.
Proof. destruct a; reflexivity. Qed.

Lemma parseAspectRatio_pair (a b : string) :
  count_colons a = O -> count_colons b = O ->
  parseAspectRatio (VString (a ++ ":" ++ b)) =
  if isNaN (parseFloat a) || isNaN (parseFloat b) || strict_eq (parseFloat b) (Fin 0)
  then VNull else VNumber (parseFloat a / parseFloat b)%js.
Proof.
  intros Ha Hb. unfold parseAspectRatio.
  rewrite to_boolean_pair. simpl negb. cbv iota.
  now rewrite (split_colon_pair a b Ha Hb).
Qed.

(** C6.  On a string [a:b] whose two parts parse ([parseFloat] does not give
    NaN) with [b] not zero, [parseAspectRatio] returns the quotient of the
    two parsed numbers; on the empty string, on anything that is not a
    string, on a string that does not hold exactly one colon, and when a
    part does not parse or [b] is zero, it returns [null]. *)
Theorem parseAspectRatio_quotient_or_null :
  (forall a b : string,
     count_colons a = O -> count_colons b = O ->
     isNaN (parseFloat a) = false -> isNaN (parseFloat b) = false ->
     (parseFloat b =/= Fin 0)%js ->
     parseAspectRatio (VString (a ++ ":" ++ b))
     = VNumber (parseFloat a / parseFloat b)%js)
  /\ (forall (a b : string) (p q : Q),
     count_colons a = O -> count_colons b = O ->
     parseFloat a = Fin p -> parseFloat b = Fin q -> ~ (q == 0)%Q ->
     parseAspectRatio (VString (a ++ ":" ++ b)) = VNumber (Fin (p / q)))
  /\ parseAspectRatio (VString "") = VNull
  /\ (forall v : value, (forall s, v <> VString s) -> parseAspectRatio v = VNull)
  /\ (forall s : string, count_colons s <> 1%nat -> parseAspectRatio (VString s) = VNull)
  /\ (forall a b : string,
     count_colons a = O -> count_colons b = O ->
     isNaN (parseFloat a) = true \/ isNaN (parseFloat b) = true
       \/ (parseFloat b === Fin 0)%js ->
     parseAspectRatio (VString (a ++ ":" ++ b)) = VNull).
Proof.
  repeat apply conj.
  - intros a b Ha Hb Na Nb Zb.
    rewrite (parseAspectRatio_pair a b Ha Hb), Na, Nb, Zb. reflexivity.
  - intros a b p q Ha Hb Pa Pb Hq.
    rewrite (parseAspectRatio_pair a b Ha Hb), Pa, Pb. simpl.
    now rewrite (Qeq_bool_nonzero Hq).
  - reflexivity.
  - intros v Hv. destruct v; try (unfold parseAspectRatio; now destruct (negb _)).
    exfalso. now apply (Hv s).
  - intros s Hs. unfold parseAspectRatio.
    destruct (negb (to_boolean (VString s))); [reflexivity|].
    pose proof (split_colon_length s) as L.
    destruct (split_colon s) as [|p0 [|p1 [|p2 l]]]; try reflexivity.
    simpl in L. exfalso. apply Hs. now injection L as <-.
  - intros a b Ha Hb H.
    rewrite (parseAspectRatio_pair a b Ha Hb).
    destruct H as [H|[H|H]]; rewrite H; try reflexivity.
    + now rewrite orb_true_r.
    + now rewrite orb_true_r.
Qed.

Lemma parseAspectRatio_quotient_or_null_witness :
  parseAspectRatio (VString "4:3") = VNumber (parseFloat "4" / parseFloat "3")%js
  /\ parseAspectRatio (VString "16:9") = VNumber (Fin (16 / 9))
  /\ parseAspectRatio (VString "16/9") = VNull
  /\ parseAspectRatio (VString "16:0") = VNull
  /\ parseAspectRatio VNull = VNull.
Proof.
  destruct parseAspectRatio_quotient_or_null as (Hn & Hq & _ & Hv & Hs & Hz).
  repeat apply conj.
  - apply (Hn "4" "3"); reflexivity.
  - apply (Hq "16" "9" 16%Q 9%Q); try reflexivity. discriminate.
  - apply (Hs "16/9"). discriminate.
  - apply (Hz "16" "0"); try reflexivity. right. right. reflexivity.
  - apply Hv. discriminate.
Defined.

(** [parseFloat] reads the longest numeric prefix of a part, so a part with
    trailing text parses, and white space before a part is skipped. *)
Example parseAspectRatio_reads_prefixes :
  parseAspectRatio (VString "16px: 9abc") = VNumber (Fin (16 / 9))
  /\ parseAspectRatio (VString "abc") = VNull
  /\ parseAspectRatio (VString "16:x") = VNull
  /\ parseAspectRatio (VString "1:2:3") = VNull
  /\ parseAspectRatio VUndefined = VNull.
Proof. repeat split. Qed.

End AspectRatio.

(** ** Resolving the display mode *)

Section DisplayMode.

Import Modes.
Local Open Scope string_scope.

Lemma lower_char_cases (c : ascii) :
  lower_char c = c
  \/ (is_lower_letter (lower_char c) = true /\ c = upper_char (lower_char c)).
Proof.
  destruct c as [[] [] [] [] [] [] [] []];
    first [ left; reflexivity | right; split; reflexivity ].
Qed.

Lemma lower_upper_char (c : ascii) :
  is_lower_letter c = true -> lower_char (upper_char c) = c.
Proof.
  destruct c as [[] [] [] [] [] [] [] []]; intro H;
    first [ reflexivity | discriminate H ].
Qed.

Lemma toLowerCase_case_variant (s t : string) :
  case_variant s t -> toLowerCase t = t -> toLowerCase s = t.
Proof.
  induction 1 as [|c s t _ IH|c s t L _ IH]; intro Ht; simpl in *.
  - reflexivity.
  - injection Ht as Hc Ht'. now rewrite Hc, (IH Ht').
  - injection Ht as _ Ht'. now rewrite (lower_upper_char c L), (IH Ht').
Qed.

Lemma case_variant_toLowerCase (s : string) : case_variant s (toLowerCase s).
Proof.
  induction s as [|c r IH]; simpl.
  - constructor.
  - destruct (lower_char_cases c) as [E|[L E]].
    + rewrite E. now constructor.
    + rewrite E at 1. now constructor.
Qed.

Lemma validateMode_string (s : string) :
  validateMode (VString s) =
  if String.eqb (toLowerCase s) PROPORTIONAL || String.eqb (toLowerCase s) FULLSCREEN
  then toLowerCase s else PROPORTIONAL.
Proof.
  unfold validateMode, includes, MODES_values.
  destruct s as [|c r]; [reflexivity|].
  cbn [to_boolean negb String.eqb existsb]. now rewrite orb_false_r.
Qed.

Lemma validateMode_canonical (s t : string) :
  t = PROPORTIONAL \/ t = FULLSCREEN ->
  case_variant s t -> validateMode (VString s) = t.
Proof.
  intros Ht V.
  assert (L : toLowerCase s = t).
  { apply (toLowerCase_case_variant V). destruct Ht; subst t; reflexivity. }
  rewrite validateMode_string, L.
  destruct Ht; subst t; reflexivity.
Qed.

(** C7.  [validateMode] is defined on every value and its result is one of
    the two mode strings.  A string that is [proportional] or [fullscreen]
    in any letter case gives that mode; every other input, a string or not,
    gives [proportional]. *)
Theorem validateMode_total_two_valued :
  (forall v : value, validateMode v = PROPORTIONAL \/ validateMode v = FULLSCREEN)
  /\ (forall s : string, case_variant s PROPORTIONAL ->
        validateMode (VString s) = PROPORTIONAL)
  /\ (forall s : string, case_variant s FULLSCREEN ->
        validateMode (VString s) = FULLSCREEN)
  /\ (forall v : value,
        (forall s, v = VString s -> ~ case_variant s FULLSCREEN) ->
        validateMode v = PROPORTIONAL).
Proof.
  repeat apply conj.
  - intros [| |b|n|s|i]; try (left; unfold validateMode; now destruct (negb _)).
    rewrite validateMode_string.
    destruct (String.eqb (toLowerCase s) PROPORTIONAL) eqn:P.
    + left. now apply String.eqb_eq in P.
    + destruct (String.eqb (toLowerCase s) FULLSCREEN) eqn:F.
      * right. now apply String.eqb_eq in F.
      * left. reflexivity.
  - intros s V. apply validateMode_canonical; auto.
  - intros s V. apply validateMode_canonical; auto.
  - intros [| |b|n|s|i] H; try (unfold validateMode; now destruct (negb _)).
    rewrite validateMode_string.
    destruct (String.eqb (toLowerCase s) PROPORTIONAL) eqn:P.
    + now apply String.eqb_eq in P.
    + destruct (String.eqb (toLowerCase s) FULLSCREEN) eqn:F; [|reflexivity].
      apply String.eqb_eq in F. exfalso. apply (H s eq_refl).
      rewrite <- F. apply case_variant_toLowerCase.
Qed.

Lemma validateMode_total_two_valued_witness :
  validateMode (VString "Proportional") = PROPORTIONAL
  /\ validateMode (VString "FullSCREEN") = FULLSCREEN
  /\ validateMode (VNumber (Fin 123)) = PROPORTIONAL.
Proof.
  destruct validateMode_total_two_valued as (_ & HP & HF & HO).
  repeat apply conj.
  - apply HP.
    apply (cv_upper "p" (s := "roportional") (t := "roportional")); [reflexivity|].
    repeat apply cv_same. apply cv_empty.
  - apply HF.
    apply (cv_upper "f" (s := "ullSCREEN") (t := "ullscreen")); [reflexivity|].
    do 3 apply cv_same.
    apply (cv_upper "s" (s := "CREEN") (t := "creen")); [reflexivity|].
    apply (cv_upper "c" (s := "REEN") (t := "reen")); [reflexivity|].
    apply (cv_upper "r" (s := "EEN") (t := "een")); [reflexivity|].
    apply (cv_upper "e" (s := "EN") (t := "en")); [reflexivity|].
    apply (cv_upper "e" (s := "N") (t := "n")); [reflexivity|].
    apply (cv_upper "n" (s := "") (t := "")); [reflexivity|].
    apply cv_empty.
  - apply HO. intros s E. discriminate E.
Defined.

End DisplayMode.

(** ** The mode state machine *)

Section ModeStateMachine.

Import Modes.
Local Open Scope js_scope.


Lemma gt_zero_truthy (n : number) : (n >? Fin 0) = true -> truthy n = true.
Proof.
  destruct n as [|[]|q]; simpl; try discriminate; try reflexivity.
  intro H. apply Qlt_bool_iff in H. rewrite Qeq_bool_pos; auto.
Qed.


(** *** Degenerate geometry *)





(** *** What a refresh leaves alone *)

Lemma calculateCurrentScale_frame (page : Page) (s : Scaler.t) :
  let s' := fst (Scaler.calculateCurrentScale page s) in
  Scaler.options s' = Scaler.options s
  /\ Scaler.container s' = Scaler.container s
  /\ Scaler.content s' = Scaler.content s
  /\ Scaler.designSize s' = Scaler.designSize s
  /\ Scaler.currentMode s' = Scaler.currentMode s
  /\ Scaler.isInitialized s' = Scaler.isInitialized s.
Proof.
  unfold Scaler.calculateCurrentScale. break_match; simpl; auto 10.
Qed.

Lemma applyScaling_bound (page : Page) (s : Scaler.t) (c e : node) :
  Scaler.container s = Some c -> Scaler.content s = Some e ->
  exists tr,
    Scaler.applyScaling page s
    = (Scaler.set_currentScale (fst (Scaler.calculateCurrentScale page s))
         (snd (Scaler.calculateCurrentScale page s)), tr)
    /\ removals tr = O /\ registrations tr = O.
Proof.
  intros Hc He. unfold Scaler.applyScaling. rewrite Hc, He.
  destruct (Scaler.calculateCurrentScale page s) as [s1 scale].
  unfold bind, ret, emit, when. cbn [fst snd].
  destruct (Scaler.isFullscreen _), (onResize _); simpl;
    eexists; repeat split.
Qed.

Lemma refresh_bound (page : Page) (s : Scaler.t) (c e : node) :
  Scaler.container s = Some c -> Scaler.content s = Some e ->
  exists tr,
    Scaler.refresh page s
    = (Scaler.set_isInitialized
         (Scaler.set_currentScale (fst (Scaler.calculateCurrentScale page s))
            (snd (Scaler.calculateCurrentScale page s))) true, tr)
    /\ removals tr = O /\ registrations tr = O.
Proof.
  intros Hc He. unfold Scaler.refresh. rewrite Hc, He.
  destruct (applyScaling_bound page s Hc He) as (tr & E & R & G).
  rewrite E. unfold bind, ret. exists (tr ++ []).
  rewrite app_nil_r. auto.
Qed.

Lemma refresh_frame (page : Page) (s : Scaler.t) :
  let s' := fst (Scaler.refresh page s) in
  Scaler.options s' = Scaler.options s
  /\ Scaler.container s' = Scaler.container s
  /\ Scaler.content s' = Scaler.content s
  /\ Scaler.designSize s' = Scaler.designSize s
  /\ Scaler.currentMode s' = Scaler.currentMode s.
Proof.
  destruct (Scaler.container s) as [c|] eqn:Hc;
    [destruct (Scaler.content s) as [e|] eqn:He|].
  - destruct (refresh_bound page s Hc He) as (tr & E & _).
    rewrite E. cbn [fst]. rewrite <- Hc, <- He.
    pose proof (calculateCurrentScale_frame page s) as F. simpl in F.
    destruct F as (F1 & F2 & F3 & F4 & F5 & _). simpl. auto.
  - unfold Scaler.refresh. rewrite Hc, He. simpl. auto.
  - unfold Scaler.refresh. rewrite Hc. simpl. auto.
Qed.

Lemma refresh_quiet (page : Page) (s : Scaler.t) :
  removals (snd (Scaler.refresh page s)) = O
  /\ registrations (snd (Scaler.refresh page s)) = O.
Proof.
  destruct (Scaler.container s) as [c|] eqn:Hc;
    [destruct (Scaler.content s) as [e|] eqn:He|].
  - destruct (refresh_bound page s Hc He) as (tr & E & R & G).
    rewrite E. auto.
  - unfold Scaler.refresh. rewrite Hc, He. auto.
  - unfold Scaler.refresh. rewrite Hc. auto.
Qed.


(** *** The scalar and the independent pair *)

(** C10.  In the revision with independent factors, with a container and a
    content element bound and a design size of positive width and height, a
    refresh in fullscreen mode leaves
    [currentScale = Math.max(currentScaleX, currentScaleY)], the two factors
    being container width / design width and container height / design
    height. *)
Theorem refresh_fullscreen_scale_is_max :
  forall (page : Page) (s : Scaler.t) (c e : node),
    Scaler.container s = Some c ->
    Scaler.content s = Some e ->
    Scaler.currentMode s = VString FULLSCREEN ->
    (width (Scaler.designSize s) >? Fin 0) = true ->
    (height (Scaler.designSize s) >? Fin 0) = true ->
    let s' := fst (Scaler.refresh page s) in
    Scaler.currentScale s'
      = Math_max (Scaler.currentScaleX s') (Scaler.currentScaleY s')
    /\ Scaler.currentScaleX s'
      = of_Z (offsetWidth (element page c)) / width (Scaler.designSize s)
    /\ Scaler.currentScaleY s'
      = of_Z (offsetHeight (element page c)) / height (Scaler.designSize s).
Proof.
  intros page s c e Hc He Hm Hw Hh.
  unfold Scaler.refresh, Scaler.applyScaling, Scaler.calculateCurrentScale.
  rewrite Hc, He.
  rewrite (gt_zero_truthy _ Hw), (gt_zero_truthy _ Hh).
  cbn [negb orb].
  assert (F : Scaler.isFullscreen s = true).
  { unfold Scaler.isFullscreen. now rewrite Hm. }
  rewrite F. unfold Scaler.isFullscreen. cbn [Scaler.currentMode Scaler.set_currentScaleXY
    Scaler.set_currentScale Scaler.designSize Scaler.options].
  rewrite Hm. cbn [value_strict_eq]. rewrite String.eqb_refl.
  unfold bind, ret, emit, when. destruct (onResize (Scaler.options s)); simpl;
    repeat split.
Qed.

Lemma refresh_fullscreen_scale_is_max_witness :
  let page := uniform_page 800 600 in
  let s :=
    fst (Scaler.setDesignSize page
           (Scaler.setElements
              (Scaler.constructor (set_mode emptyOptions (VString FULLSCREEN)))
              0%nat 1%nat)
           (of_Z 1600) (of_Z 900)) in
  let s' := fst (Scaler.refresh page s) in
  Scaler.currentScale s'
    = Math_max (Scaler.currentScaleX s') (Scaler.currentScaleY s')
  /\ Scaler.currentScaleX s' = of_Z 800 / of_Z 1600
  /\ Scaler.currentScaleY s' = of_Z 600 / of_Z 900.
Proof.
  intros page s.
  apply (@refresh_fullscreen_scale_is_max page s 0%nat 1%nat); reflexivity.
Defined.

(** *** Setting the design size *)

(** C8.  [setDesignSize] stores the new size and goes on with a refresh
    when both numbers are [> 0]; the refresh, when a container and a content
    element are bound, computes the scale from the new size.  On any other
    pair of numbers the call changes nothing and calls nothing.  The
    orchestrator's [setDesignSize] hands the call to its scaler. *)
Theorem setDesignSize_guarded :
  (forall (page : Page) (s : Scaler.t) (w h : number),
     (w >? Fin 0) = true -> (h >? Fin 0) = true ->
     let d := {| width := w; height := h |} in
     Scaler.setDesignSize page s w h = Scaler.refresh page (Scaler.set_designSize s d)
     /\ Scaler.designSize (fst (Scaler.setDesignSize page s w h)) = d
     /\ (forall c e : node,
           Scaler.container s = Some c -> Scaler.content s = Some e ->
           Scaler.currentScale (fst (Scaler.setDesignSize page s w h))
           = Helpers.calculateScale
               (of_Z (offsetWidth (element page c)))
               (of_Z (offsetHeight (element page c)))
               w h (Scaler.isFullscreen s)))
  /\ (forall (page : Page) (s : Scaler.t) (w h : number),
     (w >? Fin 0) = false \/ (h >? Fin 0) = false ->
     Scaler.setDesignSize page s w h = (s, []))
  /\ (forall (page : Page) (f : FitScreenJS.t) (w h : number),
     (w >? Fin 0) = true -> (h >? Fin 0) = true ->
     let r := Scaler.refresh page
                (Scaler.set_designSize (FitScreenJS.scaler f)
                   {| width := w; height := h |}) in
     FitScreenJS.setDesignSize page f w h = (FitScreenJS.set_scaler f (fst r), snd r))
  /\ (forall (page : Page) (f : FitScreenJS.t) (w h : number),
     (w >? Fin 0) = false \/ (h >? Fin 0) = false ->
     FitScreenJS.setDesignSize page f w h = (f, [])).
Proof.
  assert (A : forall page s w h, (w >? Fin 0) = true -> (h >? Fin 0) = true ->
     Scaler.setDesignSize page s w h
     = Scaler.refresh page (Scaler.set_designSize s {| width := w; height := h |})).
  { intros page s w h Hw Hh. unfold Scaler.setDesignSize. now rewrite Hw, Hh. }
  assert (B : forall page s w h, (w >? Fin 0) = false \/ (h >? Fin 0) = false ->
     Scaler.setDesignSize page s w h = (s, [])).
  { intros page s w h [H|H]; unfold Scaler.setDesignSize; rewrite H;
      [reflexivity | now rewrite andb_false_r]. }
  repeat apply conj.
  - intros page s w h Hw Hh d. rewrite (A page s w h Hw Hh). fold d.
    repeat apply conj.
    + reflexivity.
    + now destruct (refresh_frame page (Scaler.set_designSize s d))
        as (_ & _ & _ & F & _).
    + intros c e Hc He.
      destruct (@refresh_bound page (Scaler.set_designSize s d) c e Hc He)
        as (tr & E & _).
      rewrite E. cbn [fst Scaler.currentScale Scaler.set_isInitialized
                      Scaler.set_currentScale].
      unfold Scaler.calculateCurrentScale.
      cbn [Scaler.container Scaler.set_designSize Scaler.designSize]. rewrite Hc.
      subst d. cbn [width height].
      rewrite (gt_zero_truthy _ Hw), (gt_zero_truthy _ Hh). cbn [negb orb].
      unfold Scaler.isFullscreen.
      cbn [Scaler.currentMode Scaler.set_designSize].
      destruct (value_strict_eq (Scaler.currentMode s) (VString FULLSCREEN)) eqn:F;
        cbn; rewrite ?F; reflexivity.
  - exact B.
  - intros page f w h Hw Hh r. unfold FitScreenJS.setDesignSize.
    rewrite (A page _ w h Hw Hh). fold r. destruct r as [s' tr].
    unfold bind, ret. cbn [fst snd]. now rewrite app_nil_r.
  - intros page f w h H. unfold FitScreenJS.setDesignSize.
    rewrite (B page _ w h H). destruct f. reflexivity.
Qed.

Lemma setDesignSize_guarded_witness :
  let page := uniform_page 800 600 in
  let s := Scaler.setElements (Scaler.constructor emptyOptions) 0%nat 1%nat in
  let f := FitScreenJS.constructor emptyOptions in
  Scaler.designSize (fst (Scaler.setDesignSize page s (of_Z 1600) (of_Z 900)))
    = {| width := of_Z 1600; height := of_Z 900 |}
  /\ Scaler.currentScale (fst (Scaler.setDesignSize page s (of_Z 1600) (of_Z 900)))
    = Helpers.calculateScale (of_Z 800) (of_Z 600) (of_Z 1600) (of_Z 900) false
  /\ Scaler.setDesignSize page s (of_Z 0) (of_Z 900) = (s, [])
  /\ FitScreenJS.setDesignSize page f (of_Z 1600) (of_Z 900)
    = (FitScreenJS.set_scaler f
         (Scaler.set_designSize (FitScreenJS.scaler f)
            {| width := of_Z 1600; height := of_Z 900 |}), [])
  /\ FitScreenJS.setDesignSize page f (of_Z 1600) NaN = (f, []).
Proof.
  intros page s f.
  destruct setDesignSize_guarded as (H1 & H2 & H3 & H4).
  destruct (H1 page s (of_Z 1600) (of_Z 900) eq_refl eq_refl) as (_ & Hd & Hs).
  repeat apply conj.
  - exact Hd.
  - exact (Hs 0%nat 1%nat eq_refl eq_refl).
  - apply H2. left. reflexivity.
  - exact (H3 page f (of_Z 1600) (of_Z 900) eq_refl eq_refl).
  - apply H4. right. reflexivity.
Defined.

(** *** What a refresh of a bound scaler computes and calls *)

Lemma refresh_bound_calls (page : Page) (s : Scaler.t) (c e : node) :
  Scaler.container s = Some c -> Scaler.content s = Some e ->
  let s' := fst (Scaler.refresh page s) in
  let full := Scaler.isFullscreen s in
  let pair := (Scaler.currentScaleX s', Scaler.currentScaleY s') in
  Scaler.currentScale s' = snd (Scaler.calculateCurrentScale page s)
  /\ Scaler.isInitialized s' = true
  /\ snd (Scaler.refresh page s)
     = [if full
        then ApplyFullscreenMode c e (Scaler.currentScale s') (Some pair)
        else ApplyProportionalMode c e (Scaler.currentScale s')]
       ++ (if onResize (Scaler.options s)
           then [OnResize (of_Z (offsetWidth (element page c)))
                   (of_Z (offsetHeight (element page c)))
                   (Scaler.currentScale s')
                   (if full then Some pair else None)]
           else []).
Proof.
  intros Hc He. unfold Scaler.refresh, Scaler.applyScaling. rewrite Hc, He.
  pose proof (calculateCurrentScale_frame page s) as F. cbv zeta in F.
  destruct F as (Fo & _ & _ & _ & Fm & _).
  destruct (Scaler.calculateCurrentScale page s) as [s1 scale].
  cbn [fst snd] in *.
  unfold Scaler.isFullscreen.
  cbn [Scaler.currentMode Scaler.set_currentScale Scaler.options
       Scaler.currentScale Scaler.currentScaleX Scaler.currentScaleY].
  rewrite Fm, Fo.
  unfold bind, ret, emit, when.
  destruct (value_strict_eq (Scaler.currentMode s) (VString FULLSCREEN));
    destruct (onResize (Scaler.options s)); cbn; repeat split.
Qed.

Lemma calculateCurrentScale_bound (page : Page) (s : Scaler.t) (c : node) :
  Scaler.container s = Some c ->
  truthy (width (Scaler.designSize s)) = true ->
  truthy (height (Scaler.designSize s)) = true ->
  let cw := of_Z (offsetWidth (element page c)) in
  let ch := of_Z (offsetHeight (element page c)) in
  let r := Scaler.calculateCurrentScale page s in
  snd r = Helpers.calculateScale cw ch (width (Scaler.designSize s))
            (height (Scaler.designSize s)) (Scaler.isFullscreen s)
  /\ (Scaler.isFullscreen s = true ->
      Scaler.currentScaleX (fst r) = cw / width (Scaler.designSize s)
      /\ Scaler.currentScaleY (fst r) = ch / height (Scaler.designSize s))
  /\ (Scaler.isFullscreen s = false -> fst r = s).
Proof.
  intros Hc Hw Hh. cbv zeta. unfold Scaler.calculateCurrentScale.
  rewrite Hc, Hw, Hh. cbn [negb orb].
  destruct (Scaler.isFullscreen s) eqn:F; cbn [fst snd].
  - unfold Scaler.isFullscreen in *.
    cbn [Scaler.designSize Scaler.set_currentScaleXY Scaler.currentMode
         Scaler.currentScaleX Scaler.currentScaleY].
    rewrite F. repeat split. discriminate.
  - rewrite F. repeat split; discriminate.
Qed.

(** *** Setting the mode *)

(** C5.  The orchestrator's [setMode] hands its scaler the mode
    [validateMode] resolves, which becomes the stored mode in every case.
    When that mode differs from the stored one and the scaler is
    initialized, the scaler refreshes and then calls [onModeChange], when the
    options hold one, with the new mode.  With a container and a content
    element bound, as they are once [applyTo] has initialized the scaler,
    that refresh recomputes: the scale stored is the one
    [calculateCurrentScale] gives for the new mode on the page as it is, and
    the calls made are, in this order, the style function of the new mode
    with that scale, [onResize] (when there is one) with the container's box
    and that scale, and [onModeChange] (when there is one) with the new mode.
    For a design size whose width and height are neither 0 nor NaN the scale
    is [calculateScale] of the container's box against the design size, under
    the cover policy when the new mode is fullscreen and the contain policy
    otherwise, and in fullscreen mode the two independent factors are the
    width and height quotients.  When the mode is the stored one, or the
    scaler is not initialized, only the stored mode is written: nothing is
    recomputed and nothing is called. *)
Theorem setMode_transition :
  forall (page : Page) (f : FitScreenJS.t) (v : value),
    let sc := FitScreenJS.scaler f in
    let m := VString (validateMode v) in
    let r := FitScreenJS.setMode page f v in
    let s' := FitScreenJS.scaler (fst r) in
    Scaler.currentMode s' = m
    /\ (value_strict_eq (Scaler.currentMode sc) m = false ->
        Scaler.isInitialized sc = true ->
        let rf := Scaler.refresh page (Scaler.set_currentMode sc m) in
        r = (FitScreenJS.set_scaler f (fst rf),
             snd rf ++ (if onModeChange (Scaler.options sc)
                        then [OnModeChange m] else [])))
    /\ (value_strict_eq (Scaler.currentMode sc) m = false ->
        Scaler.isInitialized sc = true ->
        forall c e : node,
          Scaler.container sc = Some c -> Scaler.content sc = Some e ->
          let full := value_strict_eq m (VString FULLSCREEN) in
          let cw := of_Z (offsetWidth (element page c)) in
          let ch := of_Z (offsetHeight (element page c)) in
          let dw := width (Scaler.designSize sc) in
          let dh := height (Scaler.designSize sc) in
          let pair := (Scaler.currentScaleX s', Scaler.currentScaleY s') in
          Scaler.currentScale s'
          = snd (Scaler.calculateCurrentScale page (Scaler.set_currentMode sc m))
          /\ snd r
             = [if full
                then ApplyFullscreenMode c e (Scaler.currentScale s') (Some pair)
                else ApplyProportionalMode c e (Scaler.currentScale s')]
               ++ (if onResize (Scaler.options sc)
                   then [OnResize cw ch (Scaler.currentScale s')
                           (if full then Some pair else None)]
                   else [])
               ++ (if onModeChange (Scaler.options sc)
                   then [OnModeChange m] else [])
          /\ (truthy dw = true -> truthy dh = true ->
              Scaler.currentScale s' = Helpers.calculateScale cw ch dw dh full
              /\ (full = true ->
                  Scaler.currentScaleX s' = cw / dw
                  /\ Scaler.currentScaleY s' = ch / dh)))
    /\ (value_strict_eq (Scaler.currentMode sc) m = true
        \/ Scaler.isInitialized sc = false ->
        r = (FitScreenJS.set_scaler f (Scaler.set_currentMode sc m), [])).
Proof.
  intros page f v sc m r s'.
  assert (Changed : value_strict_eq (Scaler.currentMode sc) m = false ->
        Scaler.isInitialized sc = true ->
        let rf := Scaler.refresh page (Scaler.set_currentMode sc m) in
        r = (FitScreenJS.set_scaler f (fst rf),
             snd rf ++ (if onModeChange (Scaler.options sc)
                        then [OnModeChange m] else []))).
  { intros Hd Hi rf. subst r. unfold FitScreenJS.setMode, Scaler.setMode.
    fold sc. fold m. cbn [Scaler.currentMode Scaler.set_currentMode
                          Scaler.isInitialized].
    rewrite Hd, Hi. cbn [negb andb].
    destruct (refresh_frame page (Scaler.set_currentMode sc m))
      as (Fo & _ & _ & _ & Fm).
    fold rf in Fo, Fm. cbn [Scaler.options Scaler.currentMode
                            Scaler.set_currentMode] in Fo, Fm.
    fold rf. destruct rf as [s2 tr]. cbn [fst snd] in *.
    unfold bind, ret, when, emit. rewrite Fo, Fm.
    destruct (onModeChange (Scaler.options sc)); cbn; now rewrite ?app_nil_r. }
  assert (Same : value_strict_eq (Scaler.currentMode sc) m = true
        \/ Scaler.isInitialized sc = false ->
        r = (FitScreenJS.set_scaler f (Scaler.set_currentMode sc m), [])).
  { intros H. subst r. unfold FitScreenJS.setMode, Scaler.setMode.
    fold sc. fold m. cbn [Scaler.currentMode Scaler.set_currentMode
                          Scaler.isInitialized].
    destruct H as [H|H]; rewrite H; cbn [negb andb]; [reflexivity|].
    now rewrite andb_false_r. }
  repeat apply conj; [| exact Changed | | exact Same].
  - subst s'.
    destruct (value_strict_eq (Scaler.currentMode sc) m) eqn:Hd.
    + rewrite (Same (or_introl eq_refl)). reflexivity.
    + destruct (Scaler.isInitialized sc) eqn:Hi.
      * rewrite (Changed eq_refl eq_refl). cbn [fst FitScreenJS.scaler
          FitScreenJS.set_scaler].
        now destruct (refresh_frame page (Scaler.set_currentMode sc m))
          as (_ & _ & _ & _ & Fm).
      * rewrite (Same (or_intror eq_refl)). reflexivity.
  - intros Hd Hi c e Hc He full cw ch dw dh pair.
    subst pair s'. rewrite (Changed Hd Hi).
    cbn [fst snd FitScreenJS.scaler FitScreenJS.set_scaler].
    set (s1 := Scaler.set_currentMode sc m).
    assert (Hc1 : Scaler.container s1 = Some c) by exact Hc.
    assert (He1 : Scaler.content s1 = Some e) by exact He.
    destruct (refresh_bound_calls page s1 Hc1 He1) as (Es & _ & Et).
    change (Scaler.isFullscreen s1) with full in Et.
    change (Scaler.options s1) with (Scaler.options sc) in Et.
    split; [exact Es|]. split.
    + rewrite Et. fold cw ch. now rewrite <- app_assoc.
    + intros Hw Hh.
      assert (Hw1 : truthy (width (Scaler.designSize s1)) = true) by exact Hw.
      assert (Hh1 : truthy (height (Scaler.designSize s1)) = true) by exact Hh.
      destruct (calculateCurrentScale_bound page s1 Hc1 Hw1 Hh1) as (Ev & Ex & _).
      change (Scaler.isFullscreen s1) with full in Ev, Ex.
      split; [rewrite Es; exact Ev|].
      intro Hf. destruct (refresh_bound page s1 Hc1 He1) as (tr & E & _).
      rewrite E. cbn [fst Scaler.currentScaleX Scaler.currentScaleY
                      Scaler.set_isInitialized Scaler.set_currentScale].
      exact (Ex Hf).
Qed.

Lemma setMode_transition_witness :
  let page := uniform_page 800 600 in
  let f := fst (FitScreenJS.applyTo page (FitScreenJS.constructor callbackOptions)
                  (Some 0%nat) 1%nat) in
  let g := FitScreenJS.constructor callbackOptions in
  let h := fst (FitScreenJS.setDesignSize page f (of_Z 1600) (of_Z 900)) in
  let full := Scaler.set_currentMode (FitScreenJS.scaler f) (VString FULLSCREEN) in
  let r := FitScreenJS.setMode page h (VString "FullScreen") in
  let s' := FitScreenJS.scaler (fst r) in
  let cover :=
    Helpers.calculateScale (of_Z 800) (of_Z 600) (of_Z 1600) (of_Z 900) true in
  let pair := (of_Z 800 / of_Z 1600, of_Z 600 / of_Z 900) in
  FitScreenJS.setMode page f (VString "FullScreen")
    = (FitScreenJS.set_scaler f (fst (Scaler.refresh page full)),
       snd (Scaler.refresh page full) ++ [OnModeChange (VString FULLSCREEN)])
  /\ FitScreenJS.setMode page f (VString "Proportional")
    = (FitScreenJS.set_scaler f
         (Scaler.set_currentMode (FitScreenJS.scaler f) (VString PROPORTIONAL)), [])
  /\ FitScreenJS.setMode page g (VString "fullscreen")
    = (FitScreenJS.set_scaler g
         (Scaler.set_currentMode (FitScreenJS.scaler g) (VString FULLSCREEN)), [])
  /\ FitScreenJS.getScale h === Fin (1 # 2)
  /\ Scaler.currentScale s' = cover
  /\ cover === Fin (2 # 3)
  /\ snd r = [ApplyFullscreenMode 0%nat 1%nat cover (Some pair);
              OnResize (of_Z 800) (of_Z 600) cover (Some pair);
              OnModeChange (VString FULLSCREEN)].
Proof.
  intros page f g h full r s' cover pair.
  destruct (setMode_transition page h (VString "FullScreen"))
    as (_ & _ & Recomputed & _).
  destruct (Recomputed eq_refl eq_refl 0%nat 1%nat eq_refl eq_refl)
    as (_ & Calls & Value).
  destruct (Value eq_refl eq_refl) as (Scale & Factors).
  destruct (Factors eq_refl) as (X & Y).
  repeat apply conj.
  - exact (proj1 (proj2 (setMode_transition page f (VString "FullScreen")))
             eq_refl eq_refl).
  - exact (proj2 (proj2 (proj2 (setMode_transition page f (VString "Proportional"))))
             (or_introl eq_refl)).
  - exact (proj2 (proj2 (proj2 (setMode_transition page g (VString "fullscreen"))))
             (or_intror eq_refl)).
  - reflexivity.
  - exact Scale.
  - reflexivity.
  - subst r s'. rewrite Calls, Scale, X, Y. reflexivity.
Defined.

End ModeStateMachine.

(** ** Teardown *)

Section Teardown.

Lemma bind_fst (A B : Type) (m : Traced A) (k : A -> Traced B) :
  fst (bind m k) = fst (k (fst m)).
Proof. unfold bind. destruct m as [a t1]. simpl. now destruct (k a). Qed.

Lemma bind_snd (A B : Type) (m : Traced A) (k : A -> Traced B) :
  snd (bind m k) = snd m ++ snd (k (fst m)).
Proof. unfold bind. destruct m as [a t1]. simpl. now destruct (k a). Qed.

Lemma removals_app (t1 t2 : list event) :
  removals (t1 ++ t2) = (removals t1 + removals t2)%nat.
Proof. unfold removals. now rewrite filter_app, length_app. Qed.

Lemma setDesignSize_quiet (page : Page) (s : Scaler.t) (w h : number) :
  removals (snd (Scaler.setDesignSize page s w h)) = O.
Proof.
  unfold Scaler.setDesignSize.
  destruct (gt w (Fin 0) && gt h (Fin 0)); [apply refresh_quiet | reflexivity].
Qed.

Lemma setMode_quiet (page : Page) (s : Scaler.t) (m : value) :
  removals (snd (Scaler.setMode page s m)) = O.
Proof.
  unfold Scaler.setMode.
  destruct (negb _ && _); [|reflexivity].
  rewrite bind_snd, removals_app, (proj1 (refresh_quiet _ _)).
  rewrite bind_snd, removals_app. unfold when.
  now destruct (onModeChange _).
Qed.

(** *** The revision of src/index.js without detected sizes *)

Lemma step_flags (page : Page) (f : FitScreenJS.t) (c : call) :
  let r := FitScreenJS.step page f c in
  (FitScreenJS.isDestroyed f = true ->
     FitScreenJS.isDestroyed (fst r) = true /\ removals (snd r) = O)
  /\ (FitScreenJS.isDestroyed f = false ->
     (removals (snd r) <= 1)%nat
     /\ (removals (snd r) = 1%nat -> FitScreenJS.isDestroyed (fst r) = true)).
Proof.
  assert (R : forall g, FitScreenJS.isDestroyed (fst (FitScreenJS.refresh page g))
                        = FitScreenJS.isDestroyed g
                        /\ removals (snd (FitScreenJS.refresh page g)) = O).
  { intro g. unfold FitScreenJS.refresh. rewrite bind_fst, bind_snd, removals_app.
    rewrite (proj1 (refresh_quiet _ _)). auto. }
  assert (Q : FitScreenJS.isDestroyed (fst (FitScreenJS.step page f c))
              = FitScreenJS.isDestroyed f
              /\ removals (snd (FitScreenJS.step page f c)) = O
              \/ c = Destroy).
  { destruct c as [co oc ct|m|w h| | |]; [left|left|left|left|right|left]; cbn [FitScreenJS.step].
    - unfold FitScreenJS.applyTo. destruct co as [cn|]; [|auto].
      rewrite !bind_fst, !bind_snd, !removals_app, setDesignSize_quiet.
      destruct (negb (FitScreenJS.isInitialized _)); simpl;
        match goal with |- context [FitScreenJS.refresh page ?g] =>
          destruct (R g) as [-> ->] end; auto.
    - unfold FitScreenJS.setMode.
      rewrite bind_fst, bind_snd, removals_app, setMode_quiet. auto.
    - unfold FitScreenJS.setDesignSize.
      rewrite bind_fst, bind_snd, removals_app, setDesignSize_quiet. auto.
    - apply R.
    - reflexivity.
    - unfold FitScreenJS._resizeHandler.
      destruct (FitScreenJS.isInitialized f); [|auto].
      destruct (negb (FitScreenJS.isDestroyed f)); [apply R | auto]. }
  intro r. subst r. destruct Q as [[Qd Qr]| ->].
  - rewrite Qd, Qr. split; intro H; [auto|]. split; [lia | discriminate].
  - cbn [FitScreenJS.step]. unfold FitScreenJS.destroy.
    split; intro H; rewrite H.
    + rewrite andb_false_r. auto.
    + destruct (FitScreenJS.isInitialized f); simpl; split; auto; discriminate.
Qed.

Lemma run_flags (calls : list (Page * call)) :
  forall f : FitScreenJS.t,
    let r := FitScreenJS.run calls f in
    (FitScreenJS.isDestroyed f = true ->
       FitScreenJS.isDestroyed (fst r) = true /\ removals (snd r) = O)
    /\ (removals (snd r) <= 1)%nat.
Proof.
  induction calls as [|[page c] rest IH]; intro f; cbn [FitScreenJS.run].
  - simpl. split; [auto | unfold removals; simpl; lia].
  - rewrite bind_fst, bind_snd, removals_app.
    destruct (step_flags page f c) as [Sd Sl].
    destruct (IH (fst (FitScreenJS.step page f c))) as [Id Il].
    split.
    + intro H. destruct (Sd H) as [D R]. destruct (Id D) as [D' R'].
      rewrite R, R'. auto.
    + destruct (FitScreenJS.isDestroyed f) eqn:H.
      * destruct (Sd eq_refl) as [D R]. rewrite R. exact Il.
      * destruct (Sl eq_refl) as [L D].
        destruct (removals (snd (FitScreenJS.step page f c))) as [|[|n]] eqn:E.
        -- exact Il.
        -- destruct (Id (D eq_refl)) as [_ R']. rewrite R'. lia.
        -- lia.
Qed.

(** *** The revision of src/index.js that records the detected size *)

Lemma step_flags_detect (page : Page) (f : FitScreenJSDetect.t) (c : call) :
  let r := FitScreenJSDetect.step page f c in
  (FitScreenJSDetect.isDestroyed f = true ->
     FitScreenJSDetect.isDestroyed (fst r) = true /\ removals (snd r) = O)
  /\ (FitScreenJSDetect.isDestroyed f = false ->
     (removals (snd r) <= 1)%nat
     /\ (removals (snd r) = 1%nat -> FitScreenJSDetect.isDestroyed (fst r) = true)).
Proof.
  assert (R : forall g, FitScreenJSDetect.isDestroyed (fst (FitScreenJSDetect.refresh page g))
                        = FitScreenJSDetect.isDestroyed g
                        /\ removals (snd (FitScreenJSDetect.refresh page g)) = O).
  { intro g. unfold FitScreenJSDetect.refresh. rewrite bind_fst, bind_snd, removals_app.
    rewrite (proj1 (refresh_quiet _ _)). auto. }
  assert (Q : FitScreenJSDetect.isDestroyed (fst (FitScreenJSDetect.step page f c))
              = FitScreenJSDetect.isDestroyed f
              /\ removals (snd (FitScreenJSDetect.step page f c)) = O
              \/ c = Destroy).
  { destruct c as [co oc ct|m|w h| | |]; [left|left|left|left|right|left]; cbn [FitScreenJSDetect.step].
    - unfold FitScreenJSDetect.applyTo. destruct co as [cn|]; [|auto].
      rewrite !bind_fst, !bind_snd, !removals_app, setDesignSize_quiet.
      destruct (negb (FitScreenJSDetect.isInitialized _)); simpl;
        match goal with |- context [FitScreenJSDetect.refresh page ?g] =>
          destruct (R g) as [-> ->] end; auto.
    - unfold FitScreenJSDetect.setMode.
      rewrite bind_fst, bind_snd, removals_app, setMode_quiet. auto.
    - unfold FitScreenJSDetect.setDesignSize.
      rewrite bind_fst, bind_snd, removals_app, setDesignSize_quiet. auto.
    - apply R.
    - reflexivity.
    - unfold FitScreenJSDetect._resizeHandler.
      destruct (FitScreenJSDetect.isInitialized f); [|auto].
      destruct (negb (FitScreenJSDetect.isDestroyed f)); [apply R | auto]. }
  intro r. subst r. destruct Q as [[Qd Qr]| ->].
  - rewrite Qd, Qr. split; intro H; [auto|]. split; [lia | discriminate].
  - cbn [FitScreenJSDetect.step]. unfold FitScreenJSDetect.destroy.
    split; intro H; rewrite H.
    + rewrite andb_false_r. auto.
    + destruct (FitScreenJSDetect.isInitialized f); simpl; split; auto; discriminate.
Qed.

Lemma run_flags_detect (calls : list (Page * call)) :
  forall f : FitScreenJSDetect.t,
    let r := FitScreenJSDetect.run calls f in
    (FitScreenJSDetect.isDestroyed f = true ->
       FitScreenJSDetect.isDestroyed (fst r) = true /\ removals (snd r) = O)
    /\ (removals (snd r) <= 1)%nat.
Proof.
  induction calls as [|[page c] rest IH]; intro f; cbn [FitScreenJSDetect.run].
  - simpl. split; [auto | unfold removals; simpl; lia].
  - rewrite bind_fst, bind_snd, removals_app.
    destruct (step_flags_detect page f c) as [Sd Sl].
    destruct (IH (fst (FitScreenJSDetect.step page f c))) as [Id Il].
    split.
    + intro H. destruct (Sd H) as [D R]. destruct (Id D) as [D' R'].
      rewrite R, R'. auto.
    + destruct (FitScreenJSDetect.isDestroyed f) eqn:H.
      * destruct (Sd eq_refl) as [D R]. rewrite R. exact Il.
      * destruct (Sl eq_refl) as [L D].
        destruct (removals (snd (FitScreenJSDetect.step page f c))) as [|[|n]] eqn:E.
        -- exact Il.
        -- destruct (Id (D eq_refl)) as [_ R']. rewrite R'. lia.
        -- lia.
Qed.

(** *** Both revisions *)

(** C9.  Whatever calls are made on an instance, in whatever state it is, the
    resize listener is deregistered at most once.  Once the instance is
    destroyed it stays so and no call deregisters again; [destroy] on a
    destroyed instance changes nothing and calls nothing, so does a second
    [destroy] in a row; the first [destroy] of an initialized instance
    deregisters the listener and sets the flag.  This holds of both
    revisions of the orchestrator. *)
Theorem destroy_deregisters_at_most_once :
  (forall (calls : list (Page * call)) (f : FitScreenJS.t),
     (removals (snd (FitScreenJS.run calls f)) <= 1)%nat)
  /\ (forall (calls : list (Page * call)) (f : FitScreenJS.t),
     FitScreenJS.isDestroyed f = true ->
     removals (snd (FitScreenJS.run calls f)) = O
     /\ FitScreenJS.isDestroyed (fst (FitScreenJS.run calls f)) = true)
  /\ (forall f : FitScreenJS.t,
     FitScreenJS.isDestroyed f = true -> FitScreenJS.destroy f = (f, []))
  /\ (forall f : FitScreenJS.t,
     FitScreenJS.destroy (fst (FitScreenJS.destroy f))
     = (fst (FitScreenJS.destroy f), []))
  /\ (forall f : FitScreenJS.t,
     FitScreenJS.isInitialized f = true -> FitScreenJS.isDestroyed f = false ->
     FitScreenJS.destroy f
     = (FitScreenJS.set_isDestroyed f true, [RemoveResizeListener]))
  /\ (forall (calls : list (Page * call)) (f : FitScreenJSDetect.t),
     (removals (snd (FitScreenJSDetect.run calls f)) <= 1)%nat)
  /\ (forall (calls : list (Page * call)) (f : FitScreenJSDetect.t),
     FitScreenJSDetect.isDestroyed f = true ->
     removals (snd (FitScreenJSDetect.run calls f)) = O
     /\ FitScreenJSDetect.isDestroyed (fst (FitScreenJSDetect.run calls f)) = true)
  /\ (forall f : FitScreenJSDetect.t,
     FitScreenJSDetect.isDestroyed f = true -> FitScreenJSDetect.destroy f = (f, []))
  /\ (forall f : FitScreenJSDetect.t,
     FitScreenJSDetect.destroy (fst (FitScreenJSDetect.destroy f))
     = (fst (FitScreenJSDetect.destroy f), []))
  /\ (forall f : FitScreenJSDetect.t,
     FitScreenJSDetect.isInitialized f = true ->
     FitScreenJSDetect.isDestroyed f = false ->
     FitScreenJSDetect.destroy f
     = (FitScreenJSDetect.set_isDestroyed f true, [RemoveResizeListener])).
Proof.
  repeat apply conj.
  - intros calls f. apply (run_flags calls f).
  - intros calls f H. destruct (proj1 (run_flags calls f) H). auto.
  - intros f H. unfold FitScreenJS.destroy. rewrite H. now rewrite andb_false_r.
  - intro f. unfold FitScreenJS.destroy.
    destruct (FitScreenJS.isInitialized f) eqn:I,
             (FitScreenJS.isDestroyed f) eqn:D; simpl; rewrite ?I, ?D; reflexivity.
  - intros f I D. unfold FitScreenJS.destroy. rewrite I, D. reflexivity.
  - intros calls f. apply (run_flags_detect calls f).
  - intros calls f H. destruct (proj1 (run_flags_detect calls f) H). auto.
  - intros f H. unfold FitScreenJSDetect.destroy. rewrite H.
    now rewrite andb_false_r.
  - intro f. unfold FitScreenJSDetect.destroy.
    destruct (FitScreenJSDetect.isInitialized f) eqn:I,
             (FitScreenJSDetect.isDestroyed f) eqn:D; simpl; rewrite ?I, ?D;
      reflexivity.
  - intros f I D. unfold FitScreenJSDetect.destroy. rewrite I, D. reflexivity.
Qed.

Lemma destroy_deregisters_at_most_once_witness :
  let page := uniform_page 800 600 in
  let f := fst (FitScreenJS.applyTo page (FitScreenJS.constructor emptyOptions)
                  (Some 0%nat) 1%nat) in
  let g := fst (FitScreenJSDetect.applyTo page
                  (FitScreenJSDetect.constructor emptyOptions)
                  (Some 0%nat) (Some 2%nat) 1%nat) in
  FitScreenJS.destroy f = (FitScreenJS.set_isDestroyed f true, [RemoveResizeListener])
  /\ FitScreenJS.destroy (FitScreenJS.set_isDestroyed f true)
     = (FitScreenJS.set_isDestroyed f true, [])
  /\ removals (snd (FitScreenJS.run [(page, Destroy); (page, Refresh); (page, Destroy)]
                      (FitScreenJS.set_isDestroyed f true))) = O
  /\ FitScreenJSDetect.destroy g
     = (FitScreenJSDetect.set_isDestroyed g true, [RemoveResizeListener])
  /\ FitScreenJSDetect.destroy (FitScreenJSDetect.set_isDestroyed g true)
     = (FitScreenJSDetect.set_isDestroyed g true, [])
  /\ removals (snd (FitScreenJSDetect.run
                      [(page, Destroy); (page, ResizeHandler); (page, Destroy)]
                      (FitScreenJSDetect.set_isDestroyed g true))) = O.
Proof.
  intros page f g.
  destruct destroy_deregisters_at_most_once
    as (_ & H2 & H3 & _ & H5 & _ & K2 & K3 & _ & K5).
  repeat apply conj.
  - apply H5; reflexivity.
  - apply H3; reflexivity.
  - apply H2; reflexivity.
  - apply K5; reflexivity.
  - apply K3; reflexivity.
  - apply K2; reflexivity.
Defined.

End Teardown.

(** ** The design-size resolver *)

Section DesignSize.

Import Detector.
Local Open Scope js_scope.

Lemma valid_dimension_spec (x : option number) :
  valid_dimension x = true ->
  exists n, x = Some n /\ (n >? Fin 0) = true
            /\ given x = true /\ isNaN (to_number x) = false /\ to_number x = n.
Proof.
  destruct x as [n|]; simpl; [|discriminate].
  intro H. exists n. repeat split; auto.
  - now apply gt_zero_truthy.
  - destruct n; [discriminate H | reflexivity | reflexivity].
Qed.

Lemma valid_dimension_false (x : option number) :
  valid_dimension x = false -> (to_number x >? Fin 0) = false.
Proof. destruct x; simpl; auto. Qed.

Lemma fromDesignSize_valid (o : Options) :
  valid_dimension (designWidth o) = true ->
  valid_dimension (designHeight o) = true ->
  fromDesignSize o = Some {| width := to_number (designWidth o);
                             height := to_number (designHeight o) |}.
Proof.
  intros Hw Hh. unfold fromDesignSize.
  destruct (valid_dimension_spec _ Hw) as (w & _ & Gw & Tw & Nw & Ew).
  destruct (valid_dimension_spec _ Hh) as (h & _ & Gh & Th & Nh & Eh).
  rewrite Tw, Th, Nw, Nh, Ew, Eh, Gw, Gh. reflexivity.
Qed.

Lemma fromDesignSize_none (o : Options) : no_explicit o -> fromDesignSize o = None.
Proof.
  unfold no_explicit, fromDesignSize. intro H.
  apply andb_false_iff in H. destruct H as [H|H];
    apply valid_dimension_false in H; rewrite H;
    now rewrite ?andb_false_r.
Qed.

Lemma fromDetected_valid (o : Options) :
  valid_dimension (detectedWidth o) = true ->
  valid_dimension (detectedHeight o) = true ->
  fromDetected o = Some {| width := to_number (detectedWidth o);
                           height := to_number (detectedHeight o) |}.
Proof.
  intros Hw Hh. unfold fromDetected.
  destruct (valid_dimension_spec _ Hw) as (w & _ & Gw & Tw & Nw & Ew).
  destruct (valid_dimension_spec _ Hh) as (h & _ & Gh & Th & Nh & Eh).
  rewrite Tw, Th, Ew, Eh, Gw, Gh. reflexivity.
Qed.

Lemma fromDetected_none (o : Options) : no_detected o -> fromDetected o = None.
Proof.
  unfold no_detected, fromDetected. intro H.
  apply andb_false_iff in H. destruct H as [H|H];
    apply valid_dimension_false in H; rewrite H;
    now rewrite ?andb_false_r.
Qed.

Lemma fromAspectRatio_usable (win : Window) (o : Options)
  (container : option Element) (q : number) :
  aspectRatio o = VNumber q -> (q >? Fin 0) = true ->
  fromAspectRatio win o container = Some (limited_size (viewport_size win container) q).
Proof.
  intros Ha Hq. unfold fromAspectRatio, limited_size, viewport_size, detectScreenSize.
  rewrite Ha. cbn [as_number to_boolean]. rewrite (gt_zero_truthy _ Hq), Hq.
  cbn [andb]. destruct container as [c|]; cbn [width height];
    destruct (_ >? q); reflexivity.
Qed.

Lemma fromAspectRatio_none (win : Window) (o : Options) (container : option Element) :
  no_ratio o -> fromAspectRatio win o container = None.
Proof.
  unfold no_ratio, fromAspectRatio. intro H.
  destruct (aspectRatio o) as [| |b|q|s|i]; try reflexivity.
  cbn [as_number]. rewrite (H q eq_refl). now rewrite andb_false_r.
Qed.

Lemma fromAutoDetect_none (o : Options) (content : option Element) :
  no_measure o content -> fromAutoDetect o content = None.
Proof.
  unfold no_measure, fromAutoDetect, positive_size.
  intros [H|[H|H]]; rewrite ?H; try reflexivity.
  - now destruct (autoDetect o).
  - destruct (autoDetect o), content; reflexivity.
Qed.

Lemma fromContainer_none (container : option Element) :
  no_container container -> fromContainer container = None.
Proof.
  unfold no_container, fromContainer. destruct container as [c|]; [|reflexivity].
  cbn [width height]. unfold of_Z, gt.
  intros [H|H].
  - replace (Qlt_bool 0 (inject_Z (offsetWidth c))) with false; [reflexivity|].
    symmetry. apply Qlt_bool_false_iff. change 0%Q with (inject_Z 0).
    now rewrite <- Zle_Qle.
  - replace (Qlt_bool 0 (inject_Z (offsetHeight c))) with false;
      [now rewrite andb_false_r|].
    symmetry. apply Qlt_bool_false_iff. change 0%Q with (inject_Z 0).
    now rewrite <- Zle_Qle.
Qed.

Lemma fromContainer_positive (c : Element) :
  (0 < offsetWidth c)%Z -> (0 < offsetHeight c)%Z ->
  fromContainer (Some c)
  = Some {| width := of_Z (offsetWidth c); height := of_Z (offsetHeight c) |}.
Proof.
  intros Hw Hh. unfold fromContainer. cbn [width height]. unfold of_Z, gt.
  replace (Qlt_bool 0 (inject_Z (offsetWidth c))) with true.
  - replace (Qlt_bool 0 (inject_Z (offsetHeight c))) with true; [reflexivity|].
    symmetry. apply Qlt_bool_iff. change 0%Q with (inject_Z 0).
    now rewrite <- Zlt_Qlt.
  - symmetry. apply Qlt_bool_iff. change 0%Q with (inject_Z 0).
    now rewrite <- Zlt_Qlt.
Qed.

Lemma determineDesignSize_by_ratio (win : Window) (o : Options)
  (container content : option Element) (q : number) :
  no_explicit o -> aspectRatio o = VNumber q -> (q >? Fin 0) = true ->
  determineDesignSize win o container content
  = limited_size (viewport_size win container) q.
Proof.
  intros E Ha Hq. unfold determineDesignSize.
  rewrite (fromDesignSize_none E), (fromAspectRatio_usable win o container Ha Hq).
  reflexivity.
Qed.

(** C3.  The claim holds of every source but the aspect-ratio one, and the
    code breaks it there.  With the ratio 16:9 configured and a container
    0 wide and 0 high, no source is valid in the claim's sense (no explicit
    size, no detected size, no measured content, a zero-sized container, and
    the size the ratio gives on that box is not positive), so the claim asks
    for the default 1920 x 1080; the resolver returns 0 x 0.  The container
    source, which reads the same box, tests it and rejects it: without the
    ratio the same call returns the default. *)
Theorem determineDesignSize_ratio_on_empty_container :
  let o := FitScreenJS._normalizeOptions
             (set_aspectRatio emptyOptions (VString "16:9")) in
  let page := uniform_page 0 0 in
  let container := Some (element page 0%nat) in
  let r := determineDesignSize (window page) o container None in
  no_explicit o /\ no_detected o /\ no_measure o None /\ no_container container
  /\ (forall q, aspectRatio o = VNumber q ->
        positive_size (limited_size (viewport_size (window page) container) q) = false)
  /\ width r === Fin 0 /\ height r === Fin 0
  /\ positive_size r = false
  /\ width r =/= width DEFAULT_DESIGN
  /\ fromContainer container = None
  /\ determineDesignSize (window page) (set_aspectRatio o VUndefined) container None
     = DEFAULT_DESIGN.
Proof.
  cbv zeta. repeat apply conj; try reflexivity.
  - right. left. reflexivity.
  - left. reflexivity.
Qed.

(** The resolver source by source.  [determineDesignSize] always returns a
    size, the one of the first source that applies: the configured design
    size, when both its dimensions are given and > 0; else, when the
    configured ratio is a number > 0, the size that ratio gives on the
    container's box, or on the window's when no container is given; else the
    detected size, when both its dimensions are > 0; else, when
    auto-detection is on and a content element is given, its measured size
    when that is positive; else the container's box when positive; else
    1920 x 1080.  The aspect-ratio source is the only one that does not test
    the size it returns. *)
Lemma determineDesignSize_first_applicable :
  forall (win : Window) (o : Options) (container content : option Element),
    let r := determineDesignSize win o container content in
    (valid_dimension (designWidth o) = true ->
     valid_dimension (designHeight o) = true ->
     Some (width r) = designWidth o /\ Some (height r) = designHeight o)
    /\ (no_explicit o ->
        forall q, aspectRatio o = VNumber q -> (q >? Fin 0) = true ->
        r = limited_size (viewport_size win container) q)
    /\ (no_explicit o -> no_ratio o ->
        valid_dimension (detectedWidth o) = true ->
        valid_dimension (detectedHeight o) = true ->
        Some (width r) = detectedWidth o /\ Some (height r) = detectedHeight o)
    /\ (no_explicit o -> no_ratio o -> no_detected o ->
        autoDetect o = true -> content <> None ->
        positive_size (Helpers.detectElementSize content) = true ->
        r = Helpers.detectElementSize content)
    /\ (no_explicit o -> no_ratio o -> no_detected o -> no_measure o content ->
        forall c, container = Some c ->
        (0 < offsetWidth c)%Z -> (0 < offsetHeight c)%Z ->
        r = {| width := of_Z (offsetWidth c); height := of_Z (offsetHeight c) |})
    /\ (no_explicit o -> no_ratio o -> no_detected o -> no_measure o content ->
        no_container container ->
        r = {| width := of_Z 1920; height := of_Z 1080 |}).
Proof.
  intros win o container content r. subst r. unfold determineDesignSize.
  repeat apply conj.
  - intros Hw Hh. rewrite (fromDesignSize_valid o Hw Hh). cbn [or_next width height].
    destruct (valid_dimension_spec _ Hw) as (w & -> & _ & _ & _ & _).
    destruct (valid_dimension_spec _ Hh) as (h & -> & _ & _ & _ & _).
    split; reflexivity.
  - intros E q Ha Hq. fold (determineDesignSize win o container content).
    now apply determineDesignSize_by_ratio.
  - intros E R Hw Hh.
    rewrite (fromDesignSize_none E), (fromAspectRatio_none win container R),
            (fromDetected_valid o Hw Hh).
    cbn [or_next width height].
    destruct (valid_dimension_spec _ Hw) as (w & -> & _ & _ & _ & _).
    destruct (valid_dimension_spec _ Hh) as (h & -> & _ & _ & _ & _).
    split; reflexivity.
  - intros E R D A C P.
    rewrite (fromDesignSize_none E), (fromAspectRatio_none win container R),
            (fromDetected_none D).
    unfold fromAutoDetect. rewrite A. destruct content as [e|]; [|contradiction].
    unfold positive_size in P. rewrite P. reflexivity.
  - intros E R D M c -> Hw Hh.
    rewrite (fromDesignSize_none E), (fromAspectRatio_none win (Some c) R),
            (fromDetected_none D), (fromAutoDetect_none M),
            (fromContainer_positive c Hw Hh).
    reflexivity.
  - intros E R D M C.
    rewrite (fromDesignSize_none E), (fromAspectRatio_none win container R),
            (fromDetected_none D), (fromAutoDetect_none M),
            (fromContainer_none container C).
    reflexivity.
Qed.

Lemma determineDesignSize_first_applicable_witness :
  let page := uniform_page 800 600 in
  let c := element page 0%nat in
  let sized :=
    {| designWidth := Some (of_Z 2560); designHeight := Some (of_Z 1440);
       aspectRatio := VUndefined; mode := VUndefined; autoDetect := false;
       detectedWidth := None; detectedHeight := None;
       onResize := false; onModeChange := false |} in
  let ratio := set_aspectRatio emptyOptions (VNumber (Fin (16 # 9))) in
  let detected := set_detected emptyOptions (of_Z 1600) (of_Z 900) in
  let auto :=
    {| designWidth := None; designHeight := None;
       aspectRatio := VUndefined; mode := VUndefined; autoDetect := true;
       detectedWidth := None; detectedHeight := None;
       onResize := false; onModeChange := false |} in
  let e :=
    {| offsetWidth := 1600; offsetHeight := 900;
       computedWidth := "1600px"; computedHeight := "900px";
       styleWidth := ""; styleHeight := "";
       boundingClientRect := boundingClientRect c; children := [] |} in
  determineDesignSize (window page) auto (Some c) (Some e)
    = Helpers.detectElementSize (Some e)
  /\ Helpers.detectElementSize (Some e) = {| width := Fin 1600; height := Fin 900 |}
  /\ Some (width (determineDesignSize (window page) sized (Some c) (Some c)))
    = Some (of_Z 2560)
  /\ determineDesignSize (window page) ratio (Some c) (Some c)
     = limited_size (viewport_size (window page) (Some c)) (Fin (16 # 9))
  /\ Some (width (determineDesignSize (window page) detected (Some c) (Some c)))
     = Some (of_Z 1600)
  /\ determineDesignSize (window page) emptyOptions (Some c) (Some c)
     = {| width := of_Z 800; height := of_Z 600 |}
  /\ determineDesignSize (window page) emptyOptions None None
     = {| width := of_Z 1920; height := of_Z 1080 |}.
Proof.
  intros page c sized ratio detected auto e.
  assert (N : no_ratio emptyOptions) by (intros q E; discriminate E).
  assert (N' : no_ratio auto) by (intros q E; discriminate E).
  repeat apply conj.
  - destruct (determineDesignSize_first_applicable (window page) auto
                (Some c) (Some e)) as (_ & _ & _ & H & _).
    apply (H eq_refl N' eq_refl eq_refl); [discriminate | reflexivity].
  - reflexivity.
  - destruct (determineDesignSize_first_applicable (window page) sized
                (Some c) (Some c)) as (H & _).
    apply (H eq_refl eq_refl).
  - destruct (determineDesignSize_first_applicable (window page) ratio
                (Some c) (Some c)) as (_ & H & _).
    apply (H eq_refl (Fin (16 # 9)) eq_refl eq_refl).
  - destruct (determineDesignSize_first_applicable (window page) detected
                (Some c) (Some c)) as (_ & _ & H & _).
    apply (H eq_refl N eq_refl eq_refl).
  - destruct (determineDesignSize_first_applicable (window page) emptyOptions
                (Some c) (Some c)) as (_ & _ & _ & _ & H & _).
    apply (H eq_refl N eq_refl (or_introl eq_refl) c eq_refl); reflexivity.
  - destruct (determineDesignSize_first_applicable (window page) emptyOptions
                None None) as (_ & _ & _ & _ & _ & H).
    apply (H eq_refl N eq_refl (or_introl eq_refl) I).
Defined.

(** *** The aspect-ratio source *)

Local Open Scope Q_scope.

Lemma round_le (x : Q) (n : Z) : x <= inject_Z n -> (Qfloor (x + (1 # 2)) <= n)%Z.
Proof.
  intro H. pose proof (Qfloor_le (x + (1 # 2))) as F.
  assert (L : inject_Z (Qfloor (x + (1 # 2))) <= inject_Z n + (1 # 2)) by lra.
  revert L. generalize (Qfloor (x + (1 # 2))). intros f L.
  unfold Qle, Qplus, inject_Z in L. simpl in L. lia.
Qed.

Lemma round_near (x : Q) : Qabs (inject_Z (Qfloor (x + (1 # 2))) - x) <= 1 # 2.
Proof.
  pose proof (Qfloor_le (x + (1 # 2))) as F.
  pose proof (Qlt_floor (x + (1 # 2))) as G.
  rewrite inject_Z_plus in G. change (inject_Z 1) with 1 in G.
  apply Qabs_Qle_condition. split; lra.
Qed.

Lemma Qdiv_mult_cancel (a b : Q) : 0 < b -> a / b * b == a.
Proof. intro H. field. intro E. rewrite E in H. discriminate H. Qed.

(** C4, as stated, fails: on a 1366 x 768 viewport with the ratio 16:9 the
    resolver gives 1365 x 768, inside the viewport but not of ratio 16/9. *)
Lemma determineDesignSize_ratio_rounded :
  let o := FitScreenJS._normalizeOptions
             (set_aspectRatio emptyOptions (VString "16:9")) in
  let page := uniform_page 1366 768 in
  let r := determineDesignSize (window page) o (Some (element page 0%nat)) None in
  (width r === Fin 1365)%js /\ (height r === Fin 768)%js
  /\ (div (width r) (height r) =/= Fin (16 # 9))%js.
Proof. vm_compute. repeat split. Qed.

(** C4, amended.  When the aspect-ratio source is reached with a positive
    finite ratio on a viewport of positive integer width and height, the size
    it gives has integer dimensions that do not exceed the viewport's; one of
    them is the viewport's own and the other is the nearest integer to the
    value the ratio asks for, hence within 1/2 of it: the ratio is met up to
    that rounding.  On a 1024 x 768 window with the ratio 16:9 and no
    container the size is 1024 x 576, whose ratio is within 0.1 of 16/9, and
    its width exceeds its height. *)
Theorem determineDesignSize_ratio_fits :
  (forall (win : Window) (o : Options) (container content : option Element)
          (vw vh : Z) (q : Q),
     no_explicit o -> aspectRatio o = VNumber (Fin q) -> 0 < q ->
     viewport_size win container = {| width := of_Z vw; height := of_Z vh |} ->
     (0 < vw)%Z -> (0 < vh)%Z ->
     exists w h : Z,
       determineDesignSize win o container content
       = {| width := of_Z w; height := of_Z h |}
       /\ (w <= vw)%Z /\ (h <= vh)%Z
       /\ ((h = vh /\ Qabs (inject_Z w - inject_Z vh * q) <= 1 # 2)
           \/ (w = vw /\ Qabs (inject_Z h - inject_Z vw / q) <= 1 # 2)))
  /\ (let o := FitScreenJS._normalizeOptions
                 (set_aspectRatio emptyOptions (VString "16:9")) in
      let win := {| innerWidth := 1024; innerHeight := 768 |} in
      let r := determineDesignSize win o None None in
      (width r === Fin 1024)%js /\ (height r === Fin 576)%js
      /\ Qabs (1024 / 576 - 16 / 9) < 1 # 10
      /\ gt (width r) (height r) = true).
Proof.
  split; [|vm_compute; repeat split].
  intros win o container content vw vh q E Ha Hq Hv Hw Hh.
  assert (Hq' : gt (Fin q) (Fin 0) = true) by (now apply Qlt_bool_iff).
  rewrite (determineDesignSize_by_ratio win container content E Ha Hq').
  rewrite Hv. unfold limited_size. cbn [width height]. unfold of_Z.
  assert (Pw : 0 < inject_Z vw) by (change 0 with (inject_Z 0); now rewrite <- Zlt_Qlt).
  assert (Ph : 0 < inject_Z vh) by (change 0 with (inject_Z 0); now rewrite <- Zlt_Qlt).
  rewrite !div_Fin by (intro Z; rewrite Z in *; discriminate).
  destruct (gt (Fin (inject_Z vw / inject_Z vh)) (Fin q)) eqn:G.
  - apply gt_Fin in G.
    exists (Qfloor (inject_Z vh * q + (1 # 2))), vh.
    split; [reflexivity|]. split; [|split; [lia|]].
    + apply round_le. apply Qlt_le_weak.
      rewrite <- (Qdiv_mult_cancel (inject_Z vw) Ph).
      rewrite (Qmult_comm (inject_Z vh) q).
      now apply Qmult_lt_r.
    + left. split; [reflexivity|]. apply round_near.
  - assert (G' : inject_Z vw / inject_Z vh <= q).
    { apply Qnot_lt_le. intro L. apply gt_Fin in L. congruence. }
    exists vw, (Qfloor (inject_Z vw / q + (1 # 2))).
    split; [reflexivity|]. split; [lia|]. split.
    + apply round_le. apply Qle_shift_div_r; [exact Hq|].
      rewrite <- (Qdiv_mult_cancel (inject_Z vw) Ph) at 1.
      rewrite (Qmult_comm (inject_Z vh) q).
      now apply Qmult_le_r.
    + right. split; [reflexivity|]. apply round_near.
Qed.

Lemma determineDesignSize_ratio_fits_witness :
  let page := uniform_page 1366 768 in
  let c := element page 0%nat in
  let o := set_aspectRatio emptyOptions (VNumber (Fin (16 # 9))) in
  exists w h : Z,
    determineDesignSize (window page) o (Some c) None
    = {| width := of_Z w; height := of_Z h |}
    /\ (w <= 1366)%Z /\ (h <= 768)%Z
    /\ ((h = 768%Z /\ Qabs (inject_Z w - inject_Z 768 * (16 # 9)) <= 1 # 2)
        \/ (w = 1366%Z /\ Qabs (inject_Z h - inject_Z 1366 / (16 # 9)) <= 1 # 2)).
Proof.
  intros page c o.
  apply (proj1 determineDesignSize_ratio_fits (window page) o (Some c) None
           1366%Z 768%Z (16 # 9)); reflexivity.
Defined.

End DesignSize.

(* ================================================================== *)
(** * Further properties *)
(* ================================================================== *)

(** ** What the two policies of the scale calculator guarantee *)

Section ScaleGuarantees.

Import Helpers.
Local Open Scope Q_scope.




(** The calculator does not guard a content dimension of zero: against a
    viewport of positive width, a content width of 0 makes the width ratio
    +Infinity, so the cover scale is +Infinity and the contain scale is the
    height ratio alone; with a viewport width of 0 as well the width ratio is
    NaN and so is the scale under either policy. *)
Theorem calculateScale_zero_content_width :
  (forall vw vh ch : Q, 0 < vw -> 0 < ch ->
     calculateScale (Fin vw) (Fin vh) (Fin 0) (Fin ch) true = Infinity false
     /\ calculateScale (Fin vw) (Fin vh) (Fin 0) (Fin ch) false = Fin (vh / ch))
  /\ (forall (vh ch : number) (cover : bool),
     calculateScale (Fin 0) vh (Fin 0) ch cover = NaN).
Proof.
  split.
  - intros vw vh ch Hvw Hch. unfold calculateScale.
    rewrite (div_Fin vh) by (intro E; rewrite E in *; discriminate).
    unfold div. cbn [Qeq_bool]. change (Qeq_bool 0 0) with true. cbv iota.
    rewrite (Qeq_bool_pos Hvw). unfold Qneg.
    replace (Qlt_bool vw 0) with false
      by (symmetry; apply Qlt_bool_false_iff; now apply Qlt_le_weak).
    split; reflexivity.
  - intros vh ch cover. unfold calculateScale.
    change (div (Fin 0) (Fin 0)) with NaN. now destruct cover.
Qed.

Lemma calculateScale_zero_content_width_witness :
  0 < 800 /\ 0 < 900 /\
  calculateScale (Fin 800) (Fin 600) (Fin 0) (Fin 900) true = Infinity false
  /\ calculateScale (Fin 800) (Fin 600) (Fin 0) (Fin 900) false = Fin (600 / 900).
Proof.
  split; [reflexivity|]. split; [reflexivity|].
  apply (proj1 calculateScale_zero_content_width 800 600 900); reflexivity.
Defined.



End ScaleGuarantees.

(** ** Measuring an element *)

Section Measuring.

Import Helpers.
Local Open Scope js_scope.

Lemma gt_not_NaN (n : number) : (n >? Fin 0) = true -> isNaN n = false.
Proof. destruct n; [discriminate | reflexivity | reflexivity]. Qed.

Lemma usable_is_positive (w h : number) :
  negb (isNaN w) && negb (isNaN h) && (w >? Fin 0) && (h >? Fin 0)
  = positive_size {| width := w; height := h |}.
Proof.
  unfold positive_size. cbn [width height].
  destruct (w >? Fin 0) eqn:W; [rewrite (gt_not_NaN _ W) | now rewrite !andb_false_r].
  destruct (h >? Fin 0) eqn:H; [rewrite (gt_not_NaN _ H) | now rewrite !andb_false_r].
  reflexivity.
Qed.

Lemma Math_max_NaN_l (n : number) : Math_max NaN n = NaN.
Proof. reflexivity. Qed.

(** [detectElementSize] takes the computed size when both its dimensions
    parse to numbers > 0; failing that, the inline size when both inline
    dimensions are set and parse to numbers > 0.  When neither holds and a
    computed dimension does not parse at all (as [auto] does not), the
    result is NaN in that dimension, whatever the children are: the
    children's extent only helps an element whose computed size parses. *)
Theorem detectElementSize_sources :
  forall e : Element,
    let computed := {| width := parseFloat (computedWidth e);
                       height := parseFloat (computedHeight e) |} in
    let inline := {| width := parseFloat (styleWidth e);
                     height := parseFloat (styleHeight e) |} in
    let inline_usable :=
      negb (String.eqb (styleWidth e) "") && negb (String.eqb (styleHeight e) "")
      && positive_size inline in
    (positive_size computed = true -> detectElementSize (Some e) = computed)
    /\ (positive_size computed = false -> inline_usable = true ->
        detectElementSize (Some e) = inline)
    /\ (positive_size computed = false -> inline_usable = false ->
        (isNaN (width computed) = true ->
           width (detectElementSize (Some e)) = NaN)
        /\ (isNaN (height computed) = true ->
           height (detectElementSize (Some e)) = NaN)
        /\ (isNaN (width computed) = true \/ isNaN (height computed) = true ->
           positive_size (detectElementSize (Some e)) = false)).
Proof.
  intros e computed inline inline_usable.
  assert (Fallback : positive_size computed = false -> inline_usable = false ->
    detectElementSize (Some e)
    = {| width := Math_max (width computed)
           (bounds_right
              (fold_left
                 (fun bounds rect =>
                    {| bounds_right := Math_max (bounds_right bounds) (DOMRect.right rect);
                       bounds_bottom := Math_max (bounds_bottom bounds) (DOMRect.bottom rect) |})
                 (children e) {| bounds_right := Fin 0; bounds_bottom := Fin 0 |})
            - DOMRect.left (boundingClientRect e));
         height := Math_max (height computed)
           (bounds_bottom
              (fold_left
                 (fun bounds rect =>
                    {| bounds_right := Math_max (bounds_right bounds) (DOMRect.right rect);
                       bounds_bottom := Math_max (bounds_bottom bounds) (DOMRect.bottom rect) |})
                 (children e) {| bounds_right := Fin 0; bounds_bottom := Fin 0 |})
            - DOMRect.top (boundingClientRect e)) |}).
  { intros C I. unfold detectElementSize. rewrite usable_is_positive.
    fold computed. rewrite C. cbn [to_boolean]. rewrite usable_is_positive.
    fold inline. subst inline_usable.
    destruct (negb (String.eqb (styleWidth e) "") && negb (String.eqb (styleHeight e) ""));
      [cbn [andb] in I; rewrite I|]; reflexivity. }
  repeat apply conj.
  - intro C. unfold detectElementSize. rewrite usable_is_positive.
    fold computed. now rewrite C.
  - intros C I. unfold detectElementSize. rewrite usable_is_positive.
    fold computed. rewrite C. cbn [to_boolean]. rewrite usable_is_positive.
    fold inline. subst inline_usable.
    apply andb_true_iff in I. destruct I as [I P]. now rewrite I, P.
  - intros C I. rewrite (Fallback C I). repeat apply conj.
    + intro N. cbn [width].
      destruct (width computed); [reflexivity | discriminate N | discriminate N].
    + intro N. cbn [height].
      destruct (height computed); [reflexivity | discriminate N | discriminate N].
    + intro N. unfold positive_size. cbn [width height].
      destruct N as [N|N].
      * destruct (width computed); [reflexivity | discriminate N | discriminate N].
      * destruct (height computed); [|discriminate N | discriminate N].
        cbn [Math_max gt]. now rewrite andb_false_r.
Qed.

Lemma detectElementSize_sources_witness :
  let rect := {| DOMRect.left := Fin 0; DOMRect.top := Fin 0;
                 DOMRect.right := Fin 0; DOMRect.bottom := Fin 0 |} in
  let sized :=
    {| offsetWidth := 500; offsetHeight := 300;
       computedWidth := "500px"; computedHeight := "300px";
       styleWidth := "200px"; styleHeight := "100px";
       boundingClientRect := rect; children := [] |} in
  let inlined :=
    {| offsetWidth := 0; offsetHeight := 0;
       computedWidth := "auto"; computedHeight := "auto";
       styleWidth := "200px"; styleHeight := "100px";
       boundingClientRect := rect; children := [] |} in
  let unsized :=
    {| offsetWidth := 0; offsetHeight := 0;
       computedWidth := "auto"; computedHeight := "0px";
       styleWidth := ""; styleHeight := "";
       boundingClientRect := rect;
       children := [{| DOMRect.left := Fin 0; DOMRect.top := Fin 0;
                       DOMRect.right := Fin 200; DOMRect.bottom := Fin 100 |}] |} in
  detectElementSize (Some sized) = {| width := Fin 500; height := Fin 300 |}
  /\ detectElementSize (Some inlined) = {| width := Fin 200; height := Fin 100 |}
  /\ width (detectElementSize (Some unsized)) = NaN
  /\ positive_size (detectElementSize (Some unsized)) = false.
Proof.
  intros rect sized inlined unsized. repeat apply conj.
  - exact (proj1 (detectElementSize_sources sized) eq_refl).
  - exact (proj1 (proj2 (detectElementSize_sources inlined)) eq_refl eq_refl).
  - exact (proj1 (proj2 (proj2 (detectElementSize_sources unsized)) eq_refl eq_refl)
             eq_refl).
  - exact (proj2 (proj2 (proj2 (proj2 (detectElementSize_sources unsized))
                           eq_refl eq_refl))
             (or_introl eq_refl)).
Defined.

Lemma Math_max_Fin_cases (a b : Q) :
  exists c, Math_max (Fin a) (Fin b) = Fin c
            /\ (a <= c)%Q /\ (b <= c)%Q /\ (c = a \/ c = b).
Proof.
  unfold Math_max, gt. destruct (Qlt_bool a b) eqn:E.
  - apply Qlt_bool_iff in E. exists b. repeat split; auto.
    + now apply Qlt_le_weak.
    + apply Qle_refl.
  - apply Qlt_bool_false_iff in E. exists a. repeat split; auto. apply Qle_refl.
Qed.

Lemma childrenBounds_extent (l : list DOMRect.t) :
  (forall r, In r l ->
     is_finite (DOMRect.right r) = true /\ is_finite (DOMRect.bottom r) = true) ->
  forall r0 b0 : Q,
  exists R B : Q,
    fold_left
      (fun bounds rect =>
         {| bounds_right := Math_max (bounds_right bounds) (DOMRect.right rect);
            bounds_bottom := Math_max (bounds_bottom bounds) (DOMRect.bottom rect) |})
      l {| bounds_right := Fin r0; bounds_bottom := Fin b0 |}
    = {| bounds_right := Fin R; bounds_bottom := Fin B |}
    /\ (r0 <= R)%Q /\ (b0 <= B)%Q
    /\ (forall r x, In r l -> DOMRect.right r = Fin x -> (x <= R)%Q)
    /\ (forall r y, In r l -> DOMRect.bottom r = Fin y -> (y <= B)%Q)
    /\ (R = r0 \/ exists r, In r l /\ DOMRect.right r = Fin R)
    /\ (B = b0 \/ exists r, In r l /\ DOMRect.bottom r = Fin B).
Proof.
  induction l as [|a l IH]; intros F r0 b0.
  - exists r0, b0. simpl. repeat split; auto using Qle_refl; intros ? ? [].
  - destruct (F a (or_introl eq_refl)) as [Fr Fb].
    destruct (DOMRect.right a) as [| |x] eqn:Ex; try discriminate Fr.
    destruct (DOMRect.bottom a) as [| |y] eqn:Ey; try discriminate Fb.
    cbn [fold_left bounds_right bounds_bottom]. rewrite Ex, Ey.
    destruct (Math_max_Fin_cases r0 x) as (r1 & -> & Lr0 & Lx & Cr).
    destruct (Math_max_Fin_cases b0 y) as (b1 & -> & Lb0 & Ly & Cb).
    destruct (IH (fun r H => F r (or_intror H)) r1 b1)
      as (R & B & E & LR & LB & UR & UB & CR & CB).
    exists R, B. rewrite E. repeat split.
    + now apply Qle_trans with r1.
    + now apply Qle_trans with b1.
    + intros r z [<-|H] Hz.
      * rewrite Ex in Hz. injection Hz as <-. now apply Qle_trans with r1.
      * now apply (UR r).
    + intros r z [<-|H] Hz.
      * rewrite Ey in Hz. injection Hz as <-. now apply Qle_trans with b1.
      * now apply (UB r).
    + destruct CR as [->|(r & H & Hr)].
      * destruct Cr as [->| ->]; [now left|]. right. exists a. split; [now left|exact Ex].
      * right. exists r. split; [now right|exact Hr].
    + destruct CB as [->|(r & H & Hr)].
      * destruct Cb as [->| ->]; [now left|]. right. exists a. split; [now left|exact Ey].
      * right. exists r. split; [now right|exact Hr].
Qed.

(** When the computed size parses but is not positive, the inline size is
    not usable, and the rectangles are finite, [detectElementSize] gives on
    each axis the largest of: the computed dimension, the distance from the
    element's own left (top) edge to the viewport origin, and the distance
    from that edge to the right (bottom) edge of each child.  A child lying
    left of (above) the viewport origin therefore does not count with its own
    edge: the extent of the children starts at 0. *)
Theorem detectElementSize_children_extent :
  forall (e : Element) (w h pl pt : Q),
    parseFloat (computedWidth e) = Fin w ->
    parseFloat (computedHeight e) = Fin h ->
    positive_size {| width := Fin w; height := Fin h |} = false ->
    negb (String.eqb (styleWidth e) "") && negb (String.eqb (styleHeight e) "")
      && positive_size {| width := parseFloat (styleWidth e);
                          height := parseFloat (styleHeight e) |} = false ->
    DOMRect.left (boundingClientRect e) = Fin pl ->
    DOMRect.top (boundingClientRect e) = Fin pt ->
    (forall r, In r (children e) ->
       is_finite (DOMRect.right r) = true /\ is_finite (DOMRect.bottom r) = true) ->
    exists W H : Q,
      detectElementSize (Some e) = {| width := Fin W; height := Fin H |}
      /\ (w <= W)%Q /\ (0 - pl <= W)%Q
      /\ (forall r x, In r (children e) -> DOMRect.right r = Fin x -> (x - pl <= W)%Q)
      /\ (W = w \/ W = (0 - pl)%Q
          \/ exists r x, In r (children e) /\ DOMRect.right r = Fin x /\ W = (x - pl)%Q)
      /\ (h <= H)%Q /\ (0 - pt <= H)%Q
      /\ (forall r y, In r (children e) -> DOMRect.bottom r = Fin y -> (y - pt <= H)%Q)
      /\ (H = h \/ H = (0 - pt)%Q
          \/ exists r y, In r (children e) /\ DOMRect.bottom r = Fin y /\ H = (y - pt)%Q).
Proof.
  intros e w h pl pt Ew Eh C I El Et F.
  unfold detectElementSize. rewrite usable_is_positive, Ew, Eh, C.
  cbn [to_boolean]. rewrite usable_is_positive.
  destruct (negb (String.eqb (styleWidth e) "") && negb (String.eqb (styleHeight e) ""));
    [cbn [andb] in I; rewrite I|];
    (destruct (childrenBounds_extent (children e) F 0%Q 0%Q)
       as (R & B & E & LR & LB & UR & UB & CR & CB);
     rewrite E, El, Et; cbn [bounds_right bounds_bottom sub];
     destruct (Math_max_Fin_cases w (R - pl)) as (W & -> & Lw & LW & CW);
     destruct (Math_max_Fin_cases h (B - pt)) as (H & -> & Lh & LH & CH);
     exists W, H; split; [reflexivity|];
     repeat apply conj; auto;
     [ apply Qle_trans with (R - pl)%Q; [lra | exact LW]
     | intros r x Hr Hx; pose proof (UR r x Hr Hx); lra
     | destruct CW as [->| ->]; [now left|]; right;
       destruct CR as [->|(r & Hr & Hx)];
       [now left | right; exists r, R; auto]
     | apply Qle_trans with (B - pt)%Q; [lra | exact LH]
     | intros r y Hr Hy; pose proof (UB r y Hr Hy); lra
     | destruct CH as [->| ->]; [now left|]; right;
       destruct CB as [->|(r & Hr & Hy)];
       [now left | right; exists r, B; auto] ]).
Qed.

Lemma detectElementSize_children_extent_witness :
  let e :=
    {| offsetWidth := 0; offsetHeight := 0;
       computedWidth := "0px"; computedHeight := "0px";
       styleWidth := ""; styleHeight := "";
       boundingClientRect :=
         {| DOMRect.left := Fin 10; DOMRect.top := Fin 20;
            DOMRect.right := Fin 10; DOMRect.bottom := Fin 20 |};
       children := [{| DOMRect.left := Fin 10; DOMRect.top := Fin 20;
                       DOMRect.right := Fin 210; DOMRect.bottom := Fin 120 |}] |} in
  exists W H : Q,
    detectElementSize (Some e) = {| width := Fin W; height := Fin H |}
    /\ (0 <= W)%Q /\ (0 - 10 <= W)%Q
    /\ (forall r x, In r (children e) -> DOMRect.right r = Fin x -> (x - 10 <= W)%Q)
    /\ (W = 0%Q \/ W = (0 - 10)%Q
        \/ exists r x, In r (children e) /\ DOMRect.right r = Fin x /\ W = (x - 10)%Q)
    /\ (0 <= H)%Q /\ (0 - 20 <= H)%Q
    /\ (forall r y, In r (children e) -> DOMRect.bottom r = Fin y -> (y - 20 <= H)%Q)
    /\ (H = 0%Q \/ H = (0 - 20)%Q
        \/ exists r y, In r (children e) /\ DOMRect.bottom r = Fin y /\ H = (y - 20)%Q).
Proof.
  intro e.
  apply (@detectElementSize_children_extent e 0%Q 0%Q 10%Q 20%Q);
    try reflexivity.
  intros r [<-|[]]. split; reflexivity.
Defined.

End Measuring.

(** ** More on the design-size resolver *)

Section Resolver.

Import Detector.
Local Open Scope js_scope.

Lemma fromDesignSize_positive (o : Options) (s : Size) :
  fromDesignSize o = Some s -> positive_size s = true.
Proof.
  unfold fromDesignSize, positive_size.
  destruct (to_number (designWidth o) >? Fin 0) eqn:W;
    [|now rewrite ?andb_false_r].
  destruct (to_number (designHeight o) >? Fin 0) eqn:H;
    [|now rewrite ?andb_false_r].
  destruct (_ && _); [|discriminate].
  intro E. injection E as <-. cbn [width height]. now rewrite W, H.
Qed.

Lemma fromDetected_positive (o : Options) (s : Size) :
  fromDetected o = Some s -> positive_size s = true.
Proof.
  unfold fromDetected, positive_size.
  destruct (to_number (detectedWidth o) >? Fin 0) eqn:W;
    [|now rewrite ?andb_false_r].
  destruct (to_number (detectedHeight o) >? Fin 0) eqn:H;
    [|now rewrite ?andb_false_r].
  destruct (_ && _); [|discriminate].
  intro E. injection E as <-. cbn [width height]. now rewrite W, H.
Qed.

Lemma fromAutoDetect_positive (o : Options) (content : option Element) (s : Size) :
  fromAutoDetect o content = Some s -> positive_size s = true.
Proof.
  unfold fromAutoDetect, positive_size.
  destruct (autoDetect o); [|discriminate].
  destruct content as [e|]; [|discriminate].
  destruct (_ && _) eqn:P; [|discriminate].
  intro E. injection E as <-. exact P.
Qed.

Lemma fromContainer_positive_size (container : option Element) (s : Size) :
  fromContainer container = Some s -> positive_size s = true.
Proof.
  unfold fromContainer, positive_size.
  destruct container as [c|]; [|discriminate].
  destruct (_ && _) eqn:P; [|discriminate].
  intro E. injection E as <-. exact P.
Qed.

Lemma determineDesignSize_positive_of_no_ratio :
  forall (win : Window) (o : Options) (container content : option Element),
    no_ratio o ->
    positive_size (determineDesignSize win o container content) = true.
Proof.
  intros win o container content R. unfold determineDesignSize.
  rewrite (fromAspectRatio_none win container R).
  destruct (fromDesignSize o) as [s|] eqn:E1;
    [exact (fromDesignSize_positive o E1)|].
  cbn [or_next].
  destruct (fromDetected o) as [s|] eqn:E2;
    [exact (fromDetected_positive o E2)|].
  destruct (fromAutoDetect o content) as [s|] eqn:E3;
    [exact (fromAutoDetect_positive o content E3)|].
  destruct (fromContainer container) as [s|] eqn:E4;
    [exact (fromContainer_positive_size container E4)|].
  reflexivity.
Qed.

(** Unless the configured ratio is a number > 0, the resolver returns a size
    whose width and height are both > 0, whatever the options, the window,
    the container and the content are: a caller never gets a zero, negative
    or NaN dimension from any source but the aspect-ratio one. *)
Theorem determineDesignSize_positive_without_ratio :
  forall (win : Window) (o : Options) (container content : option Element),
    no_ratio o ->
    positive_size (determineDesignSize win o container content) = true.
Proof. exact determineDesignSize_positive_of_no_ratio. Qed.

Lemma determineDesignSize_positive_without_ratio_witness :
  let page := uniform_page 0 0 in
  positive_size
    (determineDesignSize (window page)
       (set_detected emptyOptions (of_Z 0) NaN)
       (Some (element page 0%nat)) (Some (element page 1%nat))) = true.
Proof.
  intro page.
  apply determineDesignSize_positive_without_ratio.
  intros q E. discriminate E.
Defined.

(** *** From the ratio string to the resolved size *)

Lemma normalize_string (o : Options) (s : string) :
  FitScreenJS._normalizeOptions (set_aspectRatio o (VString s))
  = if String.eqb s "" then set_aspectRatio o (VString s)
    else set_aspectRatio o (Helpers.parseAspectRatio (VString s)).
Proof.
  unfold FitScreenJS._normalizeOptions. cbn [aspectRatio set_aspectRatio to_boolean].
  destruct (String.eqb s ""); reflexivity.
Qed.

Lemma parseAspectRatio_result (v : value) :
  Helpers.parseAspectRatio v = VNull
  \/ exists q, Helpers.parseAspectRatio v = VNumber q.
Proof.
  unfold Helpers.parseAspectRatio.
  destruct (negb (to_boolean v)); [now left|].
  destruct v; try now left.
  destruct (split_colon s) as [|p0 [|p1 [|p2 l]]]; try now left.
  destruct (_ || _); [now left | right; eauto].
Qed.

(** An orchestrator configured with the ratio as a string resolves its
    design size from that ratio exactly when the string parses to a number
    > 0.  A string that does not parse, the empty string, a ratio of zero and
    a negative ratio all leave the resolver as if no ratio had been
    configured, so that the next sources are tried. *)
Theorem aspectRatio_string_resolution :
  forall (win : Window) (o : Options) (s : string)
         (container content : option Element),
    no_explicit o ->
    let o' := FitScreenJS._normalizeOptions (set_aspectRatio o (VString s)) in
    (forall q, Helpers.parseAspectRatio (VString s) = VNumber q ->
       (q >? Fin 0) = true ->
       determineDesignSize win o' container content
       = limited_size (viewport_size win container) q)
    /\ ((forall q, Helpers.parseAspectRatio (VString s) = VNumber q ->
           (q >? Fin 0) = false) ->
        determineDesignSize win o' container content
        = determineDesignSize win (set_aspectRatio o VUndefined) container content
        /\ positive_size (determineDesignSize win o' container content) = true).
Proof.
  intros win o s container content E o'. subst o'.
  rewrite normalize_string. split.
  - intros q P G.
    destruct (String.eqb s "") eqn:S.
    + apply String.eqb_eq in S. subst s. discriminate P.
    + apply determineDesignSize_by_ratio; [exact E | exact P | exact G].
  - intro N.
    assert (R : no_ratio (if String.eqb s "" then set_aspectRatio o (VString s)
                          else set_aspectRatio o (Helpers.parseAspectRatio (VString s)))).
    { destruct (String.eqb s ""); intros q H; cbn [aspectRatio set_aspectRatio] in H;
        [discriminate H | now apply N]. }
    split; [|now apply determineDesignSize_positive_of_no_ratio].
    unfold determineDesignSize.
    rewrite (fromAspectRatio_none win container R).
    rewrite (@fromAspectRatio_none win (set_aspectRatio o VUndefined) container)
      by (intros q H; discriminate H).
    destruct (String.eqb s ""); reflexivity.
Qed.

Lemma aspectRatio_string_resolution_witness :
  let page := uniform_page 800 600 in
  let c := Some (element page 0%nat) in
  determineDesignSize (window page)
    (FitScreenJS._normalizeOptions (set_aspectRatio emptyOptions (VString "4:3")))
    c None
  = limited_size (viewport_size (window page) c) (Fin (4 / 3))
  /\ determineDesignSize (window page)
       (FitScreenJS._normalizeOptions (set_aspectRatio emptyOptions (VString "-16:9")))
       c None
     = determineDesignSize (window page) (set_aspectRatio emptyOptions VUndefined)
         c None.
Proof.
  intros page c. split.
  - apply (proj1 (@aspectRatio_string_resolution (window page) emptyOptions "4:3"
                    c None eq_refl) (Fin (4 / 3)) eq_refl eq_refl).
  - apply (proj2 (@aspectRatio_string_resolution (window page) emptyOptions "-16:9"
                    c None eq_refl)).
    intros q H. injection H as <-. reflexivity.
Defined.

(** [_normalizeOptions] changes no option but [aspectRatio], leaves an
    [aspectRatio] that is not a string as it is, never leaves a non-empty
    string there, and normalizing twice is normalizing once. *)
Theorem normalizeOptions_idempotent :
  forall o : Options,
    let n := FitScreenJS._normalizeOptions o in
    FitScreenJS._normalizeOptions n = n
    /\ n = set_aspectRatio o (aspectRatio n)
    /\ ((forall s, aspectRatio o <> VString s) -> n = o)
    /\ (forall s, aspectRatio n = VString s -> s = ""%string).
Proof.
  intros [dw dh a m ad tw th r c]. unfold FitScreenJS._normalizeOptions.
  cbn [aspectRatio].
  destruct a as [| |b|q|s|i]; cbn [to_boolean];
    try (repeat apply conj; try reflexivity; intros s' H; discriminate H).
  destruct (String.eqb s "") eqn:S; cbn [negb].
  - apply String.eqb_eq in S. subst s. repeat apply conj; try reflexivity.
    intros s' H. now injection H as <-.
  - destruct (parseAspectRatio_result (VString s)) as [P|[q P]];
      rewrite P; cbn [set_aspectRatio aspectRatio to_boolean];
      (repeat apply conj; try reflexivity;
       [ intro H; exfalso; now apply (H s) | intros s' H; discriminate H ]).
Qed.

Lemma normalizeOptions_idempotent_witness :
  FitScreenJS._normalizeOptions (set_aspectRatio emptyOptions (VNumber (Fin 2)))
  = set_aspectRatio emptyOptions (VNumber (Fin 2)).
Proof.
  apply (proj1 (proj2 (proj2 (normalizeOptions_idempotent
           (set_aspectRatio emptyOptions (VNumber (Fin 2))))))).
  intros s H. discriminate H.
Defined.

End Resolver.

(** ** More on the mode state machine *)

Section StateMachine.

Import Modes.
Local Open Scope js_scope.

Lemma set_currentScaleXY_same (s : Scaler.t) :
  Scaler.set_currentScaleXY s (Scaler.currentScaleX s) (Scaler.currentScaleY s) = s.
Proof. now destruct s. Qed.

Lemma refresh_twice :
  (forall (page : Page) (s : Scaler.t),
     let r := Scaler.refresh page s in
     Scaler.refresh page (fst r) = r)
  /\ (forall (page : Page) (u : ScalerUniform.t),
     let r := ScalerUniform.refresh page u in
     ScalerUniform.refresh page (fst r) = r).
Proof.
  split.
  - intros page [o c e d sc sx sy m i].
    unfold Scaler.refresh, Scaler.applyScaling, Scaler.calculateCurrentScale,
      Scaler.isFullscreen.
    cbn [Scaler.container Scaler.content Scaler.designSize Scaler.currentMode].
    destruct c as [c|]; [|reflexivity].
    destruct e as [e|]; [|reflexivity].
    destruct (negb (truthy (width d)) || negb (truthy (height d))) eqn:G;
      destruct (value_strict_eq m (VString FULLSCREEN)) eqn:F;
      destruct (onResize o) eqn:R;
      unfold Scaler.set_isInitialized, Scaler.set_currentScale,
        Scaler.set_currentScaleXY, bind, ret, emit, when;
      repeat (progress (simpl; rewrite ?G, ?F, ?R)); reflexivity.
  - intros page [o c e d sc m i].
    unfold ScalerUniform.refresh, ScalerUniform.applyScaling,
      ScalerUniform.calculateCurrentScale, ScalerUniform.isFullscreen.
    cbn [ScalerUniform.container ScalerUniform.content ScalerUniform.designSize
         ScalerUniform.currentMode].
    destruct c as [c|]; [|reflexivity].
    destruct e as [e|]; [|reflexivity].
    destruct (negb (truthy (width d)) || negb (truthy (height d))) eqn:G;
      destruct (value_strict_eq m (VString FULLSCREEN)) eqn:F;
      destruct (onResize o) eqn:R;
      unfold ScalerUniform.set_isInitialized, ScalerUniform.set_currentScale,
        bind, ret, emit, when;
      repeat (progress (simpl; rewrite ?G, ?F, ?R)); reflexivity.
Qed.

(** Refreshing twice on an unchanged page is refreshing once: the second
    refresh leaves the instance as the first left it and makes the same
    calls, with the same scale, as the first.  This holds of both revisions
    of the scaler. *)
Theorem refresh_idempotent :
  (forall (page : Page) (s : Scaler.t),
     let r := Scaler.refresh page s in
     Scaler.refresh page (fst r) = r)
  /\ (forall (page : Page) (u : ScalerUniform.t),
     let r := ScalerUniform.refresh page u in
     ScalerUniform.refresh page (fst r) = r).
Proof. exact refresh_twice. Qed.

Ltac crunch G F R :=
  repeat (progress
            (cbn -[Helpers.calculateScale Helpers.calculateNonProportionalScale
                   of_Z truthy];
             rewrite ?G, ?F, ?R)).

Lemma scaler_ext (a b : Scaler.t) :
  Scaler.options a = Scaler.options b ->
  Scaler.container a = Scaler.container b ->
  Scaler.content a = Scaler.content b ->
  Scaler.designSize a = Scaler.designSize b ->
  Scaler.currentScale a = Scaler.currentScale b ->
  Scaler.currentScaleX a = Scaler.currentScaleX b ->
  Scaler.currentScaleY a = Scaler.currentScaleY b ->
  Scaler.currentMode a = Scaler.currentMode b ->
  Scaler.isInitialized a = Scaler.isInitialized b ->
  a = b.
Proof. destruct a, b; simpl; intros; subst; reflexivity. Qed.

Lemma setMode_changed (page : Page) (s : Scaler.t) (m : value) :
  value_strict_eq (Scaler.currentMode s) m = false ->
  Scaler.isInitialized s = true ->
  let r := Scaler.refresh page (Scaler.set_currentMode s m) in
  Scaler.setMode page s m
  = (fst r, snd r ++ (if onModeChange (Scaler.options s)
                      then [OnModeChange m] else [])).
Proof.
  intros Hd Hi r. unfold Scaler.setMode.
  cbn [Scaler.currentMode Scaler.set_currentMode Scaler.isInitialized].
  rewrite Hd, Hi. cbn [negb andb].
  destruct (refresh_frame page (Scaler.set_currentMode s m))
    as (Fo & _ & _ & _ & Fm).
  fold r in Fo, Fm.
  cbn [Scaler.options Scaler.currentMode Scaler.set_currentMode] in Fo, Fm.
  fold r. destruct r as [s2 tr]. cbn [fst snd] in *.
  unfold bind, ret, when, emit. rewrite Fo, Fm.
  destruct (onModeChange (Scaler.options s)); cbn; now rewrite ?app_nil_r.
Qed.

(** What a refresh of a bound scaler in a mode other than fullscreen is. *)
Lemma refresh_not_fullscreen (page : Page) (t : Scaler.t) (c e : node) :
  Scaler.container t = Some c -> Scaler.content t = Some e ->
  Scaler.isFullscreen t = false ->
  let v := snd (Scaler.calculateCurrentScale page t) in
  Scaler.refresh page t
  = (Scaler.set_isInitialized (Scaler.set_currentScale t v) true,
     ApplyProportionalMode c e v
     :: (if onResize (Scaler.options t)
         then [OnResize (of_Z (offsetWidth (element page c)))
                 (of_Z (offsetHeight (element page c))) v None]
         else []))
  /\ v = (if negb (truthy (width (Scaler.designSize t)))
             || negb (truthy (height (Scaler.designSize t)))
          then Fin 1
          else Helpers.calculateScale
                 (of_Z (offsetWidth (element page c)))
                 (of_Z (offsetHeight (element page c)))
                 (width (Scaler.designSize t)) (height (Scaler.designSize t))
                 false).
Proof.
  intros Hc He Hf v.
  assert (Ec : Scaler.calculateCurrentScale page t
               = (t, if negb (truthy (width (Scaler.designSize t)))
                        || negb (truthy (height (Scaler.designSize t)))
                     then Fin 1
                     else Helpers.calculateScale
                            (of_Z (offsetWidth (element page c)))
                            (of_Z (offsetHeight (element page c)))
                            (width (Scaler.designSize t))
                            (height (Scaler.designSize t)) false)).
  { unfold Scaler.calculateCurrentScale. rewrite Hc, Hf.
    cbv beta iota zeta. rewrite ?Hf.
    now destruct (negb _ || negb _). }
  subst v. rewrite Ec. cbn [snd]. split; [|reflexivity].
  unfold Scaler.refresh, Scaler.applyScaling. rewrite Hc, He, Ec.
  match goal with |- context [Scaler.set_currentScale t ?x] => generalize x end.
  intro v.
  unfold Scaler.isFullscreen in *. cbn [Scaler.currentMode Scaler.set_currentScale].
  rewrite Hf. cbn [Scaler.options Scaler.currentScale Scaler.set_currentScale].
  unfold bind, ret, emit, when.
  now destruct (onResize (Scaler.options t)).
Qed.

(** Switching an initialized, bound scaler from proportional to fullscreen
    and back leaves it exactly as a plain refresh would, design size and
    scale included, except for the independent factors, which keep the
    values the fullscreen refresh gave them.  Each of the two switches calls
    [onModeChange], when there is one, after its refresh. *)
Theorem setMode_round_trip :
  forall (page : Page) (s : Scaler.t) (c e : node),
    Scaler.container s = Some c -> Scaler.content s = Some e ->
    Scaler.isInitialized s = true ->
    Scaler.currentMode s = VString PROPORTIONAL ->
    let r1 := Scaler.setMode page s (VString FULLSCREEN) in
    let r2 := Scaler.setMode page (fst r1) (VString PROPORTIONAL) in
    fst r2 = Scaler.set_currentScaleXY (fst (Scaler.refresh page s))
               (Scaler.currentScaleX (fst r1)) (Scaler.currentScaleY (fst r1))
    /\ Scaler.designSize (fst r2) = Scaler.designSize s
    /\ Scaler.currentScale (fst r2) = Scaler.currentScale (fst (Scaler.refresh page s))
    /\ snd r2 = snd (Scaler.refresh page s)
                ++ (if onModeChange (Scaler.options s)
                    then [OnModeChange (VString PROPORTIONAL)] else [])
    /\ snd r1 = snd (Scaler.refresh page (Scaler.set_currentMode s (VString FULLSCREEN)))
                ++ (if onModeChange (Scaler.options s)
                    then [OnModeChange (VString FULLSCREEN)] else []).
Proof.
  intros page s c e Hc He Hi Hm r1 r2.
  (* the first switch *)
  assert (E1 : r1 = (fst (Scaler.refresh page (Scaler.set_currentMode s (VString FULLSCREEN))),
                     snd (Scaler.refresh page (Scaler.set_currentMode s (VString FULLSCREEN)))
                     ++ (if onModeChange (Scaler.options s)
                         then [OnModeChange (VString FULLSCREEN)] else []))).
  { subst r1. apply setMode_changed; [now rewrite Hm | exact Hi]. }
  set (sF := Scaler.set_currentMode s (VString FULLSCREEN)) in *.
  assert (HcF : Scaler.container sF = Some c) by exact Hc.
  assert (HeF : Scaler.content sF = Some e) by exact He.
  destruct (refresh_frame page sF) as (Fo & Fc & Fe & Fd & Fm).
  destruct (refresh_bound page sF HcF HeF) as (trF & EF & _).
  set (s1 := fst (Scaler.refresh page sF)) in *.
  assert (Hi1 : Scaler.isInitialized s1 = true) by (subst s1; now rewrite EF).
  cbn [Scaler.options Scaler.container Scaler.content Scaler.designSize
       Scaler.currentMode Scaler.set_currentMode] in Fo, Fc, Fe, Fd, Fm.
  subst sF.
  assert (F1 : fst r1 = s1) by now rewrite E1.
  (* the second switch *)
  assert (E2 : r2 = (fst (Scaler.refresh page (Scaler.set_currentMode s1 (VString PROPORTIONAL))),
                     snd (Scaler.refresh page (Scaler.set_currentMode s1 (VString PROPORTIONAL)))
                     ++ (if onModeChange (Scaler.options s1)
                         then [OnModeChange (VString PROPORTIONAL)] else []))).
  { subst r2. rewrite F1. apply setMode_changed; [now rewrite Fm | exact Hi1]. }
  set (t := Scaler.set_currentMode s1 (VString PROPORTIONAL)) in *.
  assert (Hft : Scaler.isFullscreen t = false) by reflexivity.
  assert (Hfs : Scaler.isFullscreen s = false)
    by (unfold Scaler.isFullscreen; now rewrite Hm).
  assert (Hct : Scaler.container t = Some c) by (subst t; cbn; now rewrite Fc).
  assert (Het : Scaler.content t = Some e) by (subst t; cbn; now rewrite Fe).
  destruct (refresh_not_fullscreen page t Hct Het Hft) as (Rt & Vt).
  destruct (refresh_not_fullscreen page s Hc He Hfs) as (Rs & Vs).
  assert (Hdt : Scaler.designSize t = Scaler.designSize s) by (subst t; cbn; exact Fd).
  assert (Hot : Scaler.options t = Scaler.options s) by (subst t; cbn; exact Fo).
  assert (V : snd (Scaler.calculateCurrentScale page t)
              = snd (Scaler.calculateCurrentScale page s)).
  { rewrite Vt, Vs, Hdt. reflexivity. }
  rewrite V, Hot in Rt.
  assert (S2 : fst r2
               = Scaler.set_currentScaleXY (fst (Scaler.refresh page s))
                   (Scaler.currentScaleX s1) (Scaler.currentScaleY s1)).
  { rewrite E2, Rt, Rs. cbn [fst]. apply scaler_ext; cbn; auto. }
  rewrite F1. repeat apply conj.
  - exact S2.
  - rewrite S2. cbn [Scaler.designSize Scaler.set_currentScaleXY].
    now destruct (refresh_frame page s) as (_ & _ & _ & D & _).
  - rewrite S2. reflexivity.
  - rewrite E2, Rt, Rs. cbn [snd]. now rewrite Fo.
  - now rewrite E1.
Qed.

Lemma setMode_round_trip_witness :
  let page := uniform_page 800 600 in
  let s := fst (Scaler.setDesignSize page
                  (Scaler.setElements (Scaler.constructor callbackOptions)
                     0%nat 1%nat) (of_Z 1600) (of_Z 900)) in
  let r1 := Scaler.setMode page s (VString FULLSCREEN) in
  let r2 := Scaler.setMode page (fst r1) (VString PROPORTIONAL) in
  Scaler.designSize (fst r2) = Scaler.designSize s
  /\ Scaler.currentScale (fst r2) = Scaler.currentScale s
  /\ snd r2 = snd (Scaler.refresh page s) ++ [OnModeChange (VString PROPORTIONAL)].
Proof.
  intros page s r1 r2.
  destruct (@setMode_round_trip page s 0%nat 1%nat eq_refl eq_refl eq_refl eq_refl)
    as (_ & Hd & Hs & Ht & _).
  split; [exact Hd | split; [exact Hs | exact Ht]].
Defined.

(** The two revisions of the scaler agree on everything the older one has:
    from instances that differ only by the independent factors, [refresh],
    [setDesignSize], [setMode] and [calculateCurrentScale] give the same
    scale, the same fields and the same calls in the same order, the newer
    revision only adding the pair of factors to its fullscreen calls. *)
Theorem scaler_revisions_agree :
  forall (page : Page) (s : Scaler.t),
    ScalerUniform.calculateCurrentScale page (forget s)
      = snd (Scaler.calculateCurrentScale page s)
    /\ ScalerUniform.refresh page (forget s)
       = (forget (fst (Scaler.refresh page s)),
          map erase (snd (Scaler.refresh page s)))
    /\ (forall w h : number,
        ScalerUniform.setDesignSize page (forget s) w h
        = (forget (fst (Scaler.setDesignSize page s w h)),
           map erase (snd (Scaler.setDesignSize page s w h))))
    /\ (forall m : value,
        ScalerUniform.setMode page (forget s) m
        = (forget (fst (Scaler.setMode page s m)),
           map erase (snd (Scaler.setMode page s m)))).
Proof.
  assert (Calc : forall page s,
    ScalerUniform.calculateCurrentScale page (forget s)
    = snd (Scaler.calculateCurrentScale page s)).
  { intros page [o c e d sc sx sy m i].
    unfold ScalerUniform.calculateCurrentScale, Scaler.calculateCurrentScale,
      ScalerUniform.isFullscreen, Scaler.isFullscreen, forget.
    simpl. destruct c as [c|]; [|reflexivity].
    destruct (negb (truthy (width d)) || negb (truthy (height d))); [reflexivity|].
    destruct (value_strict_eq m (VString FULLSCREEN)) eqn:F; simpl; rewrite ?F;
      reflexivity. }
  assert (Refresh : forall page s,
    ScalerUniform.refresh page (forget s)
    = (forget (fst (Scaler.refresh page s)),
       map erase (snd (Scaler.refresh page s)))).
  { intros page [o c e d sc sx sy m i].
    unfold ScalerUniform.refresh, Scaler.refresh, ScalerUniform.applyScaling,
      Scaler.applyScaling, ScalerUniform.calculateCurrentScale,
      Scaler.calculateCurrentScale, ScalerUniform.isFullscreen,
      Scaler.isFullscreen, forget, bind, ret, emit, when.
    simpl. destruct c as [c|]; [|reflexivity].
    destruct e as [e|]; [|reflexivity].
    destruct (negb (truthy (width d)) || negb (truthy (height d))) eqn:G;
      destruct (value_strict_eq m (VString FULLSCREEN)) eqn:F;
      destruct (onResize o) eqn:R;
      crunch G F R; reflexivity. }
  intros page s. repeat apply conj.
  - apply Calc.
  - apply Refresh.
  - intros w h. unfold ScalerUniform.setDesignSize, Scaler.setDesignSize.
    destruct ((w >? Fin 0) && (h >? Fin 0)); [|reflexivity].
    rewrite <- Refresh. now destruct s.
  - intro m. unfold ScalerUniform.setMode, Scaler.setMode.
    replace (ScalerUniform.set_currentMode (forget s) m)
      with (forget (Scaler.set_currentMode s m)) by (now destruct s).
    replace (ScalerUniform.currentMode (forget s)) with (Scaler.currentMode s)
      by (now destruct s).
    replace (ScalerUniform.currentMode (forget (Scaler.set_currentMode s m)))
      with (Scaler.currentMode (Scaler.set_currentMode s m)) by (now destruct s).
    replace (ScalerUniform.isInitialized (forget (Scaler.set_currentMode s m)))
      with (Scaler.isInitialized (Scaler.set_currentMode s m)) by (now destruct s).
    destruct (negb _ && _); [|reflexivity].
    rewrite Refresh.
    destruct (Scaler.refresh page (Scaler.set_currentMode s m)) as [s2 tr].
    unfold bind, ret, emit, when. cbn [fst snd].
    replace (ScalerUniform.options (forget s2)) with (Scaler.options s2)
      by (now destruct s2).
    replace (ScalerUniform.currentMode (forget s2)) with (Scaler.currentMode s2)
      by (now destruct s2).
    destruct (onModeChange (Scaler.options s2)); cbn;
      now rewrite ?app_nil_r, ?map_app.
Qed.

End StateMachine.

(** ** The scale is never NaN *)

Section NumericScale.

Import Modes.
Local Open Scope js_scope.

Lemma div_by_truthy_not_NaN (a : Q) (d : number) :
  truthy d = true -> isNaN (Fin a / d) = false.
Proof.
  destruct d as [|n|q]; simpl; try discriminate; [reflexivity|].
  rewrite negb_true_iff. now intros ->.
Qed.

Lemma Math_max_not_NaN (a b : number) :
  isNaN a = false -> isNaN b = false -> isNaN (Math_max a b) = false.
Proof.
  destruct a, b; try discriminate; intros _ _; unfold Math_max;
    now destruct (gt _ _).
Qed.

Lemma Math_min_not_NaN (a b : number) :
  isNaN a = false -> isNaN b = false -> isNaN (Math_min a b) = false.
Proof.
  destruct a, b; try discriminate; intros _ _; unfold Math_min;
    now destruct (gt _ _).
Qed.

Lemma calculateScale_not_NaN (cw ch : Z) (dw dh : number) (cover : bool) :
  truthy dw = true -> truthy dh = true ->
  isNaN (Helpers.calculateScale (of_Z cw) (of_Z ch) dw dh cover) = false.
Proof.
  intros Hw Hh. unfold Helpers.calculateScale, of_Z.
  destruct cover; [apply Math_max_not_NaN | apply Math_min_not_NaN];
    now apply div_by_truthy_not_NaN.
Qed.

Lemma currentScale_not_NaN :
  (forall (page : Page) (s : Scaler.t),
     isNaN (snd (Scaler.calculateCurrentScale page s)) = false)
  /\ (forall (page : Page) (u : ScalerUniform.t),
     isNaN (ScalerUniform.calculateCurrentScale page u) = false).
Proof.
  split.
  - intros page s. unfold Scaler.calculateCurrentScale.
    destruct (Scaler.container s) as [c|]; [|reflexivity].
    destruct (truthy (width (Scaler.designSize s))) eqn:W; [|reflexivity].
    destruct (truthy (height (Scaler.designSize s))) eqn:H; [|reflexivity].
    cbn [negb orb snd].
    destruct (Scaler.isFullscreen s); cbn [Scaler.designSize Scaler.set_currentScaleXY];
      now apply calculateScale_not_NaN.
  - intros page u. unfold ScalerUniform.calculateCurrentScale.
    destruct (ScalerUniform.container u) as [c|]; [|reflexivity].
    destruct (truthy (width (ScalerUniform.designSize u))) eqn:W; [|reflexivity].
    destruct (truthy (height (ScalerUniform.designSize u))) eqn:H; [|reflexivity].
    cbn [negb orb]. now apply calculateScale_not_NaN.
Qed.

(** In every state and on every page, [calculateCurrentScale] returns a
    number, never NaN, in both revisions: its guard lets a division through
    only when the design width and height are neither zero nor NaN, and the
    container's offsets are integers, so that no quotient is 0/0 or an
    infinity over an infinity.  Nothing is said of the size of the number:
    the model's finite numbers are exact, and a quotient too large for
    binary64 is an infinity in the code. *)
Theorem calculateCurrentScale_never_NaN :
  (forall (page : Page) (s : Scaler.t),
     isNaN (snd (Scaler.calculateCurrentScale page s)) = false)
  /\ (forall (page : Page) (u : ScalerUniform.t),
     isNaN (ScalerUniform.calculateCurrentScale page u) = false).
Proof. exact currentScale_not_NaN. Qed.

Lemma refresh_scale_not_NaN (page : Page) (s : Scaler.t) :
  isNaN (Scaler.currentScale s) = false ->
  isNaN (Scaler.currentScale (fst (Scaler.refresh page s))) = false.
Proof.
  intro F.
  destruct (Scaler.container s) as [c|] eqn:Hc;
    [destruct (Scaler.content s) as [e|] eqn:He|].
  - destruct (refresh_bound page s Hc He) as (tr & E & _). rewrite E.
    cbn [fst Scaler.currentScale Scaler.set_isInitialized Scaler.set_currentScale].
    apply (proj1 currentScale_not_NaN).
  - unfold Scaler.refresh. now rewrite Hc, He.
  - unfold Scaler.refresh. now rewrite Hc.
Qed.

Lemma refresh_ok (page : Page) (s : Scaler.t) :
  scaler_ok s -> scaler_ok (fst (Scaler.refresh page s)).
Proof.
  intros (F & D & M).
  destruct (refresh_frame page s) as (_ & _ & _ & Fd & Fm).
  repeat split; [now apply refresh_scale_not_NaN | now rewrite Fd | now rewrite Fm].
Qed.

Lemma set_designSize_ok (s : Scaler.t) (w h : number) :
  (w >? Fin 0) && (h >? Fin 0) = true ->
  scaler_ok s -> scaler_ok (Scaler.set_designSize s {| width := w; height := h |}).
Proof.
  intros G (F & _ & M). repeat split; [exact F | right; exact G | exact M].
Qed.

Lemma setDesignSize_ok (page : Page) (s : Scaler.t) (w h : number) :
  scaler_ok s -> scaler_ok (fst (Scaler.setDesignSize page s w h)).
Proof.
  intro K. unfold Scaler.setDesignSize.
  destruct ((w >? Fin 0) && (h >? Fin 0)) eqn:G; [|exact K].
  apply refresh_ok. now apply set_designSize_ok.
Qed.

Lemma validateMode_cases (v : value) :
  validateMode v = PROPORTIONAL \/ validateMode v = FULLSCREEN.
Proof.
  destruct v as [| |b|n|s|i]; try (left; unfold validateMode; now destruct (negb _)).
  rewrite validateMode_string.
  destruct (String.eqb (toLowerCase s) PROPORTIONAL) eqn:P.
  - left. now apply String.eqb_eq in P.
  - destruct (String.eqb (toLowerCase s) FULLSCREEN) eqn:F.
    + right. now apply String.eqb_eq in F.
    + left. reflexivity.
Qed.

Lemma setMode_ok (page : Page) (s : Scaler.t) (v : value) :
  scaler_ok s -> scaler_ok (fst (Scaler.setMode page s (VString (validateMode v)))).
Proof.
  intros (F & D & M).
  assert (K : scaler_ok (Scaler.set_currentMode s (VString (validateMode v)))).
  { repeat split; [exact F | exact D |].
    cbn [Scaler.currentMode Scaler.set_currentMode].
    destruct (validateMode_cases v) as [-> | ->]; auto. }
  unfold Scaler.setMode. destruct (negb _ && _); [|exact K].
  rewrite bind_fst, bind_fst. cbn [fst ret]. now apply refresh_ok.
Qed.

End NumericScale.

(** ** The orchestrator over sequences of calls *)

Section Orchestrator.

Import Modes.
Local Open Scope js_scope.

Lemma registrations_app (t1 t2 : list event) :
  registrations (t1 ++ t2) = (registrations t1 + registrations t2)%nat.
Proof. unfold registrations. now rewrite filter_app, length_app. Qed.

Lemma setDesignSize_unregistering (page : Page) (s : Scaler.t) (w h : number) :
  registrations (snd (Scaler.setDesignSize page s w h)) = O.
Proof.
  unfold Scaler.setDesignSize.
  destruct (gt w (Fin 0) && gt h (Fin 0)); [apply refresh_quiet | reflexivity].
Qed.

Lemma setMode_unregistering (page : Page) (s : Scaler.t) (m : value) :
  registrations (snd (Scaler.setMode page s m)) = O.
Proof.
  unfold Scaler.setMode.
  destruct (negb _ && _); [|reflexivity].
  rewrite bind_snd, registrations_app, (proj2 (refresh_quiet _ _)).
  rewrite bind_snd, registrations_app. unfold when.
  now destruct (onModeChange _).
Qed.

Lemma constructor_ok (o : Options) :
  scaler_ok (Scaler.constructor (set_mode o (VString (validateMode (mode o))))).
Proof.
  repeat split; [now left|].
  cbn [Scaler.currentMode Scaler.constructor mode set_mode].
  destruct (validateMode_cases (mode o)) as [-> | ->]; auto.
Qed.

Lemma bind_ret (A B : Type) (a : A) (k : A -> Traced B) : bind (ret a) k = k a.
Proof. unfold bind, ret. now destruct (k a). Qed.

(** *** The revision of src/index.js without detected sizes *)

Lemma step_ok (page : Page) (f : FitScreenJS.t) (c : call) :
  scaler_ok (FitScreenJS.scaler f) ->
  scaler_ok (FitScreenJS.scaler (fst (FitScreenJS.step page f c))).
Proof.
  intro K.
  assert (R : forall g, scaler_ok (FitScreenJS.scaler g) ->
    scaler_ok (FitScreenJS.scaler (fst (FitScreenJS.refresh page g)))).
  { intros g Kg. unfold FitScreenJS.refresh. rewrite bind_fst.
    cbn [fst ret FitScreenJS.scaler FitScreenJS.set_scaler]. now apply refresh_ok. }
  destruct c as [co oc ct|m|w h| | |]; cbn [FitScreenJS.step].
  - unfold FitScreenJS.applyTo. destruct co as [cn|]; [|exact K].
    rewrite !bind_fst.
    match goal with |- context [Scaler.setDesignSize page ?s ?w ?h] =>
      assert (K2 : scaler_ok (fst (Scaler.setDesignSize page s w h)))
        by (apply setDesignSize_ok; exact K) end.
    destruct (negb (FitScreenJS.isInitialized _)); cbn [fst ret bind emit];
      apply R; exact K2.
  - unfold FitScreenJS.setMode. rewrite bind_fst.
    cbn [fst ret FitScreenJS.scaler FitScreenJS.set_scaler]. now apply setMode_ok.
  - unfold FitScreenJS.setDesignSize. rewrite bind_fst.
    cbn [fst ret FitScreenJS.scaler FitScreenJS.set_scaler]. now apply setDesignSize_ok.
  - now apply R.
  - unfold FitScreenJS.destroy. now destruct (_ && _).
  - unfold FitScreenJS._resizeHandler.
    destruct (FitScreenJS.isInitialized f); [|exact K].
    destruct (negb (FitScreenJS.isDestroyed f)); [now apply R | exact K].
Qed.

Lemma run_ok (calls : list (Page * call)) :
  forall f : FitScreenJS.t,
    scaler_ok (FitScreenJS.scaler f) ->
    scaler_ok (FitScreenJS.scaler (fst (FitScreenJS.run calls f))).
Proof.
  induction calls as [|[page c] rest IH]; intros f K; cbn [FitScreenJS.run].
  - exact K.
  - rewrite bind_fst. apply IH. now apply step_ok.
Qed.

Lemma step_listener (page : Page) (f : FitScreenJS.t) (c : call) :
  let r := FitScreenJS.step page f c in
  registrations (snd r)
    = (if negb (FitScreenJS.isInitialized f) && negb (binds_nothing c) then 1 else 0)%nat
  /\ FitScreenJS.isInitialized (fst r)
     = FitScreenJS.isInitialized f || negb (binds_nothing c)
  /\ removals (snd r)
     = (if is_destroy c && FitScreenJS.isInitialized f
           && negb (FitScreenJS.isDestroyed f) then 1 else 0)%nat.
Proof.
  assert (R : forall g,
    FitScreenJS.isInitialized (fst (FitScreenJS.refresh page g))
    = FitScreenJS.isInitialized g
    /\ registrations (snd (FitScreenJS.refresh page g)) = O
    /\ removals (snd (FitScreenJS.refresh page g)) = O).
  { intro g. unfold FitScreenJS.refresh.
    rewrite bind_fst, bind_snd, registrations_app, removals_app.
    rewrite (proj1 (refresh_quiet _ _)), (proj2 (refresh_quiet _ _)). auto. }
  destruct c as [co oc ct|m|w h| | |]; cbn [FitScreenJS.step binds_nothing is_destroy].
  - unfold FitScreenJS.applyTo. destruct co as [cn|].
    + rewrite !bind_fst, !bind_snd, !registrations_app, !removals_app,
        setDesignSize_unregistering, setDesignSize_quiet.
      cbn [negb andb orb].
      destruct (FitScreenJS.isInitialized f) eqn:I;
        cbn [FitScreenJS.isInitialized FitScreenJS.set_scaler]; rewrite I;
        cbn [negb fst snd ret bind emit app];
        match goal with |- context [FitScreenJS.refresh page ?g] =>
          destruct (R g) as (-> & -> & ->) end;
        cbn; rewrite ?I; auto.
    + cbn. rewrite andb_false_r, orb_false_r. auto.
  - unfold FitScreenJS.setMode.
    rewrite bind_fst, bind_snd, registrations_app, removals_app,
      setMode_unregistering, setMode_quiet.
    cbn. rewrite andb_false_r, orb_false_r. auto.
  - unfold FitScreenJS.setDesignSize.
    rewrite bind_fst, bind_snd, registrations_app, removals_app,
      setDesignSize_unregistering, setDesignSize_quiet.
    cbn. rewrite andb_false_r, orb_false_r. auto.
  - destruct (R f) as (-> & -> & ->). rewrite andb_false_r, orb_false_r. auto.
  - unfold FitScreenJS.destroy. rewrite andb_false_r, orb_false_r.
    destruct (FitScreenJS.isInitialized f) eqn:I,
             (FitScreenJS.isDestroyed f) eqn:D; cbn; rewrite ?I; auto.
  - unfold FitScreenJS._resizeHandler. rewrite andb_false_r, orb_false_r.
    destruct (FitScreenJS.isInitialized f) eqn:I; [|cbn; rewrite ?I; auto].
    destruct (negb (FitScreenJS.isDestroyed f));
      [destruct (R f) as (-> & -> & ->) | cbn]; rewrite ?I; auto.
Qed.

Lemma run_registrations (calls : list (Page * call)) :
  forall f : FitScreenJS.t,
    registrations (snd (FitScreenJS.run calls f))
    = (if negb (FitScreenJS.isInitialized f)
          && existsb (fun pc => negb (binds_nothing (snd pc))) calls
       then 1 else 0)%nat.
Proof.
  induction calls as [|[page c] rest IH]; intro f; cbn [FitScreenJS.run existsb snd].
  - now rewrite andb_false_r.
  - rewrite bind_snd, registrations_app, IH.
    destruct (step_listener page f c) as (-> & -> & _).
    destruct (FitScreenJS.isInitialized f), (binds_nothing c); reflexivity.
Qed.

Lemma run_removals_registered (calls : list (Page * call)) :
  forall f : FitScreenJS.t,
    FitScreenJS.isInitialized f = false ->
    (removals (snd (FitScreenJS.run calls f))
     <= registrations (snd (FitScreenJS.run calls f)))%nat.
Proof.
  induction calls as [|[page c] rest IH]; intros f I; cbn [FitScreenJS.run].
  - apply Nat.le_refl.
  - rewrite bind_snd, registrations_app, removals_app.
    destruct (step_listener page f c) as (Er & Ei & Ed).
    rewrite Er, Ed, I, andb_false_r. cbn [negb andb].
    destruct (binds_nothing c) eqn:B; cbn [negb].
    + rewrite I in Ei. cbn in Ei. pose proof (IH _ Ei). lia.
    + pose proof (proj2 (run_flags rest (fst (FitScreenJS.step page f c)))). lia.
Qed.

Lemma step_unbound (page : Page) (f : FitScreenJS.t) (c : call) :
  binds_nothing c = true ->
  Scaler.container (FitScreenJS.scaler f) = None ->
  Scaler.isInitialized (FitScreenJS.scaler f) = false ->
  FitScreenJS.isInitialized f = false ->
  let r := FitScreenJS.step page f c in
  forallb is_console_error (snd r) = true
  /\ Scaler.container (FitScreenJS.scaler (fst r)) = None
  /\ Scaler.isInitialized (FitScreenJS.scaler (fst r)) = false
  /\ FitScreenJS.isInitialized (fst r) = false
  /\ FitScreenJS.getScale (fst r) = FitScreenJS.getScale f.
Proof.
  intros B Hc Hs Hi.
  assert (U : forall s, Scaler.container s = None -> Scaler.refresh page s = (s, [])).
  { intros s H. unfold Scaler.refresh. now rewrite H. }
  destruct c as [co oc ct|m|w h| | |]; cbn [FitScreenJS.step].
  - destruct co; [discriminate B|]. cbn. auto.
  - unfold FitScreenJS.setMode, Scaler.setMode.
    cbn [Scaler.isInitialized Scaler.set_currentMode]. rewrite Hs, andb_false_r.
    cbn. auto.
  - unfold FitScreenJS.setDesignSize, Scaler.setDesignSize.
    destruct ((w >? Fin 0) && (h >? Fin 0)).
    + rewrite U by exact Hc. cbn. auto.
    + cbn. auto.
  - unfold FitScreenJS.refresh. rewrite U by exact Hc. cbn. destruct f; auto.
  - unfold FitScreenJS.destroy. rewrite Hi. cbn. auto.
  - rewrite Hi. cbn. auto.
Qed.

Lemma run_unbound (calls : list (Page * call)) :
  forall f : FitScreenJS.t,
    forallb (fun pc => binds_nothing (snd pc)) calls = true ->
    Scaler.container (FitScreenJS.scaler f) = None ->
    Scaler.isInitialized (FitScreenJS.scaler f) = false ->
    FitScreenJS.isInitialized f = false ->
    let r := FitScreenJS.run calls f in
    forallb is_console_error (snd r) = true
    /\ Scaler.isInitialized (FitScreenJS.scaler (fst r)) = false
    /\ FitScreenJS.isInitialized (fst r) = false
    /\ FitScreenJS.getScale (fst r) = FitScreenJS.getScale f.
Proof.
  induction calls as [|[page c] rest IH]; intros f B Hc Hs Hi; cbn [FitScreenJS.run].
  - cbn. auto.
  - cbn [forallb snd] in B. apply andb_true_iff in B. destruct B as [Bc Br].
    destruct (step_unbound page f c Bc Hc Hs Hi) as (T & Hc' & Hs' & Hi' & G).
    destruct (IH _ Br Hc' Hs' Hi') as (T' & Hs'' & Hi'' & G').
    rewrite bind_fst, bind_snd, forallb_app, T, T'. rewrite G', G. auto.
Qed.

Lemma run_resizes_destroyed (pages : list Page) :
  forall f : FitScreenJS.t,
    FitScreenJS.isDestroyed f = true ->
    FitScreenJS.run (resizes pages) f = (f, []).
Proof.
  induction pages as [|page rest IH]; intros f D; [reflexivity|].
  cbn [resizes map FitScreenJS.run FitScreenJS.step].
  unfold FitScreenJS._resizeHandler. rewrite D. cbn [negb].
  destruct (FitScreenJS.isInitialized f); rewrite bind_ret; apply (IH f D).
Qed.

(** *** The revision of src/index.js that records the detected size *)

Lemma step_ok_detect (page : Page) (f : FitScreenJSDetect.t) (c : call) :
  scaler_ok (FitScreenJSDetect.scaler f) ->
  scaler_ok (FitScreenJSDetect.scaler (fst (FitScreenJSDetect.step page f c))).
Proof.
  intro K.
  assert (R : forall g, scaler_ok (FitScreenJSDetect.scaler g) ->
    scaler_ok (FitScreenJSDetect.scaler (fst (FitScreenJSDetect.refresh page g)))).
  { intros g Kg. unfold FitScreenJSDetect.refresh. rewrite bind_fst.
    cbn [fst ret FitScreenJSDetect.scaler FitScreenJSDetect.set_scaler]. now apply refresh_ok. }
  destruct c as [co oc ct|m|w h| | |]; cbn [FitScreenJSDetect.step].
  - unfold FitScreenJSDetect.applyTo. destruct co as [cn|]; [|exact K].
    rewrite !bind_fst.
    match goal with |- context [Scaler.setDesignSize page ?s ?w ?h] =>
      assert (K2 : scaler_ok (fst (Scaler.setDesignSize page s w h)))
        by (apply setDesignSize_ok; exact K) end.
    destruct (negb (FitScreenJSDetect.isInitialized _)); cbn [fst ret bind emit];
      apply R; exact K2.
  - unfold FitScreenJSDetect.setMode. rewrite bind_fst.
    cbn [fst ret FitScreenJSDetect.scaler FitScreenJSDetect.set_scaler]. now apply setMode_ok.
  - unfold FitScreenJSDetect.setDesignSize. rewrite bind_fst.
    cbn [fst ret FitScreenJSDetect.scaler FitScreenJSDetect.set_scaler]. now apply setDesignSize_ok.
  - now apply R.
  - unfold FitScreenJSDetect.destroy. now destruct (_ && _).
  - unfold FitScreenJSDetect._resizeHandler.
    destruct (FitScreenJSDetect.isInitialized f); [|exact K].
    destruct (negb (FitScreenJSDetect.isDestroyed f)); [now apply R | exact K].
Qed.

Lemma run_ok_detect (calls : list (Page * call)) :
  forall f : FitScreenJSDetect.t,
    scaler_ok (FitScreenJSDetect.scaler f) ->
    scaler_ok (FitScreenJSDetect.scaler (fst (FitScreenJSDetect.run calls f))).
Proof.
  induction calls as [|[page c] rest IH]; intros f K; cbn [FitScreenJSDetect.run].
  - exact K.
  - rewrite bind_fst. apply IH. now apply step_ok_detect.
Qed.

Lemma step_listener_detect (page : Page) (f : FitScreenJSDetect.t) (c : call) :
  let r := FitScreenJSDetect.step page f c in
  registrations (snd r)
    = (if negb (FitScreenJSDetect.isInitialized f) && negb (binds_nothing c) then 1 else 0)%nat
  /\ FitScreenJSDetect.isInitialized (fst r)
     = FitScreenJSDetect.isInitialized f || negb (binds_nothing c)
  /\ removals (snd r)
     = (if is_destroy c && FitScreenJSDetect.isInitialized f
           && negb (FitScreenJSDetect.isDestroyed f) then 1 else 0)%nat.
Proof.
  assert (R : forall g,
    FitScreenJSDetect.isInitialized (fst (FitScreenJSDetect.refresh page g))
    = FitScreenJSDetect.isInitialized g
    /\ registrations (snd (FitScreenJSDetect.refresh page g)) = O
    /\ removals (snd (FitScreenJSDetect.refresh page g)) = O).
  { intro g. unfold FitScreenJSDetect.refresh.
    rewrite bind_fst, bind_snd, registrations_app, removals_app.
    rewrite (proj1 (refresh_quiet _ _)), (proj2 (refresh_quiet _ _)). auto. }
  destruct c as [co oc ct|m|w h| | |]; cbn [FitScreenJSDetect.step binds_nothing is_destroy].
  - unfold FitScreenJSDetect.applyTo. destruct co as [cn|].
    + rewrite !bind_fst, !bind_snd, !registrations_app, !removals_app,
        setDesignSize_unregistering, setDesignSize_quiet.
      cbn [negb andb orb].
      destruct (FitScreenJSDetect.isInitialized f) eqn:I;
        cbn [FitScreenJSDetect.isInitialized FitScreenJSDetect.set_scaler
             FitScreenJSDetect.set_options]; rewrite I;
        cbn [negb fst snd ret bind emit app];
        match goal with |- context [FitScreenJSDetect.refresh page ?g] =>
          destruct (R g) as (-> & -> & ->) end;
        cbn; rewrite ?I; auto.
    + cbn. rewrite andb_false_r, orb_false_r. auto.
  - unfold FitScreenJSDetect.setMode.
    rewrite bind_fst, bind_snd, registrations_app, removals_app,
      setMode_unregistering, setMode_quiet.
    cbn. rewrite andb_false_r, orb_false_r. auto.
  - unfold FitScreenJSDetect.setDesignSize.
    rewrite bind_fst, bind_snd, registrations_app, removals_app,
      setDesignSize_unregistering, setDesignSize_quiet.
    cbn. rewrite andb_false_r, orb_false_r. auto.
  - destruct (R f) as (-> & -> & ->). rewrite andb_false_r, orb_false_r. auto.
  - unfold FitScreenJSDetect.destroy. rewrite andb_false_r, orb_false_r.
    destruct (FitScreenJSDetect.isInitialized f) eqn:I,
             (FitScreenJSDetect.isDestroyed f) eqn:D; cbn; rewrite ?I; auto.
  - unfold FitScreenJSDetect._resizeHandler. rewrite andb_false_r, orb_false_r.
    destruct (FitScreenJSDetect.isInitialized f) eqn:I; [|cbn; rewrite ?I; auto].
    destruct (negb (FitScreenJSDetect.isDestroyed f));
      [destruct (R f) as (-> & -> & ->) | cbn]; rewrite ?I; auto.
Qed.

Lemma run_registrations_detect (calls : list (Page * call)) :
  forall f : FitScreenJSDetect.t,
    registrations (snd (FitScreenJSDetect.run calls f))
    = (if negb (FitScreenJSDetect.isInitialized f)
          && existsb (fun pc => negb (binds_nothing (snd pc))) calls
       then 1 else 0)%nat.
Proof.
  induction calls as [|[page c] rest IH]; intro f; cbn [FitScreenJSDetect.run existsb snd].
  - now rewrite andb_false_r.
  - rewrite bind_snd, registrations_app, IH.
    destruct (step_listener_detect page f c) as (-> & -> & _).
    destruct (FitScreenJSDetect.isInitialized f), (binds_nothing c); reflexivity.
Qed.

Lemma run_removals_registered_detect (calls : list (Page * call)) :
  forall f : FitScreenJSDetect.t,
    FitScreenJSDetect.isInitialized f = false ->
    (removals (snd (FitScreenJSDetect.run calls f))
     <= registrations (snd (FitScreenJSDetect.run calls f)))%nat.
Proof.
  induction calls as [|[page c] rest IH]; intros f I; cbn [FitScreenJSDetect.run].
  - apply Nat.le_refl.
  - rewrite bind_snd, registrations_app, removals_app.
    destruct (step_listener_detect page f c) as (Er & Ei & Ed).
    rewrite Er, Ed, I, andb_false_r. cbn [negb andb].
    destruct (binds_nothing c) eqn:B; cbn [negb].
    + rewrite I in Ei. cbn in Ei. pose proof (IH _ Ei). lia.
    + pose proof (proj2 (run_flags_detect rest (fst (FitScreenJSDetect.step page f c)))). lia.
Qed.

Lemma step_unbound_detect (page : Page) (f : FitScreenJSDetect.t) (c : call) :
  binds_nothing c = true ->
  Scaler.container (FitScreenJSDetect.scaler f) = None ->
  Scaler.isInitialized (FitScreenJSDetect.scaler f) = false ->
  FitScreenJSDetect.isInitialized f = false ->
  let r := FitScreenJSDetect.step page f c in
  forallb is_console_error (snd r) = true
  /\ Scaler.container (FitScreenJSDetect.scaler (fst r)) = None
  /\ Scaler.isInitialized (FitScreenJSDetect.scaler (fst r)) = false
  /\ FitScreenJSDetect.isInitialized (fst r) = false
  /\ Scaler.getScale (FitScreenJSDetect.scaler (fst r)) = Scaler.getScale (FitScreenJSDetect.scaler f).
Proof.
  intros B Hc Hs Hi.
  assert (U : forall s, Scaler.container s = None -> Scaler.refresh page s = (s, [])).
  { intros s H. unfold Scaler.refresh. now rewrite H. }
  destruct c as [co oc ct|m|w h| | |]; cbn [FitScreenJSDetect.step].
  - destruct co; [discriminate B|]. cbn. auto.
  - unfold FitScreenJSDetect.setMode, Scaler.setMode.
    cbn [Scaler.isInitialized Scaler.set_currentMode]. rewrite Hs, andb_false_r.
    cbn. auto.
  - unfold FitScreenJSDetect.setDesignSize, Scaler.setDesignSize.
    destruct ((w >? Fin 0) && (h >? Fin 0)).
    + rewrite U by exact Hc. cbn. auto.
    + cbn. auto.
  - unfold FitScreenJSDetect.refresh. rewrite U by exact Hc. cbn. destruct f; auto.
  - unfold FitScreenJSDetect.destroy. rewrite Hi. cbn. auto.
  - rewrite Hi. cbn. auto.
Qed.

Lemma run_unbound_detect (calls : list (Page * call)) :
  forall f : FitScreenJSDetect.t,
    forallb (fun pc => binds_nothing (snd pc)) calls = true ->
    Scaler.container (FitScreenJSDetect.scaler f) = None ->
    Scaler.isInitialized (FitScreenJSDetect.scaler f) = false ->
    FitScreenJSDetect.isInitialized f = false ->
    let r := FitScreenJSDetect.run calls f in
    forallb is_console_error (snd r) = true
    /\ Scaler.isInitialized (FitScreenJSDetect.scaler (fst r)) = false
    /\ FitScreenJSDetect.isInitialized (fst r) = false
    /\ Scaler.getScale (FitScreenJSDetect.scaler (fst r)) = Scaler.getScale (FitScreenJSDetect.scaler f).
Proof.
  induction calls as [|[page c] rest IH]; intros f B Hc Hs Hi; cbn [FitScreenJSDetect.run].
  - cbn. auto.
  - cbn [forallb snd] in B. apply andb_true_iff in B. destruct B as [Bc Br].
    destruct (step_unbound_detect page f c Bc Hc Hs Hi) as (T & Hc' & Hs' & Hi' & G).
    destruct (IH _ Br Hc' Hs' Hi') as (T' & Hs'' & Hi'' & G').
    rewrite bind_fst, bind_snd, forallb_app, T, T'. rewrite G', G. auto.
Qed.

Lemma run_resizes_destroyed_detect (pages : list Page) :
  forall f : FitScreenJSDetect.t,
    FitScreenJSDetect.isDestroyed f = true ->
    FitScreenJSDetect.run (resizes pages) f = (f, []).
Proof.
  induction pages as [|page rest IH]; intros f D; [reflexivity|].
  cbn [resizes map FitScreenJSDetect.run FitScreenJSDetect.step].
  unfold FitScreenJSDetect._resizeHandler. rewrite D. cbn [negb].
  destruct (FitScreenJSDetect.isInitialized f); rewrite bind_ret; apply (IH f D).
Qed.

(** *** Both revisions *)

(** Whatever the options an orchestrator is constructed with and whatever
    calls are then made on it, on whatever pages, [getScale] is never NaN,
    the design size of its scaler is either still unset (0 x 0) or has a
    width and a height > 0, and [getMode] is one of the two mode strings.
    This holds of both revisions of the orchestrator.  Nothing is said of the
    size of the scale: the model's finite numbers are exact, and a quotient
    too large for binary64 is an infinity in the code. *)
Theorem orchestrator_keeps_scaler_sound :
  (forall (o : Options) (calls : list (Page * call)),
     let f := fst (FitScreenJS.run calls (FitScreenJS.constructor o)) in
     isNaN (FitScreenJS.getScale f) = false
     /\ (Scaler.designSize (FitScreenJS.scaler f) = unset_size
         \/ positive_size (Scaler.designSize (FitScreenJS.scaler f)) = true)
     /\ (FitScreenJS.getMode f = VString PROPORTIONAL
         \/ FitScreenJS.getMode f = VString FULLSCREEN))
  /\ (forall (o : Options) (calls : list (Page * call)),
     let f := fst (FitScreenJSDetect.run calls (FitScreenJSDetect.constructor o)) in
     isNaN (Scaler.getScale (FitScreenJSDetect.scaler f)) = false
     /\ (Scaler.designSize (FitScreenJSDetect.scaler f) = unset_size
         \/ positive_size (Scaler.designSize (FitScreenJSDetect.scaler f)) = true)
     /\ (FitScreenJSDetect.getMode f = VString PROPORTIONAL
         \/ FitScreenJSDetect.getMode f = VString FULLSCREEN)).
Proof.
  split; intros o calls f.
  - apply (run_ok calls (FitScreenJS.constructor o)). apply constructor_ok.
  - apply (run_ok_detect calls (FitScreenJSDetect.constructor o)). apply constructor_ok.
Qed.

(** Over any sequence of calls, from any state, the resize listener is
    registered exactly once if the instance is not yet initialized and some
    [applyTo] of the sequence finds its container, and not at all otherwise;
    and an instance that starts uninitialized, as a constructed one does,
    never deregisters more often than it has registered.  This holds of both
    revisions of the orchestrator. *)
Theorem resize_listener_lifecycle :
  (forall (calls : list (Page * call)) (f : FitScreenJS.t),
     registrations (snd (FitScreenJS.run calls f))
     = (if negb (FitScreenJS.isInitialized f)
           && existsb (fun pc => negb (binds_nothing (snd pc))) calls
        then 1 else 0)%nat)
  /\ (forall (calls : list (Page * call)) (o : Options),
     (removals (snd (FitScreenJS.run calls (FitScreenJS.constructor o)))
      <= registrations (snd (FitScreenJS.run calls (FitScreenJS.constructor o))))%nat)
  /\ (forall (calls : list (Page * call)) (f : FitScreenJSDetect.t),
     registrations (snd (FitScreenJSDetect.run calls f))
     = (if negb (FitScreenJSDetect.isInitialized f)
           && existsb (fun pc => negb (binds_nothing (snd pc))) calls
        then 1 else 0)%nat)
  /\ (forall (calls : list (Page * call)) (o : Options),
     (removals (snd (FitScreenJSDetect.run calls (FitScreenJSDetect.constructor o)))
      <= registrations
           (snd (FitScreenJSDetect.run calls (FitScreenJSDetect.constructor o))))%nat).
Proof.
  repeat apply conj.
  - intros calls f. apply run_registrations.
  - intros calls o. now apply run_removals_registered.
  - intros calls f. apply run_registrations_detect.
  - intros calls o. now apply run_removals_registered_detect.
Qed.

(** Until an [applyTo] finds its container, a constructed orchestrator
    applies no style, calls no callback and registers no listener, whatever
    else is called on it: the only thing it does is log an error for each
    [applyTo] that finds nothing.  Its scale stays 1 and neither it nor its
    scaler becomes initialized.  This holds of both revisions. *)
Theorem nothing_applied_before_binding :
  (forall (o : Options) (calls : list (Page * call)),
     forallb (fun pc => binds_nothing (snd pc)) calls = true ->
     let r := FitScreenJS.run calls (FitScreenJS.constructor o) in
     forallb is_console_error (snd r) = true
     /\ FitScreenJS.getScale (fst r) = Fin 1
     /\ FitScreenJS.isInitialized (fst r) = false
     /\ Scaler.isInitialized (FitScreenJS.scaler (fst r)) = false)
  /\ (forall (o : Options) (calls : list (Page * call)),
     forallb (fun pc => binds_nothing (snd pc)) calls = true ->
     let r := FitScreenJSDetect.run calls (FitScreenJSDetect.constructor o) in
     forallb is_console_error (snd r) = true
     /\ Scaler.getScale (FitScreenJSDetect.scaler (fst r)) = Fin 1
     /\ FitScreenJSDetect.isInitialized (fst r) = false
     /\ Scaler.isInitialized (FitScreenJSDetect.scaler (fst r)) = false).
Proof.
  split; intros o calls B r.
  - destruct (run_unbound calls (FitScreenJS.constructor o) B eq_refl eq_refl eq_refl)
      as (T & Hs & Hi & G).
    repeat split; auto.
  - destruct (run_unbound_detect calls (FitScreenJSDetect.constructor o) B
                eq_refl eq_refl eq_refl) as (T & Hs & Hi & G).
    repeat split; auto.
Qed.

Lemma nothing_applied_before_binding_witness :
  let page := uniform_page 800 600 in
  let calls :=
    [(page, SetMode (VString "fullscreen"));
     (page, SetDesignSize (of_Z 1920) (of_Z 1080));
     (page, Refresh);
     (page, ApplyTo None None 1%nat);
     (page, ResizeHandler);
     (page, Destroy)] in
  forallb (fun pc => binds_nothing (snd pc)) calls = true
  /\ snd (FitScreenJS.run calls (FitScreenJS.constructor callbackOptions))
     = [ConsoleError]
  /\ FitScreenJS.getScale
       (fst (FitScreenJS.run calls (FitScreenJS.constructor callbackOptions))) = Fin 1
  /\ forallb is_console_error
       (snd (FitScreenJSDetect.run calls (FitScreenJSDetect.constructor callbackOptions)))
     = true.
Proof.
  intros page calls. split; [reflexivity|]. split; [reflexivity|].
  split.
  - apply (proj1 nothing_applied_before_binding callbackOptions calls eq_refl).
  - apply (proj2 nothing_applied_before_binding callbackOptions calls eq_refl).
Defined.

(** A destroyed instance ignores the resize handler, however often a timer
    still pending makes it fire: nothing changes and nothing is called.
    [destroy] disables nothing else: an explicit [refresh] does on a
    destroyed instance exactly what it does on a live one.  This holds of
    both revisions. *)
Theorem destroyed_ignores_resize_only :
  (forall (pages : list Page) (f : FitScreenJS.t),
     FitScreenJS.isDestroyed f = true ->
     FitScreenJS.run (resizes pages) f = (f, []))
  /\ (forall (page : Page) (f : FitScreenJS.t) (b : bool),
     FitScreenJS.refresh page (FitScreenJS.set_isDestroyed f b)
     = (FitScreenJS.set_isDestroyed (fst (FitScreenJS.refresh page f)) b,
        snd (FitScreenJS.refresh page f)))
  /\ (forall (pages : list Page) (f : FitScreenJSDetect.t),
     FitScreenJSDetect.isDestroyed f = true ->
     FitScreenJSDetect.run (resizes pages) f = (f, []))
  /\ (forall (page : Page) (f : FitScreenJSDetect.t) (b : bool),
     FitScreenJSDetect.refresh page (FitScreenJSDetect.set_isDestroyed f b)
     = (FitScreenJSDetect.set_isDestroyed (fst (FitScreenJSDetect.refresh page f)) b,
        snd (FitScreenJSDetect.refresh page f))).
Proof.
  repeat apply conj.
  - intros pages f D. now apply run_resizes_destroyed.
  - intros page f b. unfold FitScreenJS.refresh.
    cbn [FitScreenJS.scaler FitScreenJS.set_isDestroyed].
    destruct (Scaler.refresh page (FitScreenJS.scaler f)) as [s tr].
    unfold bind, ret. cbn. now rewrite app_nil_r.
  - intros pages f D. now apply run_resizes_destroyed_detect.
  - intros page f b. unfold FitScreenJSDetect.refresh.
    cbn [FitScreenJSDetect.scaler FitScreenJSDetect.set_isDestroyed].
    destruct (Scaler.refresh page (FitScreenJSDetect.scaler f)) as [s tr].
    unfold bind, ret. cbn. now rewrite app_nil_r.
Qed.

Lemma destroyed_ignores_resize_only_witness :
  let page := uniform_page 800 600 in
  let f := fst (FitScreenJS.run [(page, ApplyTo (Some 0%nat) None 1%nat); (page, Destroy)]
                  (FitScreenJS.constructor callbackOptions)) in
  let g := fst (FitScreenJSDetect.run
                  [(page, ApplyTo (Some 0%nat) None 1%nat); (page, Destroy)]
                  (FitScreenJSDetect.constructor callbackOptions)) in
  FitScreenJS.isDestroyed f = true
  /\ FitScreenJS.run (resizes [uniform_page 1024 768; uniform_page 640 480]) f = (f, [])
  /\ FitScreenJSDetect.run (resizes [uniform_page 1024 768]) g = (g, []).
Proof.
  intros page f g. split; [reflexivity|]. split.
  - apply (proj1 destroyed_ignores_resize_only); reflexivity.
  - apply (proj1 (proj2 (proj2 destroyed_ignores_resize_only))); reflexivity.
Defined.

End Orchestrator.

(** ** Binding a container *)

Section Binding.

Import Modes.
Local Open Scope js_scope.

Lemma gt_of_Z_pos (z : Z) : (0 < z)%Z -> (of_Z z >? Fin 0) = true.
Proof.
  intro H. unfold of_Z, gt. apply Qlt_bool_iff.
  change 0%Q with (inject_Z 0). now rewrite <- Zlt_Qlt.
Qed.

Lemma calculateCurrentScale_value (page : Page) (t : Scaler.t) (c : node) :
  Scaler.container t = Some c ->
  truthy (width (Scaler.designSize t)) = true ->
  truthy (height (Scaler.designSize t)) = true ->
  snd (Scaler.calculateCurrentScale page t)
  = Helpers.calculateScale
      (of_Z (offsetWidth (element page c))) (of_Z (offsetHeight (element page c)))
      (width (Scaler.designSize t)) (height (Scaler.designSize t))
      (Scaler.isFullscreen t).
Proof.
  intros Hc Hw Hh. unfold Scaler.calculateCurrentScale. rewrite Hc, Hw, Hh.
  cbn [negb orb snd]. unfold Scaler.isFullscreen.
  destruct (value_strict_eq (Scaler.currentMode t) (VString FULLSCREEN)) eqn:F;
    cbn [Scaler.designSize Scaler.currentMode Scaler.set_currentScaleXY];
    now rewrite ?F.
Qed.

Lemma calculateScale_same_size (w h : Z) (cover : bool) :
  (0 < w)%Z -> (0 < h)%Z ->
  Helpers.calculateScale (of_Z w) (of_Z h) (of_Z w) (of_Z h) cover === Fin 1.
Proof.
  intros Hw Hh. unfold Helpers.calculateScale, of_Z.
  assert (Pw : (0 < inject_Z w)%Q) by (change 0%Q with (inject_Z 0); now rewrite <- Zlt_Qlt).
  assert (Ph : (0 < inject_Z h)%Q) by (change 0%Q with (inject_Z 0); now rewrite <- Zlt_Qlt).
  rewrite !div_Fin by (intro E; rewrite E in *; discriminate).
  assert (Ew : (inject_Z w / inject_Z w == 1)%Q)
    by (field; intro E; rewrite E in Pw; discriminate).
  assert (Eh : (inject_Z h / inject_Z h == 1)%Q)
    by (field; intro E; rewrite E in Ph; discriminate).
  unfold Math_max, Math_min, gt.
  destruct cover; destruct (Qlt_bool _ _); cbn [strict_eq]; now apply Qeq_bool_iff.
Qed.

(** An orchestrator constructed without a design size, a usable ratio or
    auto-detection, and applied to a container of positive width and height,
    takes the container's box at that moment as its design size, so that its
    first scale is 1 under either policy.  The design size is then kept:
    when the resize handler fires on a changed page, the scale is computed
    from the container's new box against the box it had at binding time. *)
Theorem applyTo_unconfigured :
  forall (page : Page) (o : Options) (c e : node),
    let o' := FitScreenJS._normalizeOptions o in
    no_explicit o' -> no_ratio o' -> no_detected o' -> autoDetect o' = false ->
    (0 < offsetWidth (element page c))%Z ->
    (0 < offsetHeight (element page c))%Z ->
    let bound := {| width := of_Z (offsetWidth (element page c));
                    height := of_Z (offsetHeight (element page c)) |} in
    let f := fst (FitScreenJS.applyTo page (FitScreenJS.constructor o) (Some c) e) in
    Scaler.designSize (FitScreenJS.scaler f) = bound
    /\ FitScreenJS.getScale f === Fin 1
    /\ FitScreenJS.isInitialized f = true
    /\ (forall page' : Page,
          let f' := fst (FitScreenJS._resizeHandler page' f) in
          Scaler.designSize (FitScreenJS.scaler f') = bound
          /\ FitScreenJS.getScale f'
             = Helpers.calculateScale
                 (of_Z (offsetWidth (element page' c)))
                 (of_Z (offsetHeight (element page' c)))
                 (width bound) (height bound)
                 (value_strict_eq (FitScreenJS.getMode f) (VString FULLSCREEN))).
Proof.
  intros page o c e o' E R D A Hw Hh bound f.
  (* the resolved design size is the container's box *)
  assert (Hd : Detector.determineDesignSize (window page) o'
                 (Some (element page c)) (Some (element page e)) = bound).
  { unfold Detector.determineDesignSize.
    rewrite (fromDesignSize_none E), (fromAspectRatio_none (window page) _ R),
      (fromDetected_none D), (fromAutoDetect_none (or_introl A)),
      (fromContainer_positive _ Hw Hh).
    reflexivity. }
  pose proof (gt_of_Z_pos Hw) as Gw. pose proof (gt_of_Z_pos Hh) as Gh.
  set (s0 := Scaler.constructor (set_mode o' (VString (validateMode (mode o'))))).
  set (t := Scaler.set_designSize (Scaler.setElements s0 c e) bound).
  assert (Hct : Scaler.container t = Some c) by reflexivity.
  assert (Het : Scaler.content t = Some e) by reflexivity.
  destruct (refresh_bound page t Hct Het) as (tr & Et & _).
  set (s2 := fst (Scaler.refresh page t)).
  destruct (refresh_frame page t) as (_ & Fc & Fe & Fd & Fm). fold s2 in Fc, Fe, Fd, Fm.
  (* the scaler after applyTo is the once refreshed one *)
  assert (Hf : FitScreenJS.scaler f = s2 /\ FitScreenJS.isInitialized f = true
               /\ FitScreenJS.isDestroyed f = false).
  { subst f. unfold FitScreenJS.applyTo.
    cbn [FitScreenJS.options FitScreenJS.scaler FitScreenJS.constructor].
    fold o'. rewrite Hd.
    change (width bound) with (of_Z (offsetWidth (element page c))).
    change (height bound) with (of_Z (offsetHeight (element page c))).
    fold s0. unfold Scaler.setDesignSize. rewrite Gw, Gh. cbn [andb].
    change {| width := of_Z (offsetWidth (element page c));
              height := of_Z (offsetHeight (element page c)) |} with bound.
    fold t.
    unfold FitScreenJS.refresh. rewrite !bind_fst.
    change (FitScreenJS.isInitialized
              (FitScreenJS.set_scaler (FitScreenJS.constructor o)
                 (fst (Scaler.refresh page t)))) with false.
    cbn [negb fst bind emit ret FitScreenJS.scaler FitScreenJS.set_isInitialized
         FitScreenJS.set_scaler FitScreenJS.isInitialized FitScreenJS.isDestroyed].
    fold s2.
    split; [|split; reflexivity].
    pose proof (proj1 refresh_twice page t) as I. cbv zeta in I.
    fold s2 in I. now rewrite I. }
  destruct Hf as (Hs & Hi & Hx).
  assert (Hv : Scaler.currentScale s2
               = Helpers.calculateScale
                   (of_Z (offsetWidth (element page c)))
                   (of_Z (offsetHeight (element page c)))
                   (width bound) (height bound) (Scaler.isFullscreen t)).
  { subst s2. rewrite Et. cbn [fst Scaler.currentScale Scaler.set_isInitialized
                                Scaler.set_currentScale].
    apply (calculateCurrentScale_value page t Hct);
      [exact (gt_zero_truthy _ Gw) | exact (gt_zero_truthy _ Gh)]. }
  repeat apply conj.
  - now rewrite Hs.
  - unfold FitScreenJS.getScale, Scaler.getScale. rewrite Hs, Hv.
    now apply calculateScale_same_size.
  - exact Hi.
  - intros page' f'. subst f'. unfold FitScreenJS._resizeHandler.
    rewrite Hx. cbn [negb]. unfold FitScreenJS.refresh. rewrite bind_fst.
    cbn [fst ret FitScreenJS.scaler FitScreenJS.set_scaler].
    unfold FitScreenJS.getScale, FitScreenJS.getMode, Scaler.getScale, Scaler.getMode.
    rewrite Hs.
    destruct (refresh_frame page' s2) as (_ & _ & _ & Fd' & _).
    split; [now rewrite Fd', Fd|].
    assert (Hc2 : Scaler.container s2 = Some c) by (now rewrite Fc).
    assert (He2 : Scaler.content s2 = Some e) by (now rewrite Fe).
    destruct (refresh_bound page' s2 Hc2 He2) as (tr' & E' & _).
    rewrite E'. cbn [fst Scaler.currentScale Scaler.set_isInitialized
                     Scaler.set_currentScale].
    rewrite (calculateCurrentScale_value page' s2 Hc2);
      rewrite ?Fd; cbn [Scaler.designSize Scaler.set_designSize width height bound];
      [reflexivity | exact (gt_zero_truthy _ Gw) | exact (gt_zero_truthy _ Gh)].
Qed.

Lemma applyTo_unconfigured_witness :
  let page := uniform_page 800 600 in
  let f := fst (FitScreenJS.applyTo page (FitScreenJS.constructor emptyOptions)
                  (Some 0%nat) 1%nat) in
  Scaler.designSize (FitScreenJS.scaler f)
    = {| width := of_Z 800; height := of_Z 600 |}
  /\ FitScreenJS.getScale f === Fin 1
  /\ FitScreenJS.getScale (fst (FitScreenJS._resizeHandler (uniform_page 400 600) f))
     = Helpers.calculateScale (of_Z 400) (of_Z 600) (of_Z 800) (of_Z 600) false.
Proof.
  intros page f.
  destruct (@applyTo_unconfigured page emptyOptions 0%nat 1%nat eq_refl
              (fun q E => False_ind _ (eq_ind VUndefined
                 (fun v => match v with VUndefined => True | _ => False end) I _ E))
              eq_refl eq_refl eq_refl eq_refl) as (Hd & Hs & _ & Hr).
  split; [exact Hd|]. split; [exact Hs|].
  exact (proj2 (Hr (uniform_page 400 600))).
Defined.

Lemma or_else_not_NaN (a b : number) : isNaN b = false -> isNaN (or_else a b) = false.
Proof. unfold or_else. destruct a as [| |q]; simpl; auto. now destruct (negb _). Qed.

Lemma applyTo_detect_shape (page : Page) (f : FitScreenJSDetect.t) (c : node)
  (oc : option node) (e : node) :
  let original := FitScreenJSDetect.originalSize (option_map (element page) oc) in
  let o1 := set_detected (FitScreenJSDetect.options f) (width original) (height original) in
  let d := Detector.determineDesignSize (window page) o1
             (Some (element page c)) (Some (element page e)) in
  let f' := fst (FitScreenJSDetect.applyTo page f (Some c) oc e) in
  FitScreenJSDetect.options f' = o1
  /\ FitScreenJSDetect.scaler f'
     = fst (Scaler.refresh page
              (fst (Scaler.setDesignSize page
                      (Scaler.setElements (FitScreenJSDetect.scaler f) c e)
                      (width d) (height d)))).
Proof.
  intros original o1 d f'. subst f'. unfold FitScreenJSDetect.applyTo.
  fold original. fold o1.
  cbn [FitScreenJSDetect.options FitScreenJSDetect.scaler FitScreenJSDetect.set_options].
  fold d. unfold FitScreenJSDetect.refresh. rewrite !bind_fst.
  destruct (negb _);
    cbn [fst bind emit ret FitScreenJSDetect.options FitScreenJSDetect.scaler
         FitScreenJSDetect.set_scaler FitScreenJSDetect.set_isInitialized];
    split; reflexivity.
Qed.

(** In the revision that records the detected size, the size [applyTo]
    reads off the container's first child has no NaN dimension (the computed
    or inline dimension when it parses to a non-zero number, the integer
    offset otherwise), and it is stored in the options as the detected size.
    When no design size and no usable ratio are configured and that size is
    positive, it becomes the scaler's design size: the content is neither
    measured through [detectElementSize] nor sized by the container. *)
Theorem first_child_size_is_design_size :
  (forall oc : option Element,
     isNaN (width (FitScreenJSDetect.originalSize oc)) = false
     /\ isNaN (height (FitScreenJSDetect.originalSize oc)) = false)
  /\ (forall (page : Page) (f : FitScreenJSDetect.t) (c : node)
             (oc : option node) (e : node),
     let original := FitScreenJSDetect.originalSize (option_map (element page) oc) in
     let f' := fst (FitScreenJSDetect.applyTo page f (Some c) oc e) in
     detectedWidth (FitScreenJSDetect.options f') = Some (width original)
     /\ detectedHeight (FitScreenJSDetect.options f') = Some (height original)
     /\ (no_explicit (FitScreenJSDetect.options f) ->
         no_ratio (FitScreenJSDetect.options f) ->
         positive_size original = true ->
         Scaler.designSize (FitScreenJSDetect.scaler f') = original)).
Proof.
  split.
  - intros [oc|]; [|split; reflexivity]. unfold FitScreenJSDetect.originalSize.
    destruct (_ && _); cbn [width height]; split;
      repeat (apply or_else_not_NaN); reflexivity.
  - intros page f c oc e original f'.
    destruct (applyTo_detect_shape page f c oc e) as (Ho & Hs).
    fold original in Ho, Hs. fold f' in Ho, Hs.
    rewrite Ho. repeat apply conj; try reflexivity.
    intros E R P. rewrite Hs.
    destruct (refresh_frame page
                (fst (Scaler.setDesignSize page
                   (Scaler.setElements (FitScreenJSDetect.scaler f) c e)
                   (width (Detector.determineDesignSize (window page)
                      (set_detected (FitScreenJSDetect.options f)
                         (width original) (height original))
                      (Some (element page c)) (Some (element page e))))
                   (height (Detector.determineDesignSize (window page)
                      (set_detected (FitScreenJSDetect.options f)
                         (width original) (height original))
                      (Some (element page c)) (Some (element page e)))))))
      as (_ & _ & _ & -> & _).
    assert (Hd : Detector.determineDesignSize (window page)
                   (set_detected (FitScreenJSDetect.options f)
                      (width original) (height original))
                   (Some (element page c)) (Some (element page e)) = original).
    { unfold Detector.determineDesignSize.
      rewrite (@fromDesignSize_none (set_detected _ _ _)) by exact E.
      rewrite (@fromAspectRatio_none (window page) (set_detected _ _ _)) by exact R.
      unfold positive_size in P. apply andb_true_iff in P. destruct P as [Pw Ph].
      rewrite (@fromDetected_valid (set_detected _ _ _)) by assumption.
      cbn. now destruct original. }
    rewrite Hd. unfold Scaler.setDesignSize. unfold positive_size in P. rewrite P.
    destruct (refresh_frame page
                (Scaler.set_designSize
                   (Scaler.setElements (FitScreenJSDetect.scaler f) c e)
                   {| width := width original; height := height original |}))
      as (_ & _ & _ & -> & _).
    cbn. now destruct original.
Qed.

Lemma first_child_size_is_design_size_witness :
  let child :=
    {| offsetWidth := 1920; offsetHeight := 1080;
       computedWidth := "1920px"; computedHeight := "auto";
       styleWidth := ""; styleHeight := "";
       boundingClientRect :=
         {| DOMRect.left := Fin 0; DOMRect.top := Fin 0;
            DOMRect.right := Fin 0; DOMRect.bottom := Fin 0 |};
       children := [] |} in
  let page :=
    {| window := {| innerWidth := 800; innerHeight := 600 |};
       element := fun n => if Nat.eqb n 2 then child
                           else element (uniform_page 800 600) n |} in
  let f' := fst (FitScreenJSDetect.applyTo page
                   (FitScreenJSDetect.constructor emptyOptions)
                   (Some 0%nat) (Some 2%nat) 1%nat) in
  Scaler.designSize (FitScreenJSDetect.scaler f')
  = {| width := Fin 1920; height := of_Z 1080 |}.
Proof.
  intros child page f'.
  apply (proj2 first_child_size_is_design_size page
           (FitScreenJSDetect.constructor emptyOptions) 0%nat (Some 2%nat) 1%nat);
    first [ reflexivity | intros q E; discriminate E ].
Defined.

End Binding.

(** ** The style functions *)

Section Styling.

Import Styles.
Local Open Scope string_scope.
Local Open Scope list_scope.

Lemma last_written_app (a b : list write) (t : target) (p : string) :
  last_written (a ++ b) t p
  = match last_written b t p with
    | Some v => Some v
    | None => last_written a t p
    end.
Proof.
  induction a as [|w a IH]; cbn [app last_written].
  - now destruct (last_written b t p).
  - rewrite IH. now destruct (last_written b t p).
Qed.

Lemma containerStyles_on_container (c : option Element) (bg : value) :
  forallb on_container (containerStyles c bg) = true.
Proof.
  unfold containerStyles. destruct c; [|reflexivity].
  now destruct (to_boolean bg).
Qed.

Lemma containerStyles_none (bg : value) : containerStyles None bg = [].
Proof. reflexivity. Qed.






(** The style functions throw only for want of a container.  The
    proportional function throws exactly when the container is [null] while
    there is a content to scale and to centre, and then the content has
    already been given its position, origin and transform; the stretching
    fullscreen function throws exactly when the container is [null] while
    there is a content to scale, before it has assigned anything; the
    centring fullscreen function never throws. *)
Theorem style_functions_throw_only_without_container
  (c e : option Element) (img : string) (s : number) (o : StyleOptions) :
  let scaled := to_boolean (or_default (scaleContent o) (VBoolean true)) in
  let centred := to_boolean (or_default (centerContent o) (VBoolean true)) in
  (snd (applyProportionalMode c e s o) = TypeError
   <-> c = None /\ e <> None /\ scaled = true /\ centred = true)
  /\ (snd (applyProportionalMode c e s o) = TypeError
      -> fst (applyProportionalMode c e s o) = contentPrelude s)
  /\ snd (Styles.applyFullscreenMode c e s o) = Normal
  /\ (snd (StylesStretch.applyFullscreenMode c e img s o) = TypeError
      <-> c = None /\ e <> None /\ scaled = true)
  /\ (snd (StylesStretch.applyFullscreenMode c e img s o) = TypeError
      -> fst (StylesStretch.applyFullscreenMode c e img s o) = []).
Proof.
  intros scaled centred.
  unfold applyProportionalMode, Styles.applyFullscreenMode,
    StylesStretch.applyFullscreenMode.
  fold scaled centred.
  destruct c as [c|], e as [e|], scaled, centred; cbn [fst snd];
    repeat split; intros; try discriminate; try reflexivity;
    repeat match goal with
           | H : _ /\ _ |- _ => destruct H
           end; try discriminate; try congruence.
Qed.

Lemma style_functions_throw_only_without_container_witness :
  snd (applyProportionalMode None (Some (box 1600 900)) (Fin 1) noStyleOptions)
  = TypeError
  /\ fst (applyProportionalMode None (Some (box 1600 900)) (Fin 1) noStyleOptions)
     = contentPrelude (Fin 1).
Proof.
  pose proof (@style_functions_throw_only_without_container
                None (Some (box 1600 900)) "" (Fin 1) noStyleOptions)
    as (T & P & _).
  assert (E : snd (applyProportionalMode None (Some (box 1600 900)) (Fin 1)
                     noStyleOptions) = TypeError).
  { apply T. repeat split. discriminate. }
  split; [exact E | exact (P E)].
Defined.

(** A style function assigns only to what is there and is to be scaled:
    nothing on the container when the container is [null], and nothing but
    container properties when the content is [null] or [scaleContent] is
    falsy.  This holds also of the assignments made before a throw. *)
Theorem style_functions_assign_only_what_is_there
  (c e : option Element) (img : string) (s : number) (o : StyleOptions) :
  let scaled := to_boolean (or_default (scaleContent o) (VBoolean true)) in
  let runs := [fst (applyProportionalMode c e s o);
               fst (Styles.applyFullscreenMode c e s o);
               fst (StylesStretch.applyFullscreenMode c e img s o)] in
  (c = None ->
   forallb (forallb (fun w => negb (on_container w))) runs = true)
  /\ (e = None \/ scaled = false ->
      forallb (forallb on_container) runs = true).
Proof.
  intros scaled runs. subst runs.
  unfold applyProportionalMode, Styles.applyFullscreenMode,
    StylesStretch.applyFullscreenMode, containerStyles.
  fold scaled.
  split.
  - intros ->. destruct e as [e|]; [|reflexivity].
    destruct scaled; [|reflexivity].
    destruct (to_boolean (or_default (centerContent o) (VBoolean true)));
      reflexivity.
  - intros [-> | E].
    + destruct c; [|reflexivity].
      destruct (to_boolean (or_default (backgroundColor o) VNull)); reflexivity.
    + rewrite E. destruct e, c; try reflexivity;
        destruct (to_boolean (or_default (backgroundColor o) VNull)); reflexivity.
Qed.

Lemma style_functions_assign_only_what_is_there_witness :
  forallb (forallb on_container)
    [fst (applyProportionalMode (Some (box 800 600)) None (Fin 1) noStyleOptions);
     fst (Styles.applyFullscreenMode (Some (box 800 600)) None (Fin 1)
            noStyleOptions);
     fst (StylesStretch.applyFullscreenMode (Some (box 800 600)) None ""
            (Fin 1) noStyleOptions)] = true.
Proof.
  apply (proj2 (@style_functions_assign_only_what_is_there
                  (Some (box 800 600)) None "" (Fin 1) noStyleOptions)).
  left. reflexivity.
Defined.

(** The centring fullscreen function leaves a content it scales centred
    through percentages, whatever the container: the first transform and
    origin it assigns are overwritten, and the content ends absolutely
    positioned at 50% / 50% with
    [translate(-50%, -50%) scale(s)] about its centre. *)
Theorem applyFullscreenMode_effective_styles
  (c : option Element) (e : Element) (s : number) (o : StyleOptions) :
  to_boolean (or_default (scaleContent o) (VBoolean true)) = true ->
  let ws := fst (Styles.applyFullscreenMode c (Some e) s o) in
  last_written ws Content "position" = Some (Literal "absolute")
  /\ last_written ws Content "left" = Some (Literal "50%")
  /\ last_written ws Content "top" = Some (Literal "50%")
  /\ last_written ws Content "transform" = Some (CenteredScaleBy s)
  /\ last_written ws Content "transformOrigin" = Some (Literal "center center").
Proof.
  intros Hs ws. subst ws. unfold Styles.applyFullscreenMode. rewrite Hs.
  cbn [fst]. rewrite !last_written_app.
  repeat split; reflexivity.
Qed.

Lemma applyFullscreenMode_effective_styles_witness :
  let ws := fst (Styles.applyFullscreenMode None (Some (box 1600 900))
                   (Fin (1 # 2)) noStyleOptions) in
  last_written ws Content "position" = Some (Literal "absolute")
  /\ last_written ws Content "left" = Some (Literal "50%")
  /\ last_written ws Content "top" = Some (Literal "50%")
  /\ last_written ws Content "transform" = Some (CenteredScaleBy (Fin (1 # 2)))
  /\ last_written ws Content "transformOrigin" = Some (Literal "center center").
Proof.
  apply (@applyFullscreenMode_effective_styles None (box 1600 900)
           (Fin (1 # 2)) noStyleOptions).
  reflexivity.
Defined.







End Styling.

(** ** Debouncing *)

Section Debouncing.

Import Debounce.

Variable A : Type.
Variable wait : Z.

Lemma call_timers (latest : option (Z * A)) (this : t A) (now : Z) (a : A) :
  pending wait latest this ->
  timers (call wait now a this)
  = [{| id := next_id this; due := now + Z.max 0 wait; args := a |}].
Proof.
  intros [E | (i & t0 & a0 & _ & E & T)]; unfold call, clearTimeout;
    cbn [timers]; rewrite E.
  - now destruct (timeout this).
  - rewrite T. cbn [filter id]. now rewrite Nat.eqb_refl.
Qed.

Lemma call_pending (latest : option (Z * A)) (this : t A) (now : Z) (a : A) :
  pending wait latest this ->
  pending wait (Some (now, a)) (call wait now a this).
Proof.
  intro P. right. exists (next_id this), now, a.
  split; [reflexivity|]. split; [exact (call_timers now a P) | reflexivity].
Qed.

Lemma runTimers_pending (latest : option (Z * A)) (this : t A) (now : Z) :
  pending wait latest this ->
  pending wait latest (fst (runTimers now this))
  /\ ((snd (runTimers now this) = []
       /\ timers (fst (runTimers now this)) = timers this)
      \/ exists (t0 : Z) (a : A),
           latest = Some (t0, a) /\ (t0 + Z.max 0 wait <= now)%Z
           /\ snd (runTimers now this) = [a]
           /\ timers (fst (runTimers now this)) = []).
Proof.
  intros [E | (i & t0 & a0 & L & E & T)]; unfold runTimers, pending;
    cbn [fst snd timers timeout]; rewrite E; cbn [filter map due].
  - split; [now left | left; now split].
  - destruct (t0 + Z.max 0 wait <=? now)%Z eqn:D; cbn [negb map args].
    + split; [now left|]. right. exists t0, a0.
      apply Z.leb_le in D. now repeat split.
    + split; [|left; now split].
      right. exists i, t0, a0. now repeat split.
Qed.

Lemma run_pending (history : list (action A)) :
  forall (latest : option (Z * A)) (this : t A),
    pending wait latest this ->
    pending wait (latest_call latest history) (fst (run wait this history)).
Proof.
  induction history as [|[now a | now] rest IH]; intros latest this P;
    cbn [run latest_call fst].
  - exact P.
  - apply IH. exact (call_pending now a P).
  - destruct (runTimers_pending now P) as [P1 _].
    destruct (runTimers now this) as [this1 applied].
    specialize (IH latest this1 P1).
    destruct (run wait this1 rest). exact IH.
Qed.

Lemma run_app (h1 h2 : list (action A)) :
  forall this : t A,
    run wait this (h1 ++ h2)
    = (fst (run wait (fst (run wait this h1)) h2),
       snd (run wait this h1) ++ snd (run wait (fst (run wait this h1)) h2)).
Proof.
  induction h1 as [|[now a | now] rest IH]; intro this; cbn [app run fst snd].
  - now destruct (run wait this h2).
  - apply IH.
  - destruct (runTimers now this) as [this1 applied].
    rewrite IH. destruct (run wait this1 rest) as [this2 later].
    cbn [fst snd]. now rewrite app_assoc.
Qed.

Lemma debounce_pending (n : nat) : pending wait None (debounce A n).
Proof. now left. Qed.

Lemma run_count (history : list (action A)) :
  forall this : t A,
    (List.length (snd (run wait this history))
     + List.length (timers (fst (run wait this history)))
     <= List.length (timers this) + List.length (calls history))%nat.
Proof.
  induction history as [|[now a | now] rest IH]; intro this;
    cbn [run calls fst snd List.length].
  - lia.
  - specialize (IH (call wait now a this)).
    assert (List.length (timers (call wait now a this))
            <= S (List.length (timers this)))%nat.
    { unfold call, clearTimeout. cbn [timers]. rewrite length_app.
      cbn [List.length].
      destruct (timeout this); [|lia].
      pose proof (filter_length_le
                    (fun tm : timer A => negb (Nat.eqb (id tm) n)) (timers this)).
      lia. }
    lia.
  - pose proof (filter_length (fun tm : timer A => (due tm <=? now)%Z)
                  (timers this)) as F.
    unfold runTimers.
    match goal with
    | |- context [run wait ?d rest] => specialize (IH d); destruct (run wait d rest)
    end.
    cbn [fst snd timers] in *. rewrite length_app, length_map. lia.
Qed.

(** Whatever happened to a debounced function before, a call of it decides
    alone what the timers do next: run at [later] and again at [again], they
    apply [func] once, to the arguments of that call, at the first of the two
    times that is not earlier than [wait] ms (0 for a negative [wait]) after
    the call, and not at all if both are earlier.  What an earlier call left
    pending is never applied after a later call. *)
Theorem debounce_last_call_wins
  (n : nat) (history : list (action A)) (now : Z) (a : A) (later again : Z) :
  snd (run wait (debounce A n)
         (history ++ [Call now a; RunTimers A later; RunTimers A again]))
  = snd (run wait (debounce A n) history)
    ++ (if (now + Z.max 0 wait <=? later)%Z then [a]
        else if (now + Z.max 0 wait <=? again)%Z then [a]
        else []).
Proof.
  rewrite run_app. cbn [snd]. f_equal.
  pose proof (run_pending history (debounce_pending n)) as P.
  set (this := fst (run wait (debounce A n) history)) in *.
  pose proof (call_timers now a P) as E.
  cbn [run]. unfold runTimers at 2. unfold runTimers at 1.
  cbn [timers fst snd]. rewrite E. cbn [filter due map args].
  destruct (now + Z.max 0 wait <=? later)%Z; cbn [negb filter map app snd].
  - reflexivity.
  - cbn [due]. destruct (now + Z.max 0 wait <=? again)%Z; reflexivity.
Qed.

(** A debounced function never applies [func] early or more often than it
    was called: when the timers run at [now] after any history, [func] is
    applied at most once, to the arguments of the latest call, and only if
    that call was at least [wait] ms before (0 for a negative [wait]); and the
    applications of a whole history are no more than its calls. *)
Theorem debounce_never_early
  (n : nat) (history : list (action A)) (now : Z) :
  let before := run wait (debounce A n) history in
  let applied := snd (runTimers now (fst before)) in
  (applied = []
   \/ exists (t0 : Z) (a : A),
        latest_call None history = Some (t0, a)
        /\ (t0 + Z.max 0 wait <= now)%Z
        /\ applied = [a])
  /\ (List.length (snd before) <= List.length (calls history))%nat.
Proof.
  intros before applied. split.
  - pose proof (run_pending history (debounce_pending n)) as P.
    destruct (runTimers_pending now P) as [_ [[E _] | (t0 & a & L & D & E & _)]].
    + now left.
    + right. now exists t0, a.
  - pose proof (run_count history (debounce A n)) as C.
    cbn [debounce timers List.length] in C. subst before. lia.
Qed.

Lemma last_cons_default (B : Type) (l : list B) :
  forall c d d' : B, last (c :: l) d = last (c :: l) d'.
Proof.
  induction l as [|b l IH]; intros c d d'; [reflexivity|].
  change (last (c :: b :: l) d) with (last (b :: l) d).
  change (last (c :: b :: l) d') with (last (b :: l) d').
  apply IH.
Qed.

Lemma burst_quiet (l : list (Z * A)) :
  forall (previous : Z) (a0 : A) (this : t A),
    pending wait (Some (previous, a0)) this ->
    timers this <> [] ->
    close_calls wait previous l ->
    snd (run wait this (burst l)) = []
    /\ pending wait (Some (last l (previous, a0)))
         (fst (run wait this (burst l)))
    /\ timers (fst (run wait this (burst l))) <> [].
Proof.
  induction l as [|[t1 a1] rest IH]; intros previous a0 this P N C.
  - cbn [burst flat_map run fst snd last]. now repeat split.
  - destruct C as [C1 C2]. cbn [fst] in C1, C2.
    change (burst ((t1, a1) :: rest))
      with (RunTimers A t1 :: Call t1 a1 :: burst rest).
    cbn [run].
    destruct (runTimers_pending t1 P) as [P1 [[E T] | (t0 & a & L & D & _)]].
    2:{ injection L as <- <-. lia. }
    destruct (runTimers t1 this) as [this1 applied]. cbn [fst snd] in *.
    subst applied.
    assert (N1 : timers (call wait t1 a1 this1) <> []).
    { rewrite (call_timers t1 a1 P1). discriminate. }
    destruct (IH t1 a1 (call wait t1 a1 this1) (call_pending t1 a1 P1) N1 C2)
      as (Q & P2 & N2).
    destruct (run wait (call wait t1 a1 this1) (burst rest)) as [this2 later].
    cbn [fst snd app] in *.
    split; [exact Q|]. split; [|exact N2].
    destruct rest as [|c rest']; [exact P2|].
    change (last ((t1, a1) :: c :: rest') (previous, a0))
      with (last (c :: rest') (previous, a0)).
    rewrite (last_cons_default rest' c (previous, a0) (t1, a1)). exact P2.
Qed.

(** A burst of calls, each less than [wait] ms after the one before, applies
    [func] exactly once however often the host runs the timers in between:
    nothing during the burst, and once the timers run [wait] ms or more after
    the last call, [func] is applied to the arguments of that last call. *)
Theorem debounce_burst
  (n : nat) (t0 : Z) (a0 : A) (l : list (Z * A)) (later : Z) :
  close_calls wait t0 l ->
  (fst (last l (t0, a0)) + Z.max 0 wait <= later)%Z ->
  snd (run wait (debounce A n) (Call t0 a0 :: burst l)) = []
  /\ snd (run wait (debounce A n) (Call t0 a0 :: burst l ++ [RunTimers A later]))
     = [snd (last l (t0, a0))].
Proof.
  intros C D.
  assert (N : timers (call wait t0 a0 (debounce A n)) <> []).
  { rewrite (call_timers t0 a0 (debounce_pending n)). discriminate. }
  destruct (burst_quiet l (call_pending t0 a0 (debounce_pending n)) N C)
    as (Q & P & N2).
  split; [exact Q|].
  cbn [run]. rewrite run_app, Q. cbn [snd app run].
  destruct (runTimers_pending later P) as [_ [[E T] | (t1 & a & L & _ & E & _)]].
  - exfalso. destruct P as [P | (i & t1 & a & L & P & _)]; [contradiction|].
    unfold runTimers in E. cbn [snd] in E. rewrite P in E.
    cbn [filter due] in E. injection L as L1.
    rewrite L1 in D. cbn [fst] in D.
    apply Z.leb_le in D. rewrite D in E. discriminate E.
  - destruct (runTimers later _) as [this1 applied]. cbn [fst snd] in *.
    rewrite E, app_nil_r. injection L as L. rewrite L. reflexivity.
Qed.

End Debouncing.

Lemma debounce_burst_witness :
  close_calls 100 0 [(30%Z, 2%nat); (90%Z, 3%nat)]
  /\ (90 + Z.max 0 100 <= 190)%Z
  /\ snd (Debounce.run 100 (Debounce.debounce nat 1)
            (Debounce.Call 0%Z 1%nat :: burst [(30%Z, 2%nat); (90%Z, 3%nat)]))
     = []
  /\ snd (Debounce.run 100 (Debounce.debounce nat 1)
            (Debounce.Call 0%Z 1%nat :: burst [(30%Z, 2%nat); (90%Z, 3%nat)]
             ++ [Debounce.RunTimers nat 190]))
     = [3%nat].
Proof.
  assert (C : close_calls 100 0 [(30%Z, 2%nat); (90%Z, 3%nat)]).
  { cbn. repeat split; lia. }
  assert (D : (90 + Z.max 0 100 <= 190)%Z) by (cbn; lia).
  split; [exact C|]. split; [exact D|].
  exact (@debounce_burst nat 100 1 0%Z 1%nat [(30%Z, 2%nat); (90%Z, 3%nat)]
           190%Z C D).
Defined.
